(** * rotate_backup: backup-level decision engine and rotation/promotion

    A shallow embedding of the scheduling core of [src/main.go]
    (level classifier, execution ledger, scheduling decision, retention
    rotator, tier promoter) together with the second copy of the promoter found in
    [src/unnamed/part_001], and the properties the specification states
    about them; and of the code around the core: the copy methods, the
    serial number and the name of a backup, the storing of the image, the
    lock file, a whole run, the one-shot and the daemon mode, and the log
    output, with the properties that the code itself shows. *)

From Stdlib Require Import ZArith String Ascii.
From stdpp Require Import base option list sorting gmap strings.

Local Open Scope string_scope.
Local Open Scope list_scope.
Local Open Scope Z_scope.

(** ** time.Time *)

Module GoTime.

(** A [time.Time] is an instant together with the zone it is presented in.
    [abs_ns] counts nanoseconds since the zero time (January 1, year 1,
    00:00:00 UTC); [zone] is the offset of the location, in seconds east
    of UTC. *)
Record Time := mkTime { abs_ns : Z; zone : Z }.

Definition Nanosecond : Z := 1.
Definition Second : Z := 1000000000 * Nanosecond.
Definition Minute_d : Z := 60 * Second.

(** Seconds since the zero time, on the wall clock of the location. *)
Definition wall_seconds (t : Time) : Z := abs_ns t / Second + zone t.

(** [t.Hour()] and [t.Minute()]. *)
Definition Hour (t : Time) : Z := (wall_seconds t mod 86400) / 3600.
Definition Minute (t : Time) : Z := (wall_seconds t mod 3600) / 60.

(** [t.IsZero()]: the zero instant, whatever the location. *)
Definition IsZero (t : Time) : bool := abs_ns t =? 0.

(** [t.Truncate(d)]: round the instant down to a multiple of [d] since the
    zero time; a non-positive [d] leaves [t] as it is. *)
Definition Truncate (t : Time) (d : Z) : Time :=
  if d <=? 0 then t else mkTime (abs_ns t - abs_ns t mod d) (zone t).

(** [t.Equal(u)]: the same instant, locations are not compared. *)
Definition Equal (t u : Time) : bool := abs_ns t =? abs_ns u.

(** [time.Date(2025, 7, 1, h, m, s, 0, loc)] for a location [off] seconds
    east of UTC.  2025-07-01 is day 739432 since the zero time. *)
Definition date_2025_07_01 (h m s off : Z) : Time :=
  mkTime ((739432 * 86400 + h * 3600 + m * 60 + s - off) * Second) off.

(** What [Time.MarshalJSON] followed by [Time.UnmarshalJSON] makes of a
    time.  The text is that of RFC 3339: the reading of the wall clock to
    the nanosecond, then the zone offset in hours and minutes,
    [offset / 60] minutes in Go's division, which truncates.  The seconds
    of an offset are not written; the instant is read from the clock
    reading and the offset as written, so it is moved by them. *)
Definition RFC3339 (t : Time) : Time :=
  let offset := 60 * (zone t ÷ 60) in
  mkTime (abs_ns t + (zone t - offset) * Second) offset.

End GoTime.
Export GoTime.

(** ** Level classifier *)

(** [determineBestBackupLevel], [src/main.go].  The log lines are not part
    of the result and are left out. *)
Definition determineBestBackupLevel (t : Time) : bool * string :=
  let hour := Hour t in
  let min := Minute t in
  if (hour =? 0) && (min =? 0) then (true, "1d")
  else if ((hour =? 0) || (hour =? 12)) && (min =? 0) then (true, "12h")
  else if (hour mod 6 =? 0) && (min =? 0) then (true, "6h")
  else if (hour mod 3 =? 0) && (min =? 0) then (true, "3h")
  else if (min =? 0) || (min =? 30) then (true, "30m")
  else (false, "").

(** The classifier as the specification words it: an ordered table of
    match rules, coarsest first, and the first rule that matches wins. *)
Definition level_rules : list (string * (Z -> Z -> bool)) :=
  [ ("1d",  fun h m => (h =? 0) && (m =? 0));
    ("12h", fun h m => ((h =? 0) || (h =? 12)) && (m =? 0));
    ("6h",  fun h m => (h mod 6 =? 0) && (m =? 0));
    ("3h",  fun h m => (h mod 3 =? 0) && (m =? 0));
    ("30m", fun h m => (m =? 0) || (m =? 30)) ].

Fixpoint first_match (rules : list (string * (Z -> Z -> bool))) (h m : Z)
  : bool * string :=
  match rules with
  | [] => (false, "")
  | (lvl, rule) :: rest => if rule h m then (true, lvl) else first_match rest h m
  end.

Definition classify_spec (h m : Z) : bool * string := first_match level_rules h m.

(** ** Strings: suffix test and sorting *)

(** [strings.HasSuffix(s, suffix)]:
    [len(s) >= len(suffix) && s[len(s)-len(suffix):] == suffix]. *)
Definition HasSuffix (s suffix : string) : bool :=
  (String.length suffix <=? String.length s)%nat
  && String.eqb
       (substring (String.length s - String.length suffix)
                  (String.length suffix) s)
       suffix.

(** Go compares strings byte by byte; so does [String.leb]. *)
Definition str_le (a b : string) : Prop := String.leb a b = true.

Global Instance str_le_dec a b : Decision (str_le a b).
Proof. unfold str_le. apply _. Defined.

(** [sort.Strings]. *)
Definition sort_Strings (names : list string) : list string :=
  merge_sort str_le names.

(** ** The operating system, as far as the scheduling core uses it *)

Module OS.

(** [filepath.Join(dir, name)] for an entry [name] of the directory [dir]. *)
Record Path := Join { p_dir : string; p_name : string }.

(** The calls the core makes, in the order it makes them. *)
Inductive Op :=
| OpMkdirAll (dir : string)
| OpReadDir (dir : string)
| OpStat (p : Path)
| OpRename (src dst : Path)
| OpRemove (p : Path)
| OpReadFile (path : string)
| OpWriteFile (path : string).

(** Go [error] values; a nil error is [None] of [option error].
    [Errorf e] is [fmt.Errorf("...: %v", e)], a new error that only carries
    the text of [e]. *)
Inductive error :=
| ErrNotExist
| ErrNotEmpty
| ErrSyntax
| ErrUnsupportedValue
| Errorf (cause : error).

(** [os.IsNotExist(err)], with [None] for a nil error. *)
Definition IsNotExist (err : option error) : bool :=
  match err with Some ErrNotExist => true | _ => false end.

(** The state of the machine:
    - [dirs]: the directories that exist, each with its entries (name and
      content).  Tier directories hold regular files and are not nested in
      one another; there is no directory at the empty path, which
      [os.MkdirAll] refuses to create.
    - [files]: the regular files addressed by a whole path (the ledger,
      and the files of a run: the serial number, the lock, the logs and
      the image).
    - [trace]: the calls made so far, most recent first. *)
Record World := mkWorld {
  dirs : gmap string (gmap string string);
  files : gmap string string;
  trace : list Op
}.

Definition log (op : Op) (w : World) : World :=
  mkWorld (dirs w) (files w) (op :: trace w).

Definition set_dirs (ds : gmap string (gmap string string)) (w : World) : World :=
  mkWorld ds (files w) (trace w).

Definition set_files (fs : gmap string string) (w : World) : World :=
  mkWorld (dirs w) fs (trace w).

(** A computation either returns a value or panics; both leave a world. *)
Inductive Outcome (A : Type) :=
| Returned (a : A) (w : World)
| Panicked (w : World).
Global Arguments Returned {A} a w.
Global Arguments Panicked {A} w.

Definition world_of {A} (o : Outcome A) : World :=
  match o with Returned _ w => w | Panicked w => w end.

Definition M (A : Type) : Type := World -> Outcome A.

Global Instance M_ret : MRet M := fun A a w => Returned a w.
Global Instance M_bind : MBind M := fun A B f m w =>
  match m w with
  | Returned a w' => f a w'
  | Panicked w' => Panicked w'
  end.

Definition panic {A} : M A := fun w => Panicked w.

(** [os.MkdirAll(dir, 0755)]: fails on the empty path, keeps a directory
    that exists, creates an empty one otherwise. *)
Definition MkdirAll (dir : string) : M (option error) := fun w =>
  let w := log (OpMkdirAll dir) w in
  if decide (dir = "") then Returned (Some ErrNotExist) w
  else match dirs w !! dir with
       | Some _ => Returned None w
       | None => Returned None (set_dirs (<[dir := ∅]> (dirs w)) w)
       end.

(** The names of the entries of a directory, sorted by name. *)
Definition dir_names (d : gmap string string) : list string :=
  sort_Strings (map fst (map_to_list d)).

(** [os.ReadDir(dir)], of whose entries the core uses the names only. *)
Definition ReadDir (dir : string) : M (list string * option error) := fun w =>
  let w := log (OpReadDir dir) w in
  match dirs w !! dir with
  | Some d => Returned (dir_names d, None) w
  | None => Returned ([], Some ErrNotExist) w
  end.

Definition entry (p : Path) (w : World) : option string :=
  dirs w !! p_dir p ≫= fun d => d !! p_name p.

(** [os.Stat(p)], of which the core uses the error only. *)
Definition Stat (p : Path) : M (option error) := fun w =>
  let w := log (OpStat p) w in
  match entry p w with
  | Some _ => Returned None w
  | None => Returned (Some ErrNotExist) w
  end.

(** [os.Remove(p)]. *)
Definition Remove (p : Path) : M (option error) := fun w =>
  let w := log (OpRemove p) w in
  match entry p w with
  | Some _ =>
      Returned None (set_dirs (alter (delete (p_name p)) (p_dir p) (dirs w)) w)
  | None => Returned (Some ErrNotExist) w
  end.

(** [os.Remove(filepath.Join(dir, ""))]: [filepath.Join] leaves an empty
    element out, so the path is that of the directory itself, which
    [os.Remove] removes when it is empty and refuses otherwise. *)
Definition Remove_dir (dir : string) : M (option error) := fun w =>
  let w := log (OpRemove (Join dir "")) w in
  match dirs w !! dir with
  | Some d =>
      if decide (d = ∅) then Returned None (set_dirs (delete dir (dirs w)) w)
      else Returned (Some ErrNotEmpty) w
  | None => Returned (Some ErrNotExist) w
  end.

(** [os.Rename(src, dst)]: the entry leaves its directory and appears, with
    its content, under the new name in the destination directory, which has
    to exist. *)
Definition Rename (src dst : Path) : M (option error) := fun w =>
  let w := log (OpRename src dst) w in
  match entry src w, dirs w !! p_dir dst with
  | Some c, Some _ =>
      Returned None
        (set_dirs (alter (insert (p_name dst) c) (p_dir dst)
                     (alter (delete (p_name src)) (p_dir src) (dirs w))) w)
  | _, _ => Returned (Some ErrNotExist) w
  end.

(** [os.ReadFile(path)]. *)
Definition ReadFile (path : string) : M (string * option error) := fun w =>
  let w := log (OpReadFile path) w in
  match files w !! path with
  | Some data => Returned (data, None) w
  | None => Returned ("", Some ErrNotExist) w
  end.

(** [os.WriteFile(path, data, 0644)]: creates the file or replaces its
    content. *)
Definition WriteFile (path data : string) : M (option error) := fun w =>
  let w := log (OpWriteFile path) w in
  Returned None (set_files (<[path := data]> (files w)) w).

End OS.
Export OS.

(** ** Configuration and ledger record *)

(** The fields of [BackupConfig] the scheduling core reads.  A Go map read
    at a missing key gives the zero value, hence the [default]s below. *)
Record BackupConfig := mkConfig {
  DryRun : bool;
  KeepVersions : gmap string Z;
  BackupDirs : gmap string string;
  LastExecutionFile : string
}.

Definition keep_of (cfg : BackupConfig) (level : string) : Z :=
  default 0 (KeepVersions cfg !! level).

Definition dir_of (cfg : BackupConfig) (level : string) : string :=
  default "" (BackupDirs cfg !! level).

(** [LastExecutionRecord]; [None] is Go's nil map. *)
Record LastExecutionRecord := mkRecord {
  LastExecutions : option (gmap string Time)
}.

(** [record.LastExecutions[level]] with the comma-ok form: a nil map reads
    as an empty one. *)
Definition last_execution (r : LastExecutionRecord) (level : string) : option Time :=
  LastExecutions r ≫= fun m => m !! level.

(** The library functions the ledger calls: [filepath.Dir] and the JSON
    codec of [encoding/json] at type [LastExecutionRecord]. *)
Class GoLib := {
  filepath_Dir : string -> string;
  json_MarshalIndent : LastExecutionRecord -> string + error;
  json_Unmarshal : string -> LastExecutionRecord + error
}.

(** Two records hold the same timestamps: the same levels, and at each level
    the same instant to the nanosecond ([time.Time.Equal]). *)
Definition same_timestamps (r1 r2 : LastExecutionRecord) : Prop :=
  forall level,
    match last_execution r1 level, last_execution r2 level with
    | Some t1, Some t2 => Equal t1 t2 = true
    | None, None => True
    | _, _ => False
    end.

(** A level name of ASCII bytes only, as those of the program are.  A
    name that is not valid UTF-8 is not read back as it was written. *)
Definition plain (name : string) : bool :=
  forallb (fun c => (N_of_ascii c <? 128)%N) (list_ascii_of_string name).

Definition plain_levels (r : LastExecutionRecord) : Prop :=
  forall level t, last_execution r level = Some t -> plain level = true.

(** The record that the text of a record stands for: every time as RFC
    3339 has it. *)
Definition written (r : LastExecutionRecord) : LastExecutionRecord :=
  mkRecord (match LastExecutions r with
            | Some m => Some (RFC3339 <$> m)
            | None => None
            end).

(** What the ledger relies on.  Decoding the text of a record with plain
    level names gives the record that the text stands for, with the times
    as RFC 3339 has them; a time that has been decoded has a zone offset
    of whole minutes; and [filepath.Dir] never returns the empty path. *)
Class GoLibLaws `{GoLib} := {
  json_roundtrip : forall r data,
    plain_levels r -> json_MarshalIndent r = inl data ->
    exists r', json_Unmarshal data = inl r' /\ same_timestamps (written r) r';
  json_Unmarshal_zone : forall data r level t,
    json_Unmarshal data = inl r -> last_execution r level = Some t ->
    zone t mod 60 = 0;
  filepath_Dir_nonempty : forall p, filepath_Dir p <> ""
}.

(** ** Execution ledger and scheduling decision *)

Section Ledger.
Context `{GoLib}.

(** [loadLastExecutionRecord], [src/main.go]. *)
Definition loadLastExecutionRecord (filePath : string)
  : M (option LastExecutionRecord * option error) :=
  '(data, err) ← ReadFile filePath;
  match err with
  | Some e => mret (None, Some e)
  | None =>
      match json_Unmarshal data with
      | inr e => mret (None, Some e)
      | inl record =>
          let record :=
            match LastExecutions record with
            | None => mkRecord (Some ∅)
            | Some _ => record
            end in
          mret (Some record, None)
      end
  end.

(** [saveLastExecutionRecord], [src/main.go]. *)
Definition saveLastExecutionRecord (filePath : string) (record : LastExecutionRecord)
  : M (option error) :=
  err ← MkdirAll (filepath_Dir filePath);
  match err with
  | Some e => mret (Some e)
  | None =>
      match json_MarshalIndent record with
      | inr e => mret (Some e)
      | inl data => WriteFile filePath data
      end
  end.

(** [shouldExecuteBackup], [src/main.go]. *)
Definition shouldExecuteBackup (cfg : BackupConfig) (currentTime : Time)
  : M (bool * string * option error) :=
  let '(shouldBackup, level) := determineBestBackupLevel currentTime in
  if negb shouldBackup then mret (false, "", None)
  else if negb (String.eqb (LastExecutionFile cfg) "") then
    '(lastRecord, err) ← loadLastExecutionRecord (LastExecutionFile cfg);
    match err with
    | Some e =>
        if negb (IsNotExist err) then mret (false, "", Some (Errorf e))
        else mret (true, level, None)
    | None =>
        match lastRecord with
        | None => mret (true, level, None)
        | Some record =>
            match last_execution record level with
            | None => mret (true, level, None)
            | Some lastExecution =>
                if IsZero lastExecution then mret (true, level, None)
                else
                  let currentMinute := Truncate currentTime Minute_d in
                  let lastMinute := Truncate lastExecution Minute_d in
                  if Equal currentMinute lastMinute then mret (false, "", None)
                  else mret (true, level, None)
            end
        end
    end
  else mret (true, level, None).

(** [recordLastExecution], [src/main.go].  Writing to a nil map panics. *)
Definition recordLastExecution (cfg : BackupConfig) (level : string)
    (executionTime : Time) : M (option error) :=
  if String.eqb (LastExecutionFile cfg) "" then mret None
  else
    '(record, err) ← loadLastExecutionRecord (LastExecutionFile cfg);
    if match err with Some _ => negb (IsNotExist err) | None => false end
    then mret err
    else
      let record := default (mkRecord (Some ∅)) record in
      match LastExecutions record with
      | None => panic
      | Some m =>
          saveLastExecutionRecord (LastExecutionFile cfg)
            (mkRecord (Some (<[level := executionTime]> m)))
      end.

(** What [loadLastExecutionRecord] returns, case by case: the table
    against which the function is checked in [loadLastExecutionRecord_eq]. *)
Definition load_result (path : string) (w : World)
  : option LastExecutionRecord * option error :=
  match files w !! path with
  | None => (None, Some ErrNotExist)
  | Some data =>
      match json_Unmarshal data with
      | inr e => (None, Some e)
      | inl record =>
          (Some match LastExecutions record with
                | None => mkRecord (Some ∅)
                | Some _ => record
                end, None)
      end
  end.

(** A run of [recordLastExecution] calls, one per executed backup. *)
Fixpoint record_all (cfg : BackupConfig) (runs : list (string * Time)) : M unit :=
  match runs with
  | [] => mret tt
  | (level, t) :: rest =>
      _ ← recordLastExecution cfg level t; record_all cfg rest
  end.

End Ledger.

(** ** Retention rotator and tier promoter *)

(** The listing loop shared by the rotator and the promoter: keep the
    entries whose name ends in [.vhdx], then [sort.Strings]. *)
Definition vhdx_names (entries : list string) : list string :=
  sort_Strings (filter (fun name => HasSuffix name ".vhdx") entries).

(** The artifacts of a directory: the names that end in [.vhdx], oldest
    (smallest) first. *)
Definition artifacts (d : gmap string string) : list string :=
  vhdx_names (dir_names d).

(** The content of the directory at [dir], empty when there is none. *)
Definition tier_dir (w : World) (dir : string) : gmap string string :=
  default ∅ (dirs w !! dir).

(** The runtime, as far as the rotator depends on it: [append_cap n] is
    the capacity that [append] has given a slice of strings grown from nil
    by [n] calls, one element each.  It differs between versions of Go. *)
Class GoRuntime := {
  append_cap : nat -> nat
}.

(** [cap(names)] after the listing loop: a slice that nothing was appended
    to is nil, with capacity 0. *)
Definition cap_of `{GoRuntime} (names : list string) : nat :=
  match names with
  | [] => 0%nat
  | _ => append_cap (length names)
  end.

(** [names[:n]] for a slice of capacity [cap].  Go panics when [n] is
    negative or exceeds the capacity; from [len(names)] up to the capacity
    the slice shows the elements that [append] has left there, which are
    zero values, empty strings. *)
Definition slice_to (names : list string) (cap : nat) (n : Z)
  : option (list string) :=
  if (0 <=? n) && (n <=? Z.of_nat (length names))
  then Some (take (Z.to_nat n) names)
  else if (0 <=? n) && (n <=? Z.of_nat cap)
  then Some (names ++ replicate (Z.to_nat n - length names) "")
  else None.

(** [for _, old := range olds { os.Remove(filepath.Join(dir, old)) }];
    for an empty [old] the path joined is the directory. *)
Fixpoint remove_each (dir : string) (olds : list string) : M unit :=
  match olds with
  | [] => mret tt
  | old :: rest =>
      _ ← (if decide (old = "") then Remove_dir dir else Remove (Join dir old));
      remove_each dir rest
  end.

(** [rotateBackupsWithPromotion], [src/main.go]. *)
Definition rotateBackupsWithPromotion `{GoRuntime} (cfg : BackupConfig)
    (level : string) (dryRun : bool) : M (option error) :=
  let dir := dir_of cfg level in
  let keep := keep_of cfg level in
  err ← MkdirAll dir;
  match err with
  | Some e => mret (Some e)
  | None =>
      '(entries, err) ← ReadDir dir;
      match err with
      | Some e => mret (Some e)
      | None =>
          let names := vhdx_names entries in
          if Z.of_nat (length names) >? keep then
            if dryRun then mret None
            else
              match slice_to names (cap_of names)
                      (Z.of_nat (length names) - keep) with
              | None => panic
              | Some olds => _ ← remove_each dir olds; mret None
              end
          else mret None
      end
  end.

(** The body of the promotion loop for the pair [(cur, next)].  The two
    copies of [promoteBackup] differ in one operator only, the comparison
    [over] of [len(names)] with the keep count. *)
Definition promote_pair (over : Z -> Z -> bool) (cfg : BackupConfig)
    (dryRun : bool) (cur next : string) : M unit :=
  let curDir := dir_of cfg cur in
  let nextDir := dir_of cfg next in
  err ← (if dryRun then mret None else MkdirAll nextDir);
  match err with
  | Some _ => mret tt
  | None =>
      '(entries, err) ← ReadDir curDir;
      match err with
      | Some _ => mret tt
      | None =>
          let names := vhdx_names entries in
          if over (Z.of_nat (length names)) (keep_of cfg cur) then
            match names with
            | [] => panic
            | old :: _ =>
                if dryRun then mret tt
                else
                  let src := Join curDir old in
                  let dst := Join nextDir old in
                  err ← Stat dst;
                  if IsNotExist err then _ ← Rename src dst; mret tt
                  else _ ← Remove src; mret tt
            end
          else mret tt
      end
  end.

(** The world in which a live promotion step decides: the destination
    directory has been made sure of and the source directory has been
    read. *)
Definition examined (cfg : BackupConfig) (cur next : string) (w : World) : World :=
  mkWorld (<[dir_of cfg next := tier_dir w (dir_of cfg next)]> (dirs w)) (files w)
    (OpReadDir (dir_of cfg cur) :: OpMkdirAll (dir_of cfg next) :: trace w).

(** [for i := 0; i < len(levels)-1; i++ { ... levels[i], levels[i+1] ... }] *)
Fixpoint promote_loop (over : Z -> Z -> bool) (cfg : BackupConfig)
    (dryRun : bool) (lvls : list string) : M unit :=
  match lvls with
  | cur :: ((next :: _) as rest) =>
      _ ← promote_pair over cfg dryRun cur next;
      promote_loop over cfg dryRun rest
  | _ => mret tt
  end.

(** [promoteBackup], [src/main.go]: [len(names) > cfg.KeepVersions[levels[i]]]. *)
Definition promoteBackup := promote_loop Z.gtb.

(** [promoteBackup], [src/unnamed/part_001]:
    [len(names) >= cfg.KeepVersions[levels[i]]]. *)
Definition promoteBackup_part_001 := promote_loop Z.geb.

(** [levels := []string{"30m", "3h", "6h", "12h", "1d"}] of [runBackup]. *)
Definition levels : list string := ["30m"; "3h"; "6h"; "12h"; "1d"].

(** [for _, lvl := range levels { rotateBackupsWithPromotion(cfg, lvl,
    cfg.DryRun) }]: a rotation error is logged and the loop goes on. *)
Fixpoint rotate_loop `{GoRuntime} (cfg : BackupConfig) (lvls : list string)
  : M unit :=
  match lvls with
  | [] => mret tt
  | lvl :: rest =>
      _ ← rotateBackupsWithPromotion cfg lvl (DryRun cfg);
      rotate_loop cfg rest
  end.

(** The rotation block of [runBackup], [src/main.go]: promotion over the
    whole chain first, then rotation level by level. *)
Definition runBackup_rotation `{GoRuntime} (cfg : BackupConfig) : M unit :=
  _ ← promoteBackup cfg (DryRun cfg) levels;
  rotate_loop cfg levels.

(** ** A library instance to run the ledger on

    The theorems about the ledger hold for every library that satisfies
    [GoLibLaws].  The instance below is one such library, small enough to
    evaluate.  It stands in for [encoding/json] with a text of its own: a
    record is written as the binary numeral of its code, not as JSON; but
    the times in it are written as [encoding/json] writes them, in the
    form of RFC 3339, and a text whose times have an offset with seconds
    is not read.  [filepath.Dir] cuts the path at its last slash. *)

Module DemoLib.

Global Instance Time_eq_dec : EqDecision Time.
Proof. solve_decision. Defined.

Global Instance Time_countable : Countable Time :=
  inj_countable' (fun t => (abs_ns t, zone t)) (fun p => mkTime p.1 p.2)
    (fun t => match t with mkTime _ _ => eq_refl end).

Global Instance LastExecutionRecord_eq_dec : EqDecision LastExecutionRecord.
Proof. solve_decision. Defined.

Global Instance LastExecutionRecord_countable : Countable LastExecutionRecord :=
  inj_countable' LastExecutions mkRecord
    (fun r => match r with mkRecord _ => eq_refl end).

Fixpoint numeral (p : positive) : string :=
  match p with
  | xH => ""
  | xO q => String "0" (numeral q)
  | xI q => String "1" (numeral q)
  end.

Fixpoint of_numeral (s : string) : option positive :=
  match s with
  | "" => Some xH
  | String c rest =>
      q ← of_numeral rest;
      if Ascii.eqb c "0" then Some (xO q)
      else if Ascii.eqb c "1" then Some (xI q)
      else None
  end.

(** The part of [path] before its last slash, if it has a slash. *)
Fixpoint before_last_slash (path : string) : option string :=
  match path with
  | "" => None
  | String c rest =>
      match before_last_slash rest with
      | Some d => Some (String c d)
      | None => if Ascii.eqb c "/" then Some "" else None
      end
  end.

Definition Dir (path : string) : string :=
  match before_last_slash path with
  | None => "."
  | Some "" => "/"
  | Some d => d
  end.

Definition Marshal (r : LastExecutionRecord) : string + error :=
  inl (numeral (encode (written r))).

(** Every time of the record has a zone offset of whole minutes. *)
Definition whole_minutes (r : LastExecutionRecord) : bool :=
  bool_decide
    (map_Forall (fun _ t => zone t mod 60 = 0) (default ∅ (LastExecutions r))).

Definition Unmarshal (data : string) : LastExecutionRecord + error :=
  match of_numeral data ≫= decode with
  | Some r => if whole_minutes r then inl r else inr ErrSyntax
  | None => inr ErrSyntax
  end.

Global Instance lib : GoLib := {|
  filepath_Dir := Dir;
  json_MarshalIndent := Marshal;
  json_Unmarshal := Unmarshal
|}.

End DemoLib.

(** ** Concrete machines

    The timestamps, configurations and directory contents on which the
    theorems are exercised; the timestamps are those of the repository's
    tests (2025-07-01, local zone UTC+9). *)

Module Examples.

Definition ledger_path : string := "state/last_execution.json".

Definition cfg_ledger : BackupConfig := mkConfig true ∅ ∅ ledger_path.
Definition cfg_no_ledger : BackupConfig := mkConfig true ∅ ∅ "".

Definition t_09_30_00 : Time := date_2025_07_01 9 30 0 32400.
Definition t_09_30_15 : Time := date_2025_07_01 9 30 15 32400.
Definition t_09_30_45 : Time := date_2025_07_01 9 30 45 32400.
Definition t_10_00_00 : Time := date_2025_07_01 10 0 0 32400.

Definition w_empty : World := mkWorld ∅ ∅ [].

(** A runtime that doubles the capacity of a slice when it is full, as
    the runtime of Go does for short slices: the capacity after [n]
    appends is the least power of two that is not below [n]. *)
Fixpoint doubled (fuel : nat) (cap n : nat) : nat :=
  match fuel with
  | O => cap
  | S fuel => if (n <=? cap)%nat then cap else doubled fuel (2 * cap) n
  end.

Global Instance runtime : GoRuntime := {|
  append_cap n := doubled n 1 n
|}.

Definition recorded : LastExecutionRecord :=
  mkRecord (Some {[ "30m" := t_09_30_00 ]}).

(** 01:30:05 in a zone four hours west of UTC, and 01:30:20 one hour
    later, after the clocks have been set back to five hours west. *)
Definition t_01_30_05_west4 : Time := date_2025_07_01 1 30 5 (-14400).
Definition t_01_30_20_west5 : Time := date_2025_07_01 1 30 20 (-18000).

(** 09:30:00 in a zone 9 hours, 18 minutes and 59 seconds east of UTC. *)
Definition t_09_30_00_east_09_18_59 : Time := date_2025_07_01 9 30 0 33539.

Definition recorded_east_09_18_59 : LastExecutionRecord :=
  mkRecord (Some {[ "30m" := t_09_30_00_east_09_18_59 ]}).

(** The machine after the execution of 09:30:00 has been recorded. *)
Definition w_recorded : World :=
  world_of (@recordLastExecution DemoLib.lib cfg_ledger "30m" t_09_30_00 w_empty).

(** The machine after the execution of 01:30:05, four hours west, has
    been recorded. *)
Definition w_recorded_west4 : World :=
  world_of (@recordLastExecution DemoLib.lib cfg_ledger "30m" t_01_30_05_west4
              w_empty).

(** Five tiers, two artifacts kept in the finest. *)
Definition cfg_tiers : BackupConfig :=
  mkConfig false
    {[ "30m" := 2; "3h" := 2; "6h" := 2; "12h" := 2; "1d" := 5 ]}
    {[ "30m" := "backup/30m"; "3h" := "backup/3h"; "6h" := "backup/6h";
       "12h" := "backup/12h"; "1d" := "backup/1d" ]}
    "".

(** The finest tier holds exactly its keep count, and a file that is not
    an artifact. *)
Definition d_at_keep : gmap string string :=
  {[ "000001_20250701_0900.vhdx" := "image 1";
     "000002_20250701_0930.vhdx" := "image 2";
     "notes.txt" := "not a backup" ]}.

Definition w_at_keep : World := mkWorld {[ "backup/30m" := d_at_keep ]} ∅ [].

(** The finest tier holds one artifact more than its keep count. *)
Definition d_over_keep : gmap string string :=
  <[ "000003_20250701_1000.vhdx" := "image 3" ]> d_at_keep.

Definition w_over_keep : World := mkWorld {[ "backup/30m" := d_over_keep ]} ∅ [].

End Examples.

(** ** Relations between the world before and after a computation *)

(** The entries selected by [P] (a directory and a name) are the same in
    [w'] as in [w]: none created, none removed, none rewritten. *)
Definition untouched (P : string -> string -> Prop) (w w' : World) : Prop :=
  forall dir name, P dir name -> tier_dir w' dir !! name = tier_dir w dir !! name.

(** [P] selects no artifact name in the directory [dir]. *)
Definition spares (P : string -> string -> Prop) (dir : string) : Prop :=
  forall name, HasSuffix name ".vhdx" = true -> ~ P dir name.

(** [w'] has the directories of [w] with the same content, and possibly
    new empty ones. *)
Definition same_tiers (w w' : World) : Prop :=
  forall dir, tier_dir w' dir = tier_dir w dir.

(** The calls made from [w] to [w']. *)
Definition trace_extends (w w' : World) : Prop :=
  exists calls, trace w' = calls ++ trace w.

(** A computation keeps the relation [R] between the world it starts from
    and the world it leaves, whether it returns or panics. *)
Definition preserves {A} (R : relation World) (m : M A) : Prop :=
  forall w, R w (world_of (m w)).

(** Every entry of the directory [dir] in [w] is still there, with its
    content, in [w']. *)
Definition retained (dir : string) (w w' : World) : Prop :=
  forall name c, tier_dir w dir !! name = Some c -> tier_dir w' dir !! name = Some c.

(** ** What a promotion step can do

    The two outcomes of a live promotion step for the pair [(cur, next)]
    started in [w], where the source directory holds [d]. *)

(** Nothing is promoted: the step only makes sure of the destination
    directory and reads the source directory. *)
Definition promotes_nothing (over : Z -> Z -> bool) (cfg : BackupConfig)
    (cur next : string) (w : World) : Prop :=
  promote_pair over cfg false cur next w = Returned tt (examined cfg cur next w).

(** The single oldest artifact [old], first of the listing, leaves the
    source directory, and nothing else changes there or in a third
    directory.  It is renamed into the destination directory, unless an
    entry of its name is already there, in which case it is removed. *)
Definition promotes_oldest (over : Z -> Z -> bool) (cfg : BackupConfig)
    (cur next : string) (w : World) (d : gmap string string) : Prop :=
  let curDir := dir_of cfg cur in
  let nextDir := dir_of cfg next in
  exists old rest c w',
    artifacts d = old :: rest
    /\ d !! old = Some c
    /\ Forall (fun other => str_le old other /\ old <> other) rest
    /\ promote_pair over cfg false cur next w = Returned tt w'
    /\ tier_dir w' curDir = delete old d
    /\ artifacts (tier_dir w' curDir) = rest
    /\ (forall dir, dir <> curDir -> dir <> nextDir -> dirs w' !! dir = dirs w !! dir)
    /\ files w' = files w
    /\ match tier_dir w nextDir !! old with
       | None =>
           tier_dir w' nextDir = <[old := c]> (tier_dir w nextDir)
           /\ trace w'
              = OpRename (Join curDir old) (Join nextDir old)
                :: OpStat (Join nextDir old)
                :: OpReadDir curDir :: OpMkdirAll nextDir :: trace w
       | Some _ =>
           tier_dir w' nextDir = tier_dir w nextDir
           /\ trace w'
              = OpRemove (Join curDir old)
                :: OpStat (Join nextDir old)
                :: OpReadDir curDir :: OpMkdirAll nextDir :: trace w
       end.

(** Along the run of the promoter of [src/main.go] over a chain of
    levels, no pair is examined while the source tier holds exactly its
    keep count. *)
Fixpoint never_at_keep (cfg : BackupConfig) (dryRun : bool)
    (lvls : list string) (w : World) : Prop :=
  match lvls with
  | cur :: ((next :: _) as rest) =>
      dir_of cfg cur <> dir_of cfg next
      /\ (dirs w !! dir_of cfg cur = None
          \/ Z.of_nat (length (artifacts (tier_dir w (dir_of cfg cur))))
             <> keep_of cfg cur)
      /\ never_at_keep cfg dryRun rest
           (world_of (promote_pair Z.gtb cfg dryRun cur next w))
  | _ => True
  end.

(** ** Copy methods *)

(** [defaultMethods] of [ensureAllCopyMethods]. *)
Definition defaultMethods : list string :=
  ["robocopy"; "xcopy"; "copy-item"; "native"].

(** [ensureAllCopyMethods], [src/main.go].  [existing] is a Go map read
    with its zero value, [false], at a missing key; [append] adds at the
    end. *)
Definition ensureAllCopyMethods (priority : list string) : list string :=
  let existing : gmap string bool :=
    foldl (fun existing method => <[method := true]> existing) ∅ priority in
  foldl (fun result method =>
           if negb (default false (existing !! method))
           then result ++ [method] else result)
        priority defaultMethods.

(** [isCommandAvailable], [src/main.go].  [LookPath] is [exec.LookPath] on
    the machine at hand, of which only the error is used. *)
Definition isCommandAvailable (LookPath : string -> option error)
    (command : string) : bool :=
  if String.eqb command "robocopy" then
    match LookPath "robocopy" with None => true | Some _ => false end
  else if String.eqb command "xcopy" then
    match LookPath "xcopy" with None => true | Some _ => false end
  else if String.eqb command "copy-item" then
    match LookPath "powershell" with None => true | Some _ => false end
  else if String.eqb command "native" then true
  else false.

(** ** Decimal numbers: [strconv.Atoi] and the verb [%d] of [fmt]

    Go's [int] is taken at 64 bits, its width on the platforms the program
    is built for. *)

Module Strconv.

Definition MaxInt : Z := 9223372036854775807.
Definition MinInt : Z := -9223372036854775808.
Definition MaxUint64 : Z := 18446744073709551615.

(** Arithmetic on [int] wraps around. *)
Definition wrap_int (z : Z) : Z := (z + 2 ^ 63) mod 2 ^ 64 - 2 ^ 63.

(** [strconv.ErrSyntax] and [strconv.ErrRange]. *)
Inductive NumError := ErrSyntax | ErrRange.

(** The value of a byte in ['0'..'9']. *)
Definition digit_val (c : ascii) : option Z :=
  let n := Z.of_N (N_of_ascii c) in
  if (48 <=? n) && (n <=? 57) then Some (n - 48) else None.

(** [byte('0' + d)]. *)
Definition digit (d : Z) : ascii := ascii_of_N (Z.to_N (48 + d)).

(** The loop of [strconv.ParseUint(s, 10, 64)] from the value [n] on: a
    byte that is no digit is a syntax error with value 0; a value beyond 64
    bits is a range error with the largest value, and the bytes after it
    are not looked at. *)
Fixpoint ParseUint_loop (s : string) (n : Z) : Z * option NumError :=
  match s with
  | "" => (n, None)
  | String c rest =>
      match digit_val c with
      | None => (0, Some ErrSyntax)
      | Some d =>
          if MaxUint64 / 10 + 1 <=? n then (MaxUint64, Some ErrRange)
          else
            let n1 := n * 10 + d in
            if MaxUint64 <? n1 then (MaxUint64, Some ErrRange)
            else ParseUint_loop rest n1
      end
  end.

(** The number that a string of digits denotes after the digits of [n]:
    what the loop computes while the value fits 64 bits. *)
Fixpoint decimal_value (s : string) (n : Z) : option Z :=
  match s with
  | "" => Some n
  | String c rest =>
      match digit_val c with
      | Some d => decimal_value rest (n * 10 + d)
      | None => None
      end
  end.

Definition ParseUint (s : string) : Z * option NumError :=
  if String.eqb s "" then (0, Some ErrSyntax) else ParseUint_loop s 0.

(** [strconv.Atoi(s)], which is [strconv.ParseInt(s, 10, 0)]: an optional
    sign, then [ParseUint]; a value out of the range of [int] is a range
    error with the nearest bound. *)
Definition Atoi (s : string) : Z * option NumError :=
  match s with
  | "" => (0, Some ErrSyntax)
  | String c0 rest =>
      let neg := Ascii.eqb c0 "-" in
      let s := if Ascii.eqb c0 "+" || neg then rest else s in
      match ParseUint s with
      | (_, Some ErrSyntax) => (0, Some ErrSyntax)
      | (un, _) =>
          let cutoff := 2 ^ 63 in
          if negb neg && (cutoff <=? un) then (cutoff - 1, Some ErrRange)
          else if neg && (cutoff <? un) then (- cutoff, Some ErrRange)
          else (if neg then - un else un, None)
      end
  end.

(** The decimal digits of [u], written from the right in front of [acc]:
    the loop of [fmt]'s integer formatting.  A 64-bit value has at most 20
    digits. *)
Fixpoint digits_from (fuel : nat) (u : Z) (acc : string) : string :=
  match fuel with
  | O => acc
  | S fuel =>
      if u <? 10 then String (digit u) acc
      else digits_from fuel (u / 10) (String (digit (u mod 10)) acc)
  end.

Definition digits (u : Z) : string := digits_from 20 u "".

Fixpoint zeros (n : nat) (s : string) : string :=
  match n with
  | O => s
  | S n => String "0" (zeros n s)
  end.

(** [fmt.Sprintf("%0<width>d", z)], and [fmt.Sprintf("%d", z)] for a width
    of 0: the digits are padded with zeros up to the width, in which the
    sign of a negative number counts for one. *)
Definition Sprintf_d (width : nat) (z : Z) : string :=
  let negative := z <? 0 in
  let prec := if negative then (width - 1)%nat else width in
  let ds := digits (Z.abs z) in
  let body := zeros (prec - String.length ds) ds in
  if negative then String "-" body else body.

End Strconv.

(** ** The first line of a file: [bufio.Scanner] *)

Definition LF : ascii := ascii_of_nat 10.
Definition CR : ascii := ascii_of_nat 13.

(** The bytes before the first line feed, all of them when there is none. *)
Fixpoint first_line (data : string) : string :=
  match data with
  | "" => ""
  | String c rest => if Ascii.eqb c LF then "" else String c (first_line rest)
  end.

(** [dropCR] of [bufio.ScanLines]: one carriage return at the end goes. *)
Fixpoint dropCR (line : string) : string :=
  match line with
  | "" => ""
  | String c "" => if Ascii.eqb c CR then "" else line
  | String c rest => String c (dropCR rest)
  end.

(** [scanner.Scan()] followed by [scanner.Text()] on a fresh scanner over
    [data]: [None] when [Scan] returns false, which it does at the end of
    the input and on a line that does not fit the 64 KiB buffer. *)
Definition Scan_Text (data : string) : option string :=
  if String.eqb data "" then None
  else
    let line := first_line data in
    if 65536 <=? Z.of_nat (String.length line) then None else Some (dropCR line).

(** ** Serial number of the backup *)

(** [var id int; if scanner.Scan() { id, _ = strconv.Atoi(scanner.Text()) }] *)
Definition scan_id (data : string) : Z :=
  match Scan_Text data with
  | Some text => (Strconv.Atoi text).1
  | None => 0
  end.

(** The serial number that the file at [path] holds, 0 when there is no
    file. *)
Definition last_id (path : string) (w : World) : Z :=
  match files w !! path with
  | Some data => scan_id data
  | None => 0
  end.

(** [os.Open(path)] on a regular file, as far as the content read through
    the handle goes.  Like the other calls on whole paths that follow, it
    is not a call of the scheduling core and leaves the trace alone. *)
Definition Open (path : string) : M (option string * option error) := fun w =>
  match files w !! path with
  | Some data => Returned (Some data, None) w
  | None => Returned (None, Some ErrNotExist) w
  end.

(** The error of [os.OpenFile] with the flag [os.O_CREATE] at [path], if
    any.  No file can be at the empty path; a file that exists is opened;
    where there is none, [create_error path] is the error of creating one,
    as when the directory it would be in is missing.  It is the same
    throughout a run: the files of a run are not kept in a directory that
    the run creates or removes. *)
Definition OpenFile_error (create_error : string -> option error) (path : string)
    (w : World) : option error :=
  if decide (path = "") then Some ErrNotExist
  else
    match files w !! path with
    | Some _ => None
    | None => create_error path
    end.

(** [os.OpenFile(path, os.O_RDWR|os.O_CREATE, 0644)]: a missing file is
    created empty, if it can be. *)
Definition OpenFile_create (create_error : string -> option error) (path : string)
  : M (string * option error) := fun w =>
  match OpenFile_error create_error path w with
  | Some e => Returned ("", Some e) w
  | None =>
      match files w !! path with
      | Some data => Returned (data, None) w
      | None => Returned ("", None) (set_files (<[path := ""]> (files w)) w)
      end
  end.

(** [f.Seek(0, 0); f.Truncate(0); fmt.Fprintf(f, ...)] on the handle of
    [path], and any other write of [data] at the start of an empty file. *)
Definition rewrite_file (path data : string) : M unit := fun w =>
  Returned tt (set_files (<[path := data]> (files w)) w).

(** [getNextIDDryRun], [src/main.go]. *)
Definition getNextIDDryRun (path : string) : M (Z * option error) :=
  '(f, err) ← Open path;
  match f, err with
  | Some data, None =>
      let id := scan_id data in
      mret (Strconv.wrap_int (id + 1), None)
  | _, _ =>
      if IsNotExist err then mret (1, None) else mret (0, err)
  end.

(** [getNextID], [src/main.go]. *)
Definition getNextID (create_error : string -> option error) (path : string)
    (dryRun : bool) : M (Z * option error) :=
  if dryRun then getNextIDDryRun path
  else
    '(data, err) ← OpenFile_create create_error path;
    match err with
    | Some e => mret (0, Some e)
    | None =>
        let id := scan_id data in
        let id := Strconv.wrap_int (id + 1) in
        _ ← rewrite_file path (Strconv.Sprintf_d 6 id ++ String LF "")%string;
        mret (id, None)
    end.

(** The serial numbers of [n] live runs in a row. *)
Fixpoint next_ids (create_error : string -> option error) (path : string)
    (n : nat) : M (list Z) :=
  match n with
  | O => mret []
  | S n =>
      '(id, _) ← getNextID create_error path false;
      ids ← next_ids create_error path n;
      mret (id :: ids)
  end.

(** [fmt.Sprintf("%06d_%s.vhdx", id, timeStamp)] of [runBackup], where
    [timeStamp] is [time.Now().Format("20060102_1504")]. *)
Definition backup_filename (id : Z) (timeStamp : string) : string :=
  (Strconv.Sprintf_d 6 id ++ "_" ++ timeStamp ++ ".vhdx")%string.

(** ** Storing the backup *)

(** [os.Create(p)]: the entry is created empty, or emptied, in a directory
    that has to exist. *)
Definition Create (p : Path) : M (option error) := fun w =>
  match dirs w !! p_dir p with
  | Some _ =>
      Returned None (set_dirs (alter (insert (p_name p) "") (p_dir p) (dirs w)) w)
  | None => Returned (Some ErrNotExist) w
  end.

(** [io.Copy(out, in)] where [out] is the handle of the entry [p], just
    created, and [data] is what is read from [in]. *)
Definition Copy (p : Path) (data : string) : M (option error) := fun w =>
  Returned None (set_dirs (alter (insert (p_name p) data) (p_dir p) (dirs w)) w).

(** [saveBackup], [src/main.go].  The source is a file addressed by its
    whole path; [filename] is a plain entry name.  A handle cannot be nil
    when [os.Open] has returned no error. *)
Definition saveBackup (dstDir filename srcPath : string) (dryRun : bool)
  : M (option error) :=
  if dryRun then mret None
  else
    err ← MkdirAll dstDir;
    match err with
    | Some e => mret (Some e)
    | None =>
        let dstPath := Join dstDir filename in
        '(in_, err) ← Open srcPath;
        match err with
        | Some e => mret (Some e)
        | None =>
            match in_ with
            | None => panic
            | Some data =>
                err ← Create dstPath;
                match err with
                | Some e => mret (Some e)
                | None => Copy dstPath data
                end
            end
        end
    end.

(** ** Lock file *)

(** An open file, as far as [releaseFileLock] uses it: [f.Name()]. *)
Record File := mkFile { Name : string }.

(** The errors of [acquireFileLock]: its own
    [errors.New("ロックファイルが既に存在します")], and those of an exclusive
    [os.OpenFile]: [os.ErrExist], and the error of a file that cannot be
    created. *)
Inductive LockError :=
| ErrLockFileExists
| ErrExist
| ErrOpen (e : error).

(** [os.Stat(path)] on a whole path, of which only the error is used. *)
Definition Stat_file (path : string) : M (option error) := fun w =>
  match files w !! path with
  | Some _ => Returned None w
  | None => Returned (Some ErrNotExist) w
  end.

(** [os.OpenFile(path, os.O_CREATE|os.O_EXCL|os.O_RDWR, 0644)]: the file
    must not exist, and is created empty, if it can be; the empty path
    fails. *)
Definition OpenFile_excl (create_error : string -> option error) (path : string)
  : M (option File * option LockError) := fun w =>
  if decide (path = "") then Returned (None, Some (ErrOpen ErrNotExist)) w
  else
    match files w !! path with
    | Some _ => Returned (None, Some ErrExist) w
    | None =>
        match create_error path with
        | Some e => Returned (None, Some (ErrOpen e)) w
        | None =>
            Returned (Some (mkFile path), None)
              (set_files (<[path := ""]> (files w)) w)
        end
    end.

(** [os.Remove(path)] on a whole path. *)
Definition Remove_file (path : string) : M (option error) := fun w =>
  match files w !! path with
  | Some _ => Returned None (set_files (delete path (files w)) w)
  | None => Returned (Some ErrNotExist) w
  end.

(** [acquireFileLock], [src/main.go]; [pid] is [os.Getpid()]. *)
Definition acquireFileLock (create_error : string -> option error) (pid : Z)
    (path : string) : M (option File * option LockError) :=
  err ← Stat_file path;
  match err with
  | None => mret (None, Some ErrLockFileExists)
  | Some _ =>
      '(f, err) ← OpenFile_excl create_error path;
      match err with
      | Some e => mret (None, Some e)
      | None =>
          _ ← rewrite_file path (Strconv.Sprintf_d 0 pid ++ String LF "")%string;
          mret (f, None)
      end
  end.

(** [releaseFileLock], [src/main.go]. *)
Definition releaseFileLock (f : option File) : M unit :=
  match f with
  | Some f =>
      let lockPath := Name f in
      _ ← Remove_file lockPath; mret tt
  | None => mret tt
  end.

(** [defer cleanup] in front of [body]: the clean-up runs when the body
    has returned, and when it has panicked. *)
Definition defer {A} (cleanup : M unit) (body : M A) : M A := fun w =>
  match body w with
  | Returned a w' =>
      match cleanup w' with
      | Returned _ w'' => Returned a w''
      | Panicked w'' => Panicked w''
      end
  | Panicked w' => Panicked (world_of (cleanup w'))
  end.

(** ** A whole run *)

(** [BackupConfig] with the further fields that a run reads. *)
Record RunConfig := mkRunConfig {
  core :> BackupConfig;
  SourceVHDX : string;
  LastIDFile : string;
  PerfLogPath : string;
  LogFile : string;
  EnableLock : bool;
  LockFilePath : string
}.

(** The [NotificationType]s of a run. *)
Inductive Notification :=
| NotifyLockConflict
| NotifyBackupStart
| NotifyBackupEnd.

(** The places at which a run logs.  [LineNotify] stands for the lines of
    [notify] in live mode, those of the toast or the one of the skipped
    notification; [LineID] for the two lines on the serial number;
    [LineRotation], [LineDecision] and [LineRunLevel] for all the lines of
    functions that are modelled without their log, [promoteBackup] with
    the loop of [rotateBackupsWithPromotion], [shouldExecuteBackup] with
    [determineBestBackupLevel], and [runBackupWithLevel]; every other one
    for one call of [log.Printf] or [log.Println]. *)
Inductive Line :=
| LineSwitched
| LineLock
| LineNotify (n : Notification)
| LineID (id : Z)
| LineIDError (e : error)
| LinePlanned (filename : string)
| LineMountError (e : error)
| LineCopyStart
| LineCopyError (e : error)
| LineCopyDone
| LineRotation
| LinePerfError (e : error)
| LineDecision (now : Time)
| LineNotNeeded (now : Time)
| LineLevel (level : string) (now : Time)
| LineRunLevel (level : string)
| LineRecordError (e : error).

(** What a run takes from its surroundings: the process id; the time stamp
    [time.Now().Format("20060102_1504")] of the file name; the line of
    times for the performance log; the bytes that [logBuffer] holds when
    [setupLogOutput] has opened the log file; the text that the logger
    writes at each place, which no statement depends on; the error of
    creating a file at a path where there is none; and the two steps that
    work on the mounted image, [mountVHDX] where it is asked for and
    needed, and [tryCopy], each with the lines it logs. *)
Record Env := mkEnv {
  pid : Z;
  timeStamp : string;
  perfLine : string;
  buffered : string;
  line : Line -> string;
  create_error : string -> option error;
  mount_if_missing : M (option error);
  tryCopy : M (option error)
}.

(** [f.Write(text)] on a file opened at [path] with [os.O_APPEND]. *)
Definition append_file (path text : string) (w : World) : World :=
  set_files (<[path := (default "" (files w !! path) ++ text)%string]> (files w)) w.

(** [log.Printf] in a process whose log file is [logFile], the path at
    which [setupLogOutput] has opened it, or empty when it has opened
    none: the text goes to standard error, which is not part of the
    machine, and to the end of the log file. *)
Definition Printf (env : Env) (logFile : string) (l : Line) : M unit := fun w =>
  if decide (logFile = "") then Returned tt w
  else Returned tt (append_file logFile (line env l) w).

(** [setupLogOutput], [src/main.go], as the machine sees it, in a process
    that has opened no log file before: the file is opened for appending,
    created if need be, and gets what the buffer holds and the line that
    announces the switch. *)
Definition setupLogOutput (env : Env) (cfg : RunConfig) : M (option error) := fun w =>
  if decide (LogFile cfg = "") then Returned None w
  else
    match OpenFile_error (create_error env) (LogFile cfg) w with
    | Some e => Returned (Some (Errorf e)) w
    | None =>
        Returned None
          (append_file (LogFile cfg) (buffered env ++ line env LineSwitched) w)
    end.

(** [notify], [src/main.go]: a dry run prints the message; a live run
    sends the toast, or skips it, and logs either. *)
Definition notify (env : Env) (cfg : RunConfig) (n : Notification) (dryRun : bool)
  : M unit :=
  if dryRun then mret tt else Printf env (LogFile cfg) (LineNotify n).

(** [logPerformance], [src/main.go]: in live mode the line of the times of
    the run is appended to the file at [path], which is opened with
    [os.O_CREATE|os.O_APPEND|os.O_WRONLY]; when the file cannot be opened
    the error is logged and nothing is written. *)
Definition logPerformance (env : Env) (logFile path : string) (dryRun : bool)
  : M unit := fun w =>
  if dryRun then Returned tt w
  else
    match OpenFile_error (create_error env) path w with
    | Some e => Printf env logFile (LinePerfError e) w
    | None => Returned tt (append_file path (perfLine env) w)
    end.

Section RunBackup.
Context `{GoRuntime}.

(** [runBackup], [src/main.go], from the start notification on. *)
Definition runBackup_steps (env : Env) (cfg : RunConfig) : M (option error) :=
  let Printf := Printf env (LogFile cfg) in
  _ ← notify env cfg NotifyBackupStart (DryRun cfg);
  '(id, err) ← getNextID (create_error env) (LastIDFile cfg) (DryRun cfg);
  _ ← Printf (LineID id);
  match err with
  | Some e => _ ← Printf (LineIDError e); mret (Some (Errorf e))
  | None =>
      let filename := backup_filename id (timeStamp env) in
      _ ← Printf (LinePlanned filename);
      err ← mount_if_missing env;
      match err with
      | Some e => _ ← Printf (LineMountError e); mret (Some (Errorf e))
      | None =>
          _ ← (if DryRun cfg then mret tt else Printf LineCopyStart);
          err ← tryCopy env;
          match err with
          | Some e =>
              _ ← (if DryRun cfg then mret tt else Printf (LineCopyError e));
              mret (Some (Errorf e))
          | None =>
              _ ← (if DryRun cfg then mret tt else Printf LineCopyDone);
              _ ← runBackup_rotation cfg;
              _ ← Printf LineRotation;
              err ← saveBackup (dir_of cfg "30m") filename (SourceVHDX cfg)
                      (DryRun cfg);
              match err with
              | Some e => mret (Some (Errorf e))
              | None =>
                  _ ← logPerformance env (LogFile cfg) (PerfLogPath cfg)
                        (DryRun cfg);
                  _ ← notify env cfg NotifyBackupEnd (DryRun cfg);
                  mret None
              end
          end
      end
  end.

(** [runBackup], [src/main.go], once the configuration is loaded: the log
    file, the lock, then the steps. *)
Definition runBackup (env : Env) (cfg : RunConfig) : M (option error) :=
  err ← setupLogOutput env cfg;
  match err with
  | Some e => mret (Some (Errorf e))
  | None =>
      if EnableLock cfg && negb (DryRun cfg) then
        _ ← Printf env (LogFile cfg) LineLock;
        '(lockFile, err) ←
          acquireFileLock (create_error env) (pid env) (LockFilePath cfg);
        match err with
        | Some _ =>
            _ ← notify env cfg NotifyLockConflict (DryRun cfg);
            mret None
        | None => defer (releaseFileLock lockFile) (runBackup_steps env cfg)
        end
      else runBackup_steps env cfg
  end.

End RunBackup.

(** ** One-shot mode and daemon mode *)

(** [runBackupWithLevel], [src/main.go]: two log lines. *)
Definition runBackupWithLevel (cfg : BackupConfig) (level : string)
  : M (option error) :=
  mret None.

Section Modes.
Context `{GoLib}.

(** [runOneShotMode], [src/main.go], once the configuration is loaded;
    [now] is the [time.Now()] taken at its start. *)
Definition runOneShotMode (env : Env) (cfg : RunConfig) (now : Time)
  : M (option error) :=
  let Printf := Printf env (LogFile cfg) in
  err ← setupLogOutput env cfg;
  match err with
  | Some e => mret (Some (Errorf e))
  | None =>
      '(shouldExecute, level, err) ← shouldExecuteBackup cfg now;
      _ ← Printf (LineDecision now);
      match err with
      | Some e => mret (Some (Errorf e))
      | None =>
          if negb shouldExecute then
            _ ← Printf (LineNotNeeded now); mret None
          else
            _ ← Printf (LineLevel level now);
            if DryRun cfg then
              err ← recordLastExecution cfg level now;
              _ ← match err with
                  | Some e => Printf (LineRecordError e)
                  | None => mret tt
                  end;
              mret None
            else
              _ ← Printf (LineRunLevel level);
              err ← runBackupWithLevel cfg level;
              match err with
              | Some e => mret (Some e)
              | None => recordLastExecution cfg level now
              end
      end
  end.

(** The loop of [runDaemonMode], [src/main.go], for the polls at which
    [time.Now()] returns the instants [polls] in turn; the result is the
    list of the levels run, in live mode, most recent first. *)
Fixpoint runDaemonMode_loop (cfg : BackupConfig) (polls : list Time)
    (ran : list string) : M (list string) :=
  match polls with
  | [] => mret ran
  | now :: polls =>
      let '(shouldBackup, level) := determineBestBackupLevel now in
      if shouldBackup then
        if DryRun cfg then runDaemonMode_loop cfg polls ran
        else
          _ ← runBackupWithLevel cfg level;
          runDaemonMode_loop cfg polls (level :: ran)
      else runDaemonMode_loop cfg polls ran
  end.

End Modes.

(** [t.Add(d)]. *)
Definition Add (t : Time) (d : Z) : Time := mkTime (abs_ns t + d) (zone t).

(** The levels that are due at the instants of a list, in order. *)
Definition due_levels (polls : list Time) : list string :=
  omap (fun now =>
          let '(shouldBackup, level) := determineBestBackupLevel now in
          if shouldBackup then Some level else None) polls.

(** The 1440 minutes of the day that begins at [midnight]. *)
Definition minutes_of_day (midnight : Time) : list Time :=
  map (fun k => Add midnight (Z.of_nat k * Minute_d)) (seq 0 1440).

(** ** Further relations between worlds *)

(** Every entry of a directory of [w'] was an entry of some directory of
    [w], under the same name and with the same content. *)
Definition nothing_new (w w' : World) : Prop :=
  forall dir name c,
    tier_dir w' dir !! name = Some c ->
    exists dir', tier_dir w dir' !! name = Some c.

(** The files addressed by a whole path are the same. *)
Definition same_files (w w' : World) : Prop := files w' = files w.

(** A tier holds at most [extra] artifacts more than its keep count. *)
Definition within_keep (cfg : BackupConfig) (extra : Z) (w : World)
    (level : string) : Prop :=
  Z.of_nat (length (artifacts (tier_dir w (dir_of cfg level))))
  <= keep_of cfg level + extra.

(** A configuration that names a directory for each level of a list, all
    different, and no negative keep count. *)
Definition well_formed (cfg : BackupConfig) (lvls : list string) : Prop :=
  Forall (fun lvl => dir_of cfg lvl <> "" /\ 0 <= keep_of cfg lvl) lvls
  /\ NoDup (map (dir_of cfg) lvls).

(** The directories of [w] are still there in [w']. *)
Definition dirs_kept (w w' : World) : Prop :=
  forall dir, is_Some (dirs w !! dir) -> is_Some (dirs w' !! dir).

(** From [w] to [w'] no directory has changed its content and no file
    other than the one at [path] has changed. *)
Definition only_file (path : string) (w w' : World) : Prop :=
  same_tiers w w'
  /\ forall other, other <> path -> files w' !! other = files w !! other.

(** From [w] to [w'] no directory has changed, and no file other than the
    log file at [logFile]; no file at all when there is no log file. *)
Definition only_log (logFile : string) (w w' : World) : Prop :=
  dirs w' = dirs w
  /\ forall path, logFile = "" \/ path <> logFile ->
       files w' !! path = files w !! path.

(** From [w] to [w'] no directory has changed its content, and no file
    other than the ledger and the log file; no file at all when there is
    neither. *)
Definition only_ledger_and_log (cfg : RunConfig) (w w' : World) : Prop :=
  same_tiers w w'
  /\ (forall other,
        other <> LastExecutionFile cfg ->
        LogFile cfg = "" \/ other <> LogFile cfg ->
        files w' !! other = files w !! other)
  /\ (LastExecutionFile cfg = "" -> LogFile cfg = "" -> files w' = files w).

(** The mapping of the record that the ledger at [path] holds, empty when
    there is no ledger or no mapping in it. *)
Definition ledger_map `{GoLib} (path : string) (w : World) : gmap string Time :=
  match load_result path w with
  | (Some record, None) => default ∅ (LastExecutions record)
  | _ => ∅
  end.

(** A machine and the configurations of a whole run on it. *)
Module RunExamples.

Definition cfg_run : RunConfig :=
  mkRunConfig Examples.cfg_tiers "image.vhdx" "last_id.txt" "perf.log"
    "backup.log" false "".

Definition cfg_locked : RunConfig :=
  mkRunConfig Examples.cfg_tiers "image.vhdx" "last_id.txt" "perf.log"
    "backup.log" true "backup.lock".

(** A process with the id 1 whose logger writes [log;] at every place, on
    a machine where every file can be created. *)
Definition env_of (timeStamp perfLine : string)
    (mount_if_missing tryCopy : M (option error)) : Env :=
  mkEnv 1 timeStamp perfLine "start;" (fun _ => "log;") (fun _ => None)
    mount_if_missing tryCopy.

(** A process on a machine where no file can be created. *)
Definition env_read_only : Env :=
  mkEnv 1 "20250701_0930" "" "start;" (fun _ => "log;")
    (fun _ => Some ErrNotExist) (mret None) (mret None).

(** A lock file left behind by process 4711. *)
Definition w_stale_lock : World := mkWorld ∅ {[ "backup.lock" := "4711" ]} [].

(** A copy that leaves the fourth image at the source path. *)
Definition copy_image : M (option error) := fun w =>
  Returned None (set_files (<["image.vhdx" := "image 4"]> (files w)) w).

(** A live configuration with the ledger enabled. *)
Definition cfg_live_ledger : BackupConfig :=
  mkConfig false ∅ ∅ Examples.ledger_path.

(** A ledger that does not parse. *)
Definition w_corrupt : World :=
  mkWorld ∅ {[ Examples.ledger_path := "not a record" ]} [].

(** One-shot mode with the ledger enabled and a log file, as a dry run
    and live. *)
Definition cfg_oneshot_dry : RunConfig :=
  mkRunConfig Examples.cfg_ledger "image.vhdx" "last_id.txt" "perf.log"
    "backup.log" false "".

Definition cfg_oneshot_live : RunConfig :=
  mkRunConfig cfg_live_ledger "image.vhdx" "last_id.txt" "perf.log"
    "backup.log" false "".

Definition env_oneshot : Env := env_of "20250701_0930" "" (mret None) (mret None).

End RunExamples.

(** ** Entries across the tiers *)

(** Some tier of the list holds an entry [name] with content [c]. *)
Definition held (cfg : BackupConfig) (lvls : list string) (w : World)
    (name c : string) : Prop :=
  exists lvl, lvl ∈ lvls /\ tier_dir w (dir_of cfg lvl) !! name = Some c.

(** No name is in the directories of two tiers of the list. *)
Definition names_apart (cfg : BackupConfig) (lvls : list string) (w : World)
  : Prop :=
  forall l1 l2 name,
    l1 ∈ lvls -> l2 ∈ lvls ->
    is_Some (tier_dir w (dir_of cfg l1) !! name) ->
    is_Some (tier_dir w (dir_of cfg l2) !! name) ->
    dir_of cfg l1 = dir_of cfg l2.

(** ** Log output *)

Module Logging.

(** What a [MultiWriter] writes to: [os.Stderr], the [LogBuffer], and the
    file opened at a path. *)
Inductive Writer :=
| Stderr
| Buffer
| LogFile (path : string).

Global Instance Writer_eq_dec : EqDecision Writer.
Proof. solve_decision. Defined.

(** The state of the logging: the bytes written to standard error, the
    bytes in [logBuffer], the writers of [multiWriter], the global
    variable [logfile] (nil, or the file open at a path), and the content
    of the log files on disk. *)
Record Logger := mkLogger {
  stderr : string;
  buffer : string;
  writers : list Writer;
  logfile : option string;
  logs : gmap string string
}.

(** The messages of the logging code itself, and any other. *)
Inductive Message :=
| MsgInit
| MsgNoLogFile
| MsgSetup (path : string)
| MsgOpenError (e : error)
| MsgFlushError
| MsgFlushed (bytes : nat)
| MsgSwitched (path : string)
| MsgClosing
| MsgOther (text : string).

Section Logger.

(** [line msg] is what the standard logger writes for a message: time,
    source position, text and a line feed, in one call of [Write].
    [open_error path] is the error of opening the log file at [path], if
    any. *)
Context (line : Message -> string) (open_error : string -> option error).

(** [LogBuffer.Write]. *)
Definition LogBuffer_Write (p : string) (lg : Logger) : Logger :=
  mkLogger (stderr lg) (buffer lg ++ p)%string (writers lg) (logfile lg) (logs lg).

(** [LogBuffer.GetAndClear]. *)
Definition GetAndClear (lg : Logger) : string * Logger :=
  (buffer lg, mkLogger (stderr lg) "" (writers lg) (logfile lg) (logs lg)).

(** [writer.Write(p)]; the log file is open for appending. *)
Definition Writer_Write (p : string) (lg : Logger) (writer : Writer) : Logger :=
  match writer with
  | Stderr =>
      mkLogger (stderr lg ++ p)%string (buffer lg) (writers lg) (logfile lg) (logs lg)
  | Buffer => LogBuffer_Write p lg
  | LogFile path =>
      mkLogger (stderr lg) (buffer lg) (writers lg) (logfile lg)
        (<[path := (default "" (logs lg !! path) ++ p)%string]> (logs lg))
  end.

(** [MultiWriter.Write]: every writer in turn, errors skipped. *)
Definition MultiWriter_Write (p : string) (lg : Logger) : Logger :=
  foldl (Writer_Write p) lg (writers lg).

(** [MultiWriter.AddWriter]. *)
Definition AddWriter (writer : Writer) (lg : Logger) : Logger :=
  mkLogger (stderr lg) (buffer lg) (writers lg ++ [writer]) (logfile lg) (logs lg).

(** [append(mw.writers[:i], mw.writers[i+1:]...)] at the first [i] with
    [mw.writers[i] == writer]. *)
Fixpoint remove_first (writer : Writer) (ws : list Writer) : list Writer :=
  match ws with
  | [] => []
  | w :: ws => if decide (w = writer) then ws else w :: remove_first writer ws
  end.

(** [MultiWriter.RemoveWriter]. *)
Definition RemoveWriter (writer : Writer) (lg : Logger) : Logger :=
  mkLogger (stderr lg) (buffer lg) (remove_first writer (writers lg))
    (logfile lg) (logs lg).

(** [log.Printf], with [multiWriter] as the output of the logger. *)
Definition Printf (msg : Message) (lg : Logger) : Logger :=
  MultiWriter_Write (line msg) lg.

(** [init], [src/main.go], on a disk with the log files [disk]. *)
Definition init (disk : gmap string string) : Logger :=
  Printf MsgInit (mkLogger "" "" [Stderr; Buffer] None disk).

(** [os.OpenFile(path, os.O_CREATE|os.O_APPEND|os.O_WRONLY, 0644)]: a
    missing file is created empty. *)
Definition OpenFile_append (path : string) (lg : Logger) : Logger :=
  mkLogger (stderr lg) (buffer lg) (writers lg) (logfile lg)
    (<[path := default "" (logs lg !! path)]> (logs lg)).

(** [setupLogOutput], [src/main.go], for [cfg.LogFile = path].  The file
    is opened with [logfile, err := ...], which declares a local variable:
    the global [logfile] is not assigned. *)
Definition setupLogOutput (path : string) (lg : Logger) : Logger * option error :=
  if String.eqb path "" then (Printf MsgNoLogFile lg, None)
  else
    let lg := Printf (MsgSetup path) lg in
    match open_error path with
    | Some e => (Printf (MsgOpenError e) lg, Some (Errorf e))
    | None =>
        let lg := OpenFile_append path lg in
        let '(bufferedLogs, lg) := GetAndClear lg in
        let lg :=
          if 0 <? Z.of_nat (String.length bufferedLogs) then
            let lg := Writer_Write bufferedLogs lg (LogFile path) in
            Printf (MsgFlushed (String.length bufferedLogs)) lg
          else lg in
        let lg := RemoveWriter Buffer lg in
        let lg := AddWriter (LogFile path) lg in
        (Printf (MsgSwitched path) lg, None)
    end.

(** [closeLogFile], [src/main.go]. *)
Definition closeLogFile (lg : Logger) : Logger :=
  match logfile lg with
  | Some _ =>
      let lg := Printf MsgClosing lg in
      mkLogger (stderr lg) (buffer lg) (writers lg) None (logs lg)
  | None => lg
  end.

(** The lines of a list of messages, one after the other. *)
Definition lines (msgs : list Message) : string :=
  foldr (fun msg rest => (line msg ++ rest)%string) "" msgs.

(** The logger after the messages of a list have been logged in order. *)
Definition logged (msgs : list Message) (lg : Logger) : Logger :=
  foldl (fun lg msg => Printf msg lg) lg msgs.

End Logger.

End Logging.

(** * Properties *)

(** ** Level classifier *)

Lemma first_match_range rules h m :
  first_match rules h m = (false, "")
  \/ exists lvl, lvl ∈ rules.*1 /\ first_match rules h m = (true, lvl).
Proof.
  induction rules as [|[lvl rule] rest IH]; simpl; [by left|].
  destruct (rule h m).
  - right. exists lvl. split; [left | done].
  - destruct IH as [IH|(l & Hl & IH)]; [by left|].
    right. exists l. split; [by right | done].
Qed.

(** C1: the classifier is the first-match evaluation of the five rules in
    the order 1d, 12h, 6h, 3h, 30m on the hour and the minute of the
    timestamp alone; it answers one of the five levels or no level; at
    00:00 every rule matches and 1d wins; and the examples 00:00, 12:00,
    06:00, 09:00, 09:30 and 09:15 classify as 1d, 12h, 6h, 3h, 30m and
    none. *)
Theorem determineBestBackupLevel_first_match :
  (forall t, determineBestBackupLevel t = classify_spec (Hour t) (Minute t))
  /\ level_rules.*1 = ["1d"; "12h"; "6h"; "3h"; "30m"]
  /\ (forall t,
        determineBestBackupLevel t = (false, "")
        \/ exists lvl, lvl ∈ ["1d"; "12h"; "6h"; "3h"; "30m"]
                       /\ determineBestBackupLevel t = (true, lvl))
  /\ (forall t u, Hour t = Hour u -> Minute t = Minute u ->
        determineBestBackupLevel t = determineBestBackupLevel u)
  /\ Forall (fun rule => rule.2 0 0 = true) level_rules
  /\ (forall s off, 0 <= s < 60 ->
        determineBestBackupLevel (date_2025_07_01 0 0 s off) = (true, "1d")
        /\ determineBestBackupLevel (date_2025_07_01 12 0 s off) = (true, "12h")
        /\ determineBestBackupLevel (date_2025_07_01 6 0 s off) = (true, "6h")
        /\ determineBestBackupLevel (date_2025_07_01 9 0 s off) = (true, "3h")
        /\ determineBestBackupLevel (date_2025_07_01 9 30 s off) = (true, "30m")
        /\ determineBestBackupLevel (date_2025_07_01 9 15 s off) = (false, "")).
Proof.
  assert (Hspec : forall t,
    determineBestBackupLevel t = classify_spec (Hour t) (Minute t)).
  { intros t. unfold determineBestBackupLevel, classify_spec, level_rules.
    cbn [first_match]. reflexivity. }
  split; [exact Hspec|]. split; [reflexivity|]. split; [|split; [|split]].
  - intros t. rewrite Hspec. apply first_match_range.
  - intros t u Hh Hm. rewrite !Hspec. by rewrite Hh, Hm.
  - repeat constructor.
  - intros s off Hs.
    assert (Hclock : forall h m, 0 <= h < 24 -> 0 <= m < 60 ->
      Hour (date_2025_07_01 h m s off) = h
      /\ Minute (date_2025_07_01 h m s off) = m).
    { intros h m Hh Hm. unfold Hour, Minute, wall_seconds, date_2025_07_01.
      cbn [abs_ns zone]. unfold Second, Nanosecond.
      rewrite Z.mul_1_r, Z.div_mul by lia.
      replace (739432 * 86400 + h * 3600 + m * 60 + s - off + off)
        with (h * 3600 + m * 60 + s + 739432 * 86400) by lia.
      split.
      - rewrite Z_mod_plus_full, Z.mod_small by lia.
        symmetry. apply Z.div_unique with (m * 60 + s); lia.
      - replace (h * 3600 + m * 60 + s + 739432 * 86400)
          with (m * 60 + s + (h + 739432 * 24) * 3600) by lia.
        rewrite Z_mod_plus_full, Z.mod_small by lia.
        symmetry. apply Z.div_unique with s; lia. }
    repeat split; rewrite Hspec;
      match goal with
      | |- classify_spec (Hour (date_2025_07_01 ?h ?m _ _)) _ = _ =>
          destruct (Hclock h m) as [-> ->]; [lia | lia | reflexivity]
      end.
Qed.

(** Witness for C1 at second 15 in the zone UTC+9. *)
Lemma determineBestBackupLevel_first_match_witness :
  determineBestBackupLevel (date_2025_07_01 9 30 15 32400) = (true, "30m").
Proof.
  destruct determineBestBackupLevel_first_match as (_ & _ & _ & _ & _ & Hex).
  destruct (Hex 15 32400) as (_ & _ & _ & _ & H & _); [lia | exact H].
Defined.

(** ** Execution ledger *)

Section LedgerFacts.
Context `{GoLib}.

Lemma loadLastExecutionRecord_eq path w :
  loadLastExecutionRecord path w
  = Returned (load_result path w) (log (OpReadFile path) w).
Proof.
  unfold loadLastExecutionRecord, load_result, mbind, M_bind, ReadFile.
  cbn [files log]. destruct (files w !! path) as [data|]; [|done].
  destruct (json_Unmarshal data) as [record|e]; done.
Qed.

Lemma eqb_empty_false s : s <> "" -> String.eqb s "" = false.
Proof. intros Hs. by apply String.eqb_neq. Qed.

End LedgerFacts.

(** The demo library satisfies the laws. *)

Lemma same_timestamps_refl r : same_timestamps r r.
Proof.
  intros level. destruct (last_execution r level) as [t|]; [|done].
  apply Z.eqb_refl.
Qed.

Lemma same_timestamps_trans r1 r2 r3 :
  same_timestamps r1 r2 -> same_timestamps r2 r3 -> same_timestamps r1 r3.
Proof.
  intros H12 H23 level. specialize (H12 level). specialize (H23 level).
  destruct (last_execution r1 level), (last_execution r2 level),
    (last_execution r3 level); try done.
  unfold Equal in *. apply Z.eqb_eq in H12, H23. apply Z.eqb_eq. congruence.
Qed.

Lemma of_numeral_numeral p : DemoLib.of_numeral (DemoLib.numeral p) = Some p.
Proof. induction p as [q IH|q IH|]; simpl; [by rewrite IH..|done]. Qed.

(** RFC 3339 moves the instant by the seconds of the zone offset and
    leaves an offset of whole minutes. *)
Lemma RFC3339_abs_ns t :
  abs_ns (RFC3339 t) = abs_ns t + Z.rem (zone t) 60 * Second.
Proof.
  unfold RFC3339. cbn [abs_ns]. pose proof (Z.quot_rem' (zone t) 60). lia.
Qed.

Lemma RFC3339_zone t : zone (RFC3339 t) mod 60 = 0.
Proof. unfold RFC3339. cbn [zone]. by rewrite Z.mul_comm, Z.mod_mul. Qed.

Lemma rem_mod_60 z : Z.rem z 60 = 0 <-> z mod 60 = 0.
Proof. rewrite Z.rem_divide, Z.mod_divide by done. done. Qed.

Lemma RFC3339_Equal t : Equal t (RFC3339 t) = true <-> zone t mod 60 = 0.
Proof.
  unfold Equal. rewrite Z.eqb_eq, RFC3339_abs_ns, <- rem_mod_60.
  unfold Second, Nanosecond. lia.
Qed.

Lemma last_execution_written r level :
  last_execution (written r) level = RFC3339 <$> last_execution r level.
Proof.
  unfold last_execution, written. cbn [LastExecutions].
  destruct (LastExecutions r) as [m|]; [|done]. cbn. apply lookup_fmap.
Qed.

Lemma whole_minutes_written r : DemoLib.whole_minutes (written r) = true.
Proof.
  unfold DemoLib.whole_minutes. apply bool_decide_eq_true.
  intros level t Ht. unfold written in Ht. cbn [LastExecutions] in Ht.
  destruct (LastExecutions r) as [m|]; cbn in Ht; [|by rewrite lookup_empty in Ht].
  rewrite lookup_fmap in Ht. destruct (m !! level) as [u|]; [|done].
  injection Ht as <-. apply RFC3339_zone.
Qed.

Global Instance DemoLib_laws : @GoLibLaws DemoLib.lib.
Proof.
  split.
  - intros r data _ [= <-]. exists (written r).
    split; [|apply same_timestamps_refl].
    cbn. unfold DemoLib.Unmarshal.
    rewrite of_numeral_numeral. cbn. rewrite decode_encode. cbn.
    by rewrite whole_minutes_written.
  - intros data r level t. cbn. unfold DemoLib.Unmarshal.
    destruct (_ ≫= _) as [r0|]; [|done].
    destruct (DemoLib.whole_minutes r0) eqn:Hwhole; [|done].
    intros [= ->] Ht. apply bool_decide_eq_true in Hwhole.
    unfold last_execution in Ht. destruct (LastExecutions r) as [m|]; [|done].
    by apply (Hwhole level t).
  - intros p. cbn. unfold DemoLib.Dir.
    destruct (DemoLib.before_last_slash p) as [[|c d]|]; done.
Qed.

Section LedgerTheorems.
Context `{GoLib}.

Lemma shouldExecuteBackup_enabled cfg t w level :
  determineBestBackupLevel t = (true, level) ->
  LastExecutionFile cfg <> "" ->
  shouldExecuteBackup cfg t w
  = Returned
      match load_result (LastExecutionFile cfg) w with
      | (_, Some e) =>
          if negb (IsNotExist (Some e)) then (false, "", Some (Errorf e))
          else (true, level, None)
      | (None, None) => (true, level, None)
      | (Some record, None) =>
          match last_execution record level with
          | None => (true, level, None)
          | Some lastExecution =>
              if IsZero lastExecution then (true, level, None)
              else if Equal (Truncate t Minute_d) (Truncate lastExecution Minute_d)
                   then (false, "", None)
                   else (true, level, None)
          end
      end
      (log (OpReadFile (LastExecutionFile cfg)) w).
Proof.
  intros Hlvl Hfile. unfold shouldExecuteBackup. rewrite Hlvl. cbn [negb].
  rewrite (eqb_empty_false _ Hfile). cbn [negb].
  unfold mbind, M_bind. rewrite loadLastExecutionRecord_eq.
  destruct (load_result _ w) as [[record|] [e|]]; cbn.
  - destruct e; done.
  - destruct (last_execution record level) as [last|]; [|done].
    destruct (IsZero last); [done|].
    by destruct (Equal _ _).
  - destruct e; done.
  - done.
Qed.

(** C6, as the code has it: when no record is persisted,
    [loadLastExecutionRecord] returns no record and the not-exist error of
    [os.ReadFile]; it is its callers that read this error as an empty
    ledger ([shouldExecuteBackup] allows the backup, [recordLastExecution]
    starts from an empty mapping).  It returns the decoder's error exactly
    when a record is persisted and does not parse; a record that parses is
    returned with a nil mapping replaced by an empty one.  The only call
    it makes is the read of the file. *)
Theorem loadLastExecutionRecord_cases (path : string) (w : World) :
  exists res,
    loadLastExecutionRecord path w = Returned res (log (OpReadFile path) w)
    /\ (files w !! path = None -> res = (None, Some ErrNotExist))
    /\ (forall e, (exists data, files w !! path = Some data
                                /\ json_Unmarshal data = inr e)
                  -> res = (None, Some e))
    /\ (forall e, res = (None, Some e) ->
          files w !! path = None /\ e = ErrNotExist
          \/ exists data, files w !! path = Some data
                          /\ json_Unmarshal data = inr e)
    /\ (forall data record, files w !! path = Some data ->
          json_Unmarshal data = inl record ->
          res = (Some (mkRecord (Some (default ∅ (LastExecutions record)))), None))
    /\ (files w !! path = None ->
        forall cfg t level, LastExecutionFile cfg = path -> path <> "" ->
          (determineBestBackupLevel t = (true, level) ->
           shouldExecuteBackup cfg t w
           = Returned (true, level, None) (log (OpReadFile path) w))
          /\ recordLastExecution cfg level t w
             = saveLastExecutionRecord path (mkRecord (Some {[level := t]}))
                 (log (OpReadFile path) w)).
Proof.
  exists (load_result path w). split; [apply loadLastExecutionRecord_eq|].
  unfold load_result.
  split; [|split; [|split; [|split]]].
  - by intros ->.
  - intros e (data & -> & ->). done.
  - intros e. destruct (files w !! path) as [data|].
    + destruct (json_Unmarshal data) as [record|e'] eqn:Hdec; [done|].
      intros [= ->]. right. by exists data.
    + intros [= <-]. by left.
  - intros data record -> ->. by destruct record as [[m|]].
  - intros Hnone cfg t level <- Hpath. split.
    + intros Hlvl. rewrite (shouldExecuteBackup_enabled _ _ _ level) by done.
      unfold load_result. by rewrite Hnone.
    + unfold recordLastExecution. rewrite (eqb_empty_false _ Hpath).
      unfold mbind, M_bind. rewrite loadLastExecutionRecord_eq.
      unfold load_result. rewrite Hnone. cbn. by rewrite insert_empty.
Qed.

End LedgerTheorems.

(** C6, as the specification states it, fails: on a machine without a
    persisted record the load is an error, not an empty mapping. *)
Lemma loadLastExecutionRecord_missing_is_error :
  files Examples.w_empty !! Examples.ledger_path = None
  /\ (forall w' res,
        @loadLastExecutionRecord DemoLib.lib Examples.ledger_path Examples.w_empty
          = Returned res w' ->
        res = (None, Some ErrNotExist)
        /\ res <> (Some (mkRecord (Some ∅)), None)).
Proof.
  split; [done|]. intros w' res.
  rewrite loadLastExecutionRecord_eq. intros [= <- _]. done.
Qed.

(** ** Scheduling decision *)

Lemma Minute_d_pos : 0 < Minute_d.
Proof. reflexivity. Qed.

Lemma Truncate_Equal_iff t u :
  Equal (Truncate t Minute_d) (Truncate u Minute_d) = true
  <-> abs_ns t `div` Minute_d = abs_ns u `div` Minute_d.
Proof.
  unfold Equal, Truncate. change (Minute_d <=? 0) with false. cbn [abs_ns].
  rewrite Z.eqb_eq.
  pose proof (Z.div_mod (abs_ns t) Minute_d) as Ht.
  pose proof (Z.div_mod (abs_ns u) Minute_d) as Hu.
  pose proof Minute_d_pos. split; intros Heq; [|rewrite <- Heq in Hu]; nia.
Qed.

Lemma wall_minute_iff t u :
  zone t = zone u -> zone t mod 60 = 0 ->
  (abs_ns t `div` Minute_d = abs_ns u `div` Minute_d
   <-> wall_seconds t `div` 60 = wall_seconds u `div` 60).
Proof.
  intros Hz Hmod. unfold wall_seconds. rewrite <- Hz.
  apply Z.mod_divide in Hmod as [k Hk]; [|done]. rewrite Hk.
  rewrite !Z.div_add by done.
  rewrite !Z.div_div by done.
  change (Second * 60) with Minute_d. lia.
Qed.

Section DecisionTheorems.
Context `{GoLib}.

(** C3: at a timestamp for which a level is due, with the ledger enabled
    and holding a non-zero last execution for that level, the decision is
    (false, none) exactly when the timestamp and the recorded execution
    truncate to the same minute, and (true, level) otherwise; the minute
    of [Truncate] is the minute on the wall clock whenever the two
    timestamps are presented in one zone of whole minutes.  When no level
    is due the decision is (false, none) and nothing is read: the world,
    trace included, is as before. *)
Theorem shouldExecuteBackup_same_minute (cfg : BackupConfig) (t : Time) (w : World) :
  (forall level, determineBestBackupLevel t = (false, level) ->
     shouldExecuteBackup cfg t w = Returned (false, "", None) w)
  /\ (forall level data record last,
        determineBestBackupLevel t = (true, level) ->
        LastExecutionFile cfg <> "" ->
        files w !! LastExecutionFile cfg = Some data ->
        json_Unmarshal data = inl record ->
        last_execution record level = Some last ->
        IsZero last = false ->
        let w' := log (OpReadFile (LastExecutionFile cfg)) w in
        (shouldExecuteBackup cfg t w = Returned (false, "", None) w'
         <-> Equal (Truncate t Minute_d) (Truncate last Minute_d) = true)
        /\ (Equal (Truncate t Minute_d) (Truncate last Minute_d) = false ->
            shouldExecuteBackup cfg t w = Returned (true, level, None) w')
        /\ (Equal (Truncate t Minute_d) (Truncate last Minute_d) = true
            <-> abs_ns t `div` Minute_d = abs_ns last `div` Minute_d)
        /\ (zone t = zone last -> zone t mod 60 = 0 ->
            (Equal (Truncate t Minute_d) (Truncate last Minute_d) = true
             <-> wall_seconds t `div` 60 = wall_seconds last `div` 60))).
Proof.
  split.
  - intros level Hlvl. unfold shouldExecuteBackup. by rewrite Hlvl.
  - intros level data record last Hlvl Hfile Hdata Hdec Hlast Hzero w'.
    assert (Hrun : shouldExecuteBackup cfg t w
      = Returned
          (if Equal (Truncate t Minute_d) (Truncate last Minute_d)
           then (false, "", None) else (true, level, None)) w').
    { rewrite (shouldExecuteBackup_enabled _ _ _ level) by done.
      unfold load_result. rewrite Hdata, Hdec.
      replace (last_execution _ level) with (Some last).
      - by rewrite Hzero.
      - rewrite <- Hlast. by destruct record as [[m|]]. }
    rewrite Hrun. split; [|split; [|split]].
    + destruct (Equal _ _); [done|]. split; [|done]. intros [=].
    + by intros ->.
    + apply Truncate_Equal_iff.
    + intros Hz Hmod. rewrite Truncate_Equal_iff. by apply wall_minute_iff.
Qed.

(** C7: with [LastExecutionFile] empty, [recordLastExecution] returns nil
    and does nothing at all, and [shouldExecuteBackup] at a timestamp for
    which a level is due answers (true, level) after any run of recorded
    executions, again without touching the world. *)
Theorem disabled_ledger_always_executes (cfg : BackupConfig) :
  LastExecutionFile cfg = "" ->
  (forall level t w, recordLastExecution cfg level t w = Returned None w)
  /\ (forall runs t level w,
        determineBestBackupLevel t = (true, level) ->
        (_ ← record_all cfg runs; shouldExecuteBackup cfg t) w
        = Returned (true, level, None) w).
Proof.
  intros Hoff.
  assert (Hrec : forall level t w,
    recordLastExecution cfg level t w = Returned None w).
  { intros level t w. unfold recordLastExecution. by rewrite Hoff. }
  split; [exact Hrec|].
  intros runs t level w Hlvl.
  assert (Hall : record_all cfg runs w = Returned tt w).
  { induction runs as [|[l u] rest IH]; [done|].
    cbn [record_all]. unfold mbind, M_bind. by rewrite Hrec. }
  unfold mbind, M_bind. rewrite Hall.
  unfold shouldExecuteBackup. rewrite Hlvl, Hoff. done.
Qed.

(** C8, as the code has it: whenever the encoder accepts the record [R],
    whose level names are plain, saving [R] succeeds, leaves at the path
    exactly the encoding of [R] whatever the file held before, and loading
    it back returns the record that the text stands for: at every level
    of [R] the instant of its time moved by the seconds of its zone
    offset.  So a time is read back as the instant it was exactly when
    its zone offset is a number of whole minutes, and the timestamps of
    [R] are reproduced when that holds of all of them.  A later save of
    [R2] replaces [R] altogether. *)
Theorem save_load_roundtrip `{!GoLibLaws} (path : string)
    (R : LastExecutionRecord) (data : string) (w : World) :
  plain_levels R -> json_MarshalIndent R = inl data ->
  exists w1,
    saveLastExecutionRecord path R w = Returned None w1
    /\ files w1 !! path = Some data
    /\ (exists R' w2,
          loadLastExecutionRecord path w1 = Returned (Some R', None) w2
          /\ same_timestamps (written R) R'
          /\ (forall level,
                match last_execution R level, last_execution R' level with
                | Some t, Some t' =>
                    abs_ns t' = abs_ns t + Z.rem (zone t) 60 * Second
                    /\ (Equal t t' = true <-> zone t mod 60 = 0)
                | None, None => True
                | _, _ => False
                end)
          /\ ((forall level t, last_execution R level = Some t ->
                  zone t mod 60 = 0) ->
              same_timestamps R R'))
    /\ (forall R2 data2, plain_levels R2 -> json_MarshalIndent R2 = inl data2 ->
          exists w3 R2' w4,
            saveLastExecutionRecord path R2 w1 = Returned None w3
            /\ files w3 !! path = Some data2
            /\ loadLastExecutionRecord path w3 = Returned (Some R2', None) w4
            /\ same_timestamps (written R2) R2').
Proof.
  assert (Hsave : forall R data w, json_MarshalIndent R = inl data ->
    exists w1, saveLastExecutionRecord path R w = Returned None w1
               /\ files w1 !! path = Some data).
  { intros R0 data0 w0 Henc. unfold saveLastExecutionRecord, mbind, M_bind, MkdirAll.
    rewrite decide_False by apply filepath_Dir_nonempty.
    destruct (dirs _ !! _); rewrite Henc; unfold WriteFile;
      (eexists; split; [reflexivity|]); cbn; apply lookup_insert_eq. }
  assert (Hload : forall R data w1, plain_levels R ->
    json_MarshalIndent R = inl data ->
    files w1 !! path = Some data ->
    exists R' w2, loadLastExecutionRecord path w1 = Returned (Some R', None) w2
                  /\ same_timestamps (written R) R').
  { intros R0 data0 w0 Hplain Henc Hfile.
    destruct (json_roundtrip _ _ Hplain Henc) as (R' & Hdec & Hsame).
    rewrite loadLastExecutionRecord_eq. unfold load_result.
    rewrite Hfile, Hdec. eexists _, _. split; [reflexivity|].
    intros level. specialize (Hsame level).
    by destruct R' as [[m|]]. }
  intros Hplain Henc. destruct (Hsave R data w Henc) as (w1 & Hw1 & Hfile).
  exists w1. split; [done|]. split; [done|]. split.
  - destruct (Hload R data w1 Hplain Henc Hfile) as (R' & w2 & Hl & Hs).
    exists R', w2. split; [done|]. split; [done|].
    assert (Hlevel : forall level,
      match last_execution R level, last_execution R' level with
      | Some t, Some t' =>
          abs_ns t' = abs_ns t + Z.rem (zone t) 60 * Second
          /\ (Equal t t' = true <-> zone t mod 60 = 0)
      | None, None => True
      | _, _ => False
      end).
    { intros level. specialize (Hs level).
      rewrite last_execution_written in Hs.
      destruct (last_execution R level) as [t|],
        (last_execution R' level) as [t'|]; cbn in Hs; try done.
      apply Z.eqb_eq in Hs. rewrite <- Hs, RFC3339_abs_ns. split; [done|].
      rewrite <- RFC3339_Equal. unfold Equal. by rewrite Hs. }
    split; [exact Hlevel|].
    intros Hwhole level. specialize (Hlevel level).
    destruct (last_execution R level) as [t|] eqn:Ht,
      (last_execution R' level) as [t'|]; try done.
    destruct Hlevel as [_ Heq]. apply Heq. by apply (Hwhole level).
  - intros R2 data2 Hplain2 Henc2.
    destruct (Hsave R2 data2 w1 Henc2) as (w3 & Hw3 & Hfile3).
    destruct (Hload R2 data2 w3 Hplain2 Henc2 Hfile3) as (R2' & w4 & Hl & Hs).
    by exists w3, R2', w4.
Qed.

End DecisionTheorems.

(** C3, as the specification states it, fails: the minute that is
    compared is that of the instant, not the one read on the wall clock.
    An execution of the level 30m is recorded at 01:30:05 in a zone four
    hours west of UTC; one hour later, the clocks set back, it is 01:30:20
    five hours west.  The two timestamps truncate to the same minute of
    wall-clock time, and the backup is allowed again. *)
Lemma shouldExecuteBackup_same_wall_minute_runs :
  wall_seconds Examples.t_01_30_20_west5 `div` 60
  = wall_seconds Examples.t_01_30_05_west4 `div` 60
  /\ determineBestBackupLevel Examples.t_01_30_20_west5 = (true, "30m")
  /\ @load_result DemoLib.lib Examples.ledger_path Examples.w_recorded_west4
     = (Some (mkRecord (Some {[ "30m" := Examples.t_01_30_05_west4 ]})), None)
  /\ IsZero Examples.t_01_30_05_west4 = false
  /\ @shouldExecuteBackup DemoLib.lib Examples.cfg_ledger
       Examples.t_01_30_20_west5 Examples.w_recorded_west4
     = Returned (true, "30m", None)
         (log (OpReadFile Examples.ledger_path) Examples.w_recorded_west4)
  /\ @shouldExecuteBackup DemoLib.lib Examples.cfg_ledger
       Examples.t_01_30_20_west5 Examples.w_recorded_west4
     <> Returned (false, "", None)
          (log (OpReadFile Examples.ledger_path) Examples.w_recorded_west4).
Proof.
  split; [vm_compute; reflexivity|]. split; [vm_compute; reflexivity|].
  split; [vm_compute; reflexivity|]. split; [vm_compute; reflexivity|].
  assert (Hrun : @shouldExecuteBackup DemoLib.lib Examples.cfg_ledger
                   Examples.t_01_30_20_west5 Examples.w_recorded_west4
                 = Returned (true, "30m", None)
                     (log (OpReadFile Examples.ledger_path)
                        Examples.w_recorded_west4))
    by (vm_compute; reflexivity).
  split; [exact Hrun|]. rewrite Hrun. discriminate.
Qed.

(** Witness for C3: the second call within the minute of 09:30 is
    suppressed. *)
Lemma shouldExecuteBackup_same_minute_witness :
  @shouldExecuteBackup DemoLib.lib Examples.cfg_ledger Examples.t_09_30_15
    Examples.w_recorded
  = Returned (false, "", None)
      (log (OpReadFile Examples.ledger_path) Examples.w_recorded).
Proof.
  destruct (@shouldExecuteBackup_same_minute DemoLib.lib Examples.cfg_ledger
              Examples.t_09_30_15 Examples.w_recorded) as [_ Hdue].
  destruct (Hdue "30m" (DemoLib.numeral (encode Examples.recorded))
              Examples.recorded Examples.t_09_30_00)
    as [Hiff _];
    [vm_compute; reflexivity | discriminate | vm_compute; reflexivity
    | vm_compute; reflexivity | vm_compute; reflexivity
    | vm_compute; reflexivity | ].
  apply Hiff. vm_compute. reflexivity.
Defined.

(** The duplicate-suppression scenario of the specification, run on the
    demo library. *)
Example duplicate_suppression_scenario :
  (exists w, @shouldExecuteBackup DemoLib.lib Examples.cfg_ledger
               Examples.t_09_30_00 Examples.w_empty
             = Returned (true, "30m", None) w)
  /\ (exists w, @shouldExecuteBackup DemoLib.lib Examples.cfg_ledger
                  Examples.t_09_30_45 Examples.w_recorded
                = Returned (false, "", None) w)
  /\ (exists w, @shouldExecuteBackup DemoLib.lib Examples.cfg_ledger
                  Examples.t_10_00_00 Examples.w_recorded
                = Returned (true, "30m", None) w).
Proof. repeat split; eexists; vm_compute; reflexivity. Qed.

(** Witness for C7. *)
Lemma disabled_ledger_always_executes_witness :
  @recordLastExecution DemoLib.lib Examples.cfg_no_ledger "30m"
    Examples.t_09_30_00 Examples.w_empty
  = Returned None Examples.w_empty
  /\ (_ ← @record_all DemoLib.lib Examples.cfg_no_ledger
            [("30m", Examples.t_09_30_00); ("30m", Examples.t_09_30_15)];
      @shouldExecuteBackup DemoLib.lib Examples.cfg_no_ledger Examples.t_09_30_45)
       Examples.w_empty
     = Returned (true, "30m", None) Examples.w_empty.
Proof.
  destruct (@disabled_ledger_always_executes DemoLib.lib Examples.cfg_no_ledger)
    as [Hrec Hdec]; [reflexivity|].
  split; [apply Hrec | apply Hdec; vm_compute; reflexivity].
Defined.

(** Witness for C8. *)
Lemma save_load_roundtrip_witness :
  exists w1,
    @saveLastExecutionRecord DemoLib.lib Examples.ledger_path Examples.recorded
      Examples.w_empty = Returned None w1
    /\ exists R' w2,
         @loadLastExecutionRecord DemoLib.lib Examples.ledger_path w1
         = Returned (Some R', None) w2
         /\ same_timestamps (written Examples.recorded) R'.
Proof.
  assert (Hplain : plain_levels Examples.recorded).
  { intros level t. unfold last_execution, Examples.recorded.
    cbn [LastExecutions mbind option_bind]. intros Ht.
    apply lookup_singleton_Some in Ht as [<- _]. reflexivity. }
  destruct (@save_load_roundtrip DemoLib.lib DemoLib_laws Examples.ledger_path
              Examples.recorded _ Examples.w_empty Hplain eq_refl)
    as (w1 & Hsave & _ & (R' & w2 & Hload & Hsame & _) & _).
  exists w1. split; [exact Hsave|]. exists R', w2. split; [exact Hload | exact Hsame].
Defined.

(** C8, as the specification states it, fails: a timestamp in a zone
    whose offset is not a number of whole minutes is not reproduced.  The
    execution of 09:30:00 in a zone 9 hours, 18 minutes and 59 seconds
    east of UTC is saved; the time loaded back is 59 seconds later. *)
Lemma save_load_loses_offset_seconds :
  exists w1 R' w2 t',
    @saveLastExecutionRecord DemoLib.lib Examples.ledger_path
      Examples.recorded_east_09_18_59 Examples.w_empty = Returned None w1
    /\ @loadLastExecutionRecord DemoLib.lib Examples.ledger_path w1
       = Returned (Some R', None) w2
    /\ last_execution Examples.recorded_east_09_18_59 "30m"
       = Some Examples.t_09_30_00_east_09_18_59
    /\ last_execution R' "30m" = Some t'
    /\ abs_ns t' = abs_ns Examples.t_09_30_00_east_09_18_59 + 59 * Second
    /\ Equal Examples.t_09_30_00_east_09_18_59 t' = false
    /\ ~ same_timestamps Examples.recorded_east_09_18_59 R'.
Proof.
  eexists _, _, _, _.
  split; [vm_compute; reflexivity|]. split; [vm_compute; reflexivity|].
  split; [vm_compute; reflexivity|]. split; [vm_compute; reflexivity|].
  split; [vm_compute; reflexivity|]. split; [vm_compute; reflexivity|].
  intros Hsame. specialize (Hsame "30m"). vm_compute in Hsame. discriminate.
Qed.

(** ** Byte order on strings and sorted listings *)

Lemma str_le_trans_aux a : forall b c,
  String.leb a b = true -> String.leb b c = true -> String.leb a c = true.
Proof.
  unfold String.leb.
  induction a as [|x a IH]; intros [|y b] [|z c]; simpl; try done.
  unfold Ascii.compare.
  destruct (N.compare_spec (N_of_ascii x) (N_of_ascii y)) as [Hxy|Hxy|Hxy];
    destruct (N.compare_spec (N_of_ascii y) (N_of_ascii z)) as [Hyz|Hyz|Hyz];
    destruct (N.compare_spec (N_of_ascii x) (N_of_ascii z)) as [Hxz|Hxz|Hxz];
    try done; try lia.
  apply IH.
Qed.

Global Instance str_le_trans : Transitive str_le.
Proof. intros a b c. apply str_le_trans_aux. Qed.

Global Instance str_le_total : Total str_le.
Proof. intros a b. apply String.leb_total. Qed.

Global Instance str_le_antisym : AntiSymm (=) str_le.
Proof. intros a b. apply String.leb_antisym. Qed.

Global Instance str_le_refl : Reflexive str_le.
Proof. intros a. by destruct (String.leb_total a a). Qed.

Lemma sort_Strings_sorted l : StronglySorted str_le (sort_Strings l).
Proof. apply StronglySorted_merge_sort; apply _. Qed.

Lemma sort_Strings_perm l : sort_Strings l ≡ₚ l.
Proof. apply merge_sort_Permutation. Qed.

Lemma sort_Strings_id l : StronglySorted str_le l -> sort_Strings l = l.
Proof.
  intros Hl. apply (StronglySorted_unique str_le);
    [apply sort_Strings_sorted | done | apply sort_Strings_perm].
Qed.

Lemma elem_of_vhdx_names entries name :
  name ∈ vhdx_names entries <-> name ∈ entries /\ HasSuffix name ".vhdx" = true.
Proof.
  unfold vhdx_names. rewrite sort_Strings_perm, list_elem_of_filter.
  rewrite Is_true_true. tauto.
Qed.

Lemma vhdx_names_sorted entries : StronglySorted str_le (vhdx_names entries).
Proof. apply sort_Strings_sorted. Qed.

Lemma vhdx_names_NoDup entries : NoDup entries -> NoDup (vhdx_names entries).
Proof.
  intros Hnd. unfold vhdx_names. rewrite sort_Strings_perm.
  by apply NoDup_filter.
Qed.

Lemma elem_of_dir_names d name : name ∈ dir_names d <-> is_Some (d !! name).
Proof.
  unfold dir_names. rewrite sort_Strings_perm, list_elem_of_fmap. split.
  - intros ([n c] & -> & Hin). apply elem_of_map_to_list in Hin. by exists c.
  - intros [c Hc]. exists (name, c). split; [done|]. by apply elem_of_map_to_list.
Qed.

Lemma dir_names_NoDup d : NoDup (dir_names d).
Proof. unfold dir_names. rewrite sort_Strings_perm. apply NoDup_fst_map_to_list. Qed.

Lemma elem_of_artifacts d name :
  name ∈ artifacts d <-> is_Some (d !! name) /\ HasSuffix name ".vhdx" = true.
Proof. unfold artifacts. by rewrite elem_of_vhdx_names, elem_of_dir_names. Qed.

Lemma artifacts_NoDup d : NoDup (artifacts d).
Proof. apply vhdx_names_NoDup, dir_names_NoDup. Qed.

Lemma artifacts_sorted d : StronglySorted str_le (artifacts d).
Proof. apply vhdx_names_sorted. Qed.

(** A sorted duplicate-free list with the artifacts of [d] as elements is
    the listing of [d]. *)
Lemma artifacts_unique d l :
  StronglySorted str_le l -> NoDup l ->
  (forall name, name ∈ l <-> name ∈ artifacts d) ->
  artifacts d = l.
Proof.
  intros Hs Hnd Hel. apply (StronglySorted_unique str_le);
    [apply artifacts_sorted | done |].
  apply NoDup_Permutation; [apply artifacts_NoDup | done |].
  intros name. by rewrite Hel.
Qed.

Lemma artifacts_empty : artifacts ∅ = [].
Proof. reflexivity. Qed.

(** Entries that are not artifacts do not show in the listing. *)
Lemma artifacts_insert_other d name c :
  HasSuffix name ".vhdx" = false -> artifacts (<[name := c]> d) = artifacts d.
Proof.
  intros Hsuf. symmetry. apply artifacts_unique;
    [apply artifacts_sorted | apply artifacts_NoDup |].
  intros n. rewrite !elem_of_artifacts.
  destruct (decide (n = name)) as [->|Hne]; [|by rewrite lookup_insert_ne].
  rewrite Hsuf. split; intros [_ ?]; done.
Qed.

Lemma artifacts_delete_other d name :
  HasSuffix name ".vhdx" = false -> artifacts (delete name d) = artifacts d.
Proof.
  intros Hsuf. symmetry. apply artifacts_unique;
    [apply artifacts_sorted | apply artifacts_NoDup |].
  intros n. rewrite !elem_of_artifacts.
  destruct (decide (n = name)) as [->|Hne]; [|by rewrite lookup_delete_ne].
  rewrite Hsuf. split; intros [_ ?]; done.
Qed.

Lemma foldr_delete_lookup (d : gmap string string) l name :
  foldr delete d l !! name = if decide (name ∈ l) then None else d !! name.
Proof.
  induction l as [|x l IH]; [done|]. cbn [foldr].
  destruct (decide (name = x)) as [->|Hne].
  - rewrite lookup_delete_eq. rewrite decide_True; [done | left].
  - rewrite lookup_delete_ne, IH by done.
    destruct (decide (name ∈ l)) as [Hin|Hin].
    + rewrite decide_True; [done | by right].
    + rewrite decide_False; [done|]. by intros [?|?]%elem_of_cons.
Qed.

(** Deleting the [k] oldest artifacts leaves the rest of the listing. *)
Lemma artifacts_delete_oldest d k :
  artifacts (foldr delete d (take k (artifacts d))) = drop k (artifacts d).
Proof.
  pose proof (artifacts_sorted d) as Hs. pose proof (artifacts_NoDup d) as Hnd.
  pose proof (elem_of_artifacts d) as Hel.
  remember (artifacts d) as names eqn:Hnames. clear Hnames.
  assert (Hsplit : forall n, n ∈ names <-> n ∈ take k names \/ n ∈ drop k names).
  { intros n. by rewrite <- elem_of_app, take_drop. }
  rewrite <- (take_drop k names) in Hs, Hnd.
  apply StronglySorted_app_1_r in Hs.
  apply NoDup_app in Hnd as (_ & Hdisj & Hnd).
  apply artifacts_unique; [done..|].
  intros name. rewrite elem_of_artifacts.
  rewrite foldr_delete_lookup. specialize (Hel name). specialize (Hsplit name).
  specialize (Hdisj name).
  destruct (decide (name ∈ take k names)) as [Hin|Hin].
  - split; [tauto|]. by intros [[? [=]] _].
  - tauto.
Qed.

(** ** The primitives, as equations on worlds *)

Lemma tier_dir_Some w dir d : dirs w !! dir = Some d -> tier_dir w dir = d.
Proof. unfold tier_dir. by intros ->. Qed.

Lemma tier_dir_mk ds fs tr dir :
  tier_dir (mkWorld ds fs tr) dir = default ∅ (ds !! dir).
Proof. done. Qed.

Lemma tier_dir_log op w dir : tier_dir (log op w) dir = tier_dir w dir.
Proof. done. Qed.

Lemma entry_log p op w : entry p (log op w) = entry p w.
Proof. done. Qed.

Lemma MkdirAll_eq dir w :
  dir <> "" ->
  MkdirAll dir w
  = Returned None
      (mkWorld (<[dir := tier_dir w dir]> (dirs w)) (files w)
         (OpMkdirAll dir :: trace w)).
Proof.
  intros Hdir. unfold MkdirAll, tier_dir. rewrite decide_False by done.
  cbn [log dirs]. destruct (dirs w !! dir) as [d|] eqn:Hd; cbn.
  - by rewrite insert_id.
  - done.
Qed.

Lemma MkdirAll_empty w :
  MkdirAll "" w = Returned (Some ErrNotExist) (log (OpMkdirAll "") w).
Proof. done. Qed.

Lemma ReadDir_eq dir w :
  ReadDir dir w
  = Returned
      match dirs w !! dir with
      | Some d => (dir_names d, None)
      | None => ([], Some ErrNotExist)
      end
      (log (OpReadDir dir) w).
Proof. unfold ReadDir. cbn [log dirs]. by destruct (dirs w !! dir). Qed.

Lemma Stat_eq p w :
  Stat p w
  = Returned (match entry p w with Some _ => None | None => Some ErrNotExist end) (log (OpStat p) w).
Proof.
  unfold Stat. change (entry p (log (OpStat p) w)) with (entry p w).
  by destruct (entry p w).
Qed.

Lemma Remove_eq p w :
  Remove p w
  = Returned (match entry p w with Some _ => None | None => Some ErrNotExist end)
      (mkWorld (alter (delete (p_name p)) (p_dir p) (dirs w)) (files w)
         (OpRemove p :: trace w)).
Proof.
  unfold Remove. change (entry p (log (OpRemove p) w)) with (entry p w).
  destruct (entry p w) as [c|] eqn:Hentry; [done|].
  unfold log, set_dirs. do 2 f_equal. symmetry. apply alter_id.
  intros d Hd. apply delete_id.
  unfold entry in Hentry. by rewrite Hd in Hentry.
Qed.

Lemma Rename_eq src dst c dn w :
  entry src w = Some c -> dirs w !! p_dir dst = Some dn ->
  Rename src dst w
  = Returned None
      (mkWorld (alter (insert (p_name dst) c) (p_dir dst)
                  (alter (delete (p_name src)) (p_dir src) (dirs w)))
         (files w) (OpRename src dst :: trace w)).
Proof.
  intros Hsrc Hdst. unfold Rename.
  change (entry src (log (OpRename src dst) w)) with (entry src w).
  cbn [log dirs]. by rewrite Hsrc, Hdst.
Qed.

Lemma foldl_delete_lookup (d : gmap string string) olds name :
  foldl (fun acc old => delete old acc) d olds !! name
  = if decide (name ∈ olds) then None else d !! name.
Proof.
  revert d. induction olds as [|x olds IH]; intros d; [done|].
  cbn [foldl]. rewrite IH.
  destruct (decide (name ∈ olds)) as [Hin|Hin].
  - rewrite decide_True; [done | by right].
  - destruct (decide (name = x)) as [->|Hne].
    + rewrite lookup_delete_eq. rewrite decide_True; [done | left].
    + rewrite lookup_delete_ne by done.
      rewrite decide_False; [done|]. by intros [?|?]%elem_of_cons.
Qed.

Lemma artifacts_named d : Forall (fun old => old <> "") (artifacts d).
Proof.
  apply Forall_forall. intros old [_ Hs]%elem_of_artifacts ->.
  vm_compute in Hs. discriminate.
Qed.

Lemma remove_each_eq dir olds w :
  Forall (fun old => old <> "") olds ->
  remove_each dir olds w
  = Returned tt
      (mkWorld
         (alter (fun d => foldl (fun acc old => delete old acc) d olds) dir (dirs w))
         (files w)
         (reverse (map (fun old => OpRemove (Join dir old)) olds) ++ trace w)).
Proof.
  revert w. induction olds as [|old olds IH]; intros w Hnamed.
  - cbn. destruct w as [ds fs tr]. cbn. f_equal. by rewrite alter_id.
  - apply Forall_cons_1 in Hnamed as [Hold Hnamed].
    cbn [remove_each]. rewrite decide_False by done.
    unfold mbind, M_bind. rewrite Remove_eq, IH by done.
    cbn [dirs files trace p_dir p_name map]. f_equal. f_equal.
    + by rewrite alter_alter_eq.
    + by rewrite reverse_cons, <- app_assoc.
Qed.

(** ** Retention rotator *)

Lemma slice_to_take names cap n :
  (n <= length names)%nat -> slice_to names cap (Z.of_nat n) = Some (take n names).
Proof.
  intros Hn. unfold slice_to.
  rewrite (proj2 (Z.leb_le _ _)), (proj2 (Z.leb_le _ _)) by lia.
  by rewrite Nat2Z.id.
Qed.

(** The rotator in live mode, as one equation: the directory is created if
    need be, read, and the surplus removed oldest first. *)
Lemma rotateBackupsWithPromotion_eq `{GoRuntime} cfg level w :
  dir_of cfg level <> "" -> 0 <= keep_of cfg level ->
  let dir := dir_of cfg level in
  let d := tier_dir w dir in
  let victims :=
    take (length (artifacts d) - Z.to_nat (keep_of cfg level)) (artifacts d) in
  rotateBackupsWithPromotion cfg level false w
  = Returned None
      (mkWorld
         (<[dir := foldl (fun acc old => delete old acc) d victims]> (dirs w))
         (files w)
         (reverse (map (fun old => OpRemove (Join dir old)) victims)
          ++ OpReadDir dir :: OpMkdirAll dir :: trace w)).
Proof.
  intros Hdir Hkeep dir d victims.
  unfold rotateBackupsWithPromotion, mbind, M_bind.
  rewrite MkdirAll_eq by done. rewrite ReadDir_eq.
  cbn [dirs log files trace]. rewrite lookup_insert_eq.
  fold dir d. change (vhdx_names (dir_names d)) with (artifacts d).
  destruct (Z.gtb_spec (Z.of_nat (length (artifacts d))) (keep_of cfg level))
    as [Hgt|Hle].
  - replace (Z.of_nat (length (artifacts d)) - keep_of cfg level)
      with (Z.of_nat (length (artifacts d) - Z.to_nat (keep_of cfg level)))
      by lia.
    rewrite slice_to_take by lia. fold victims.
    rewrite remove_each_eq by (apply Forall_take, artifacts_named).
    cbn [dirs files trace log]. unfold mret, M_ret.
    by rewrite alter_insert_eq.
  - unfold mret, M_ret.
    replace victims with (@nil string); [done|].
    unfold victims.
    replace (length (artifacts d) - Z.to_nat (keep_of cfg level))%nat
      with 0%nat by lia.
    done.
Qed.

(** In dry-run mode the rotator makes sure of the directory, reads it and
    removes nothing. *)
Lemma rotateBackupsWithPromotion_dry_run `{GoRuntime} cfg level w :
  dir_of cfg level <> "" ->
  rotateBackupsWithPromotion cfg level true w
  = Returned None
      (mkWorld (<[dir_of cfg level := tier_dir w (dir_of cfg level)]> (dirs w))
         (files w)
         (OpReadDir (dir_of cfg level) :: OpMkdirAll (dir_of cfg level) :: trace w)).
Proof.
  intros Hdir. unfold rotateBackupsWithPromotion, mbind, M_bind.
  rewrite MkdirAll_eq by done. rewrite ReadDir_eq.
  cbn [dirs log files trace]. rewrite lookup_insert_eq.
  by destruct (_ >? _).
Qed.

(** C5: in live mode, for a tier with a directory path and a keep count
    that is not negative, the rotator returns no error and removes exactly
    the surplus, the [N - keepCount] smallest names, smallest first; every
    other entry of the directory and every other directory stay as they
    are; what remains listed are the [keepCount] largest names (all [N]
    when [N <= keepCount], where nothing is removed); a directory that did
    not exist is created empty and counts zero artifacts.  In dry-run mode
    the same calls are made up to the reading of the directory and nothing
    is removed. *)
Theorem rotate_keeps_newest `{GoRuntime} (cfg : BackupConfig) (level : string)
    (w : World) :
  dir_of cfg level <> "" -> 0 <= keep_of cfg level ->
  let dir := dir_of cfg level in
  let keep := Z.to_nat (keep_of cfg level) in
  let names := artifacts (tier_dir w dir) in
  let victims := take (length names - keep) names in
  (exists w',
    rotateBackupsWithPromotion cfg level false w = Returned None w'
    /\ trace w'
       = reverse (map (fun old => OpRemove (Join dir old)) victims)
         ++ OpReadDir dir :: OpMkdirAll dir :: trace w
    /\ is_Some (dirs w' !! dir)
    /\ (forall name,
          tier_dir w' dir !! name
          = if decide (name ∈ victims) then None else tier_dir w dir !! name)
    /\ (forall other, other <> dir -> dirs w' !! other = dirs w !! other)
    /\ files w' = files w
    /\ artifacts (tier_dir w' dir) = drop (length names - keep) names
    /\ length (artifacts (tier_dir w' dir)) = Nat.min (length names) keep
    /\ StronglySorted str_le victims
    /\ (forall old kept, old ∈ victims -> kept ∈ artifacts (tier_dir w' dir) ->
          str_le old kept /\ old <> kept)
    /\ (length names <= keep -> victims = [] /\ tier_dir w' dir = tier_dir w dir)%nat
    /\ (dirs w !! dir = None -> names = [] /\ tier_dir w' dir = ∅))
  /\ (exists w',
        rotateBackupsWithPromotion cfg level true w = Returned None w'
        /\ trace w' = OpReadDir dir :: OpMkdirAll dir :: trace w
        /\ same_tiers w w').
Proof.
  intros Hdir Hkeep dir keep names victims. split; cycle 1.
  { eexists. split; [by apply rotateBackupsWithPromotion_dry_run|].
    split; [done|]. intros dir'. rewrite tier_dir_mk.
    destruct (decide (dir' = dir_of cfg level)) as [->|Hne].
    - by rewrite lookup_insert_eq.
    - by rewrite lookup_insert_ne by (by apply not_eq_sym). }
  set (d := tier_dir w dir).
  set (d' := foldl (fun acc old => delete old acc) d victims).
  set (w' := mkWorld (<[dir := d']> (dirs w)) (files w)
            (reverse (map (fun old => OpRemove (Join dir old)) victims)
             ++ OpReadDir dir :: OpMkdirAll dir :: trace w)).
  exists w'. split; [by apply rotateBackupsWithPromotion_eq|].
  assert (Htd : tier_dir w' dir = d').
  { unfold tier_dir, w'. cbn [dirs]. by rewrite lookup_insert_eq. }
  rewrite !Htd. unfold w'. cbn [trace dirs files].
  assert (Hlook : forall name,
    d' !! name = if decide (name ∈ victims) then None else d !! name).
  { intros name. apply foldl_delete_lookup. }
  assert (Hart : artifacts d' = drop (length names - keep) names).
  { rewrite <- (artifacts_delete_oldest d). f_equal.
    apply map_eq. intros name. by rewrite Hlook, foldr_delete_lookup. }
  assert (Hsorted : StronglySorted str_le names) by apply artifacts_sorted.
  assert (Hnodup : NoDup names) by apply artifacts_NoDup.
  rewrite <- (take_drop (length names - keep) names) in Hsorted, Hnodup.
  fold victims in Hsorted, Hnodup.
  split; [done|]. split; [by rewrite lookup_insert_eq|].
  split; [done|]. split; [by intros other Ho; rewrite lookup_insert_ne|].
  split; [done|]. split; [done|].
  split; [rewrite Hart, length_drop; lia|].
  split; [by apply StronglySorted_app_1_l in Hsorted|].
  split; [|split].
  - intros old kept Hold Hkept. rewrite Hart in Hkept. split.
    + by eapply StronglySorted_app_1_elem_of.
    + intros ->. apply NoDup_app in Hnodup as (_ & Hdisj & _).
      by apply (Hdisj kept).
  - intros Hle. assert (victims = []) as Hv.
    { unfold victims.
      replace (length names - keep)%nat with 0%nat by lia. done. }
    split; [done|]. unfold d'. by rewrite Hv.
  - intros Hnone. assert (d = ∅) as Hd by (unfold d, tier_dir; by rewrite Hnone).
    assert (names = []) as Hn by (unfold names; fold d; by rewrite Hd).
    split; [done|]. unfold d', victims. rewrite Hn, Hd. done.
Qed.

(** ** Tier promoter: one pair *)

Section PromotePair.
Context (over : Z -> Z -> bool) (cfg : BackupConfig) (cur next : string).
Local Abbreviation curDir := (dir_of cfg cur).
Local Abbreviation nextDir := (dir_of cfg next).
Local Abbreviation keep := (keep_of cfg cur).

(** Live mode, nothing to promote: the source directory is missing, or the
    count does not pass the test. *)
Lemma promote_pair_stay w :
  nextDir <> "" -> curDir <> nextDir ->
  dirs w !! curDir = None
  \/ over (Z.of_nat (length (artifacts (tier_dir w curDir)))) keep = false ->
  promote_pair over cfg false cur next w = Returned tt (examined cfg cur next w).
Proof.
  intros Hnext Hne Hstay. unfold promote_pair, mbind, M_bind.
  rewrite MkdirAll_eq by done. rewrite ReadDir_eq.
  cbn [dirs log files trace]. rewrite lookup_insert_ne by done.
  destruct (dirs w !! curDir) as [d|] eqn:Hd; [|done].
  destruct Hstay as [[=]|Hstay].
  rewrite (tier_dir_Some _ _ _ Hd) in Hstay.
  change (vhdx_names (dir_names d)) with (artifacts d). by rewrite Hstay.
Qed.

(** Live mode, the test passes and the destination has no entry of the
    name: the oldest artifact is renamed into the next directory. *)
Lemma promote_pair_move w d old rest c :
  nextDir <> "" -> curDir <> nextDir ->
  dirs w !! curDir = Some d -> artifacts d = old :: rest ->
  over (Z.of_nat (length (artifacts d))) keep = true ->
  d !! old = Some c -> tier_dir w nextDir !! old = None ->
  promote_pair over cfg false cur next w
  = Returned tt
      (mkWorld
         (<[nextDir := <[old := c]> (tier_dir w nextDir)]>
            (<[curDir := delete old d]> (dirs w)))
         (files w)
         (OpRename (Join curDir old) (Join nextDir old)
          :: OpStat (Join nextDir old)
          :: OpReadDir curDir :: OpMkdirAll nextDir :: trace w)).
Proof.
  intros Hnext Hne Hd Hart Hover Hc Hfree. unfold promote_pair, mbind, M_bind.
  rewrite MkdirAll_eq by done. rewrite ReadDir_eq.
  cbn [dirs log files trace]. rewrite lookup_insert_ne, Hd by done.
  change (vhdx_names (dir_names d)) with (artifacts d).
  rewrite Hover, Hart. rewrite Stat_eq. unfold log. cbn [dirs files trace].
  unfold entry at 1. cbn [dirs p_dir p_name]. rewrite lookup_insert_eq.
  cbn [mbind option_bind]. rewrite Hfree. cbn [IsNotExist].
  erewrite Rename_eq; cycle 1.
  { unfold entry. cbn [dirs log p_dir p_name].
    rewrite lookup_insert_ne, Hd by done. exact Hc. }
  { cbn [dirs log p_dir]. apply lookup_insert_eq. }
  cbn [dirs log files trace p_dir p_name]. unfold mret, M_ret. do 2 f_equal.
  rewrite alter_insert_ne by done. rewrite alter_insert_eq.
  by rewrite (alter_alt_Some _ _ _ d).
Qed.

(** Live mode, the test passes and the destination already has an entry of
    the name: the oldest artifact is removed from the source directory. *)
Lemma promote_pair_collide w d old rest c' :
  nextDir <> "" -> curDir <> nextDir ->
  dirs w !! curDir = Some d -> artifacts d = old :: rest ->
  over (Z.of_nat (length (artifacts d))) keep = true ->
  tier_dir w nextDir !! old = Some c' ->
  promote_pair over cfg false cur next w
  = Returned tt
      (mkWorld
         (<[nextDir := tier_dir w nextDir]> (<[curDir := delete old d]> (dirs w)))
         (files w)
         (OpRemove (Join curDir old)
          :: OpStat (Join nextDir old)
          :: OpReadDir curDir :: OpMkdirAll nextDir :: trace w)).
Proof.
  intros Hnext Hne Hd Hart Hover Htaken. unfold promote_pair, mbind, M_bind.
  rewrite MkdirAll_eq by done. rewrite ReadDir_eq.
  cbn [dirs log files trace]. rewrite lookup_insert_ne, Hd by done.
  change (vhdx_names (dir_names d)) with (artifacts d).
  rewrite Hover, Hart. rewrite Stat_eq. unfold log. cbn [dirs files trace].
  unfold entry at 1. cbn [dirs p_dir p_name]. rewrite lookup_insert_eq.
  cbn [mbind option_bind]. rewrite Htaken. cbn [IsNotExist].
  rewrite Remove_eq.
  cbn [dirs log files trace p_dir p_name]. unfold mret, M_ret. do 2 f_equal.
  rewrite alter_insert_ne by done.
  by rewrite (alter_alt_Some _ _ _ d).
Qed.

(** The test passes on an empty listing: [names[0]] is out of range. *)
Lemma promote_pair_panic w d :
  nextDir <> "" -> curDir <> nextDir ->
  dirs w !! curDir = Some d -> artifacts d = [] ->
  over 0 keep = true ->
  promote_pair over cfg false cur next w = Panicked (examined cfg cur next w).
Proof.
  intros Hnext Hne Hd Hart Hover. unfold promote_pair, mbind, M_bind.
  rewrite MkdirAll_eq by done. rewrite ReadDir_eq.
  cbn [dirs log files trace]. rewrite lookup_insert_ne, Hd by done.
  change (vhdx_names (dir_names d)) with (artifacts d).
  rewrite Hart. change (Z.of_nat (length [])) with 0. by rewrite Hover.
Qed.

End PromotePair.

(** ** Frame rules *)

Section Preserves.
Context (R : relation World) `{!PreOrder R}.

Lemma preserves_ret {A} (a : A) : preserves R (mret a).
Proof. intros w. reflexivity. Qed.

Lemma preserves_panic {A} : preserves R (@panic A).
Proof. intros w. reflexivity. Qed.

Lemma preserves_bind {A B} (m : M A) (f : A -> M B) :
  preserves R m -> (forall a, preserves R (f a)) -> preserves R (m ≫= f).
Proof.
  intros Hm Hf w. unfold mbind, M_bind. specialize (Hm w).
  destruct (m w) as [a w1|w1]; [|done].
  etrans; [exact Hm | apply Hf].
Qed.

End Preserves.

Global Instance untouched_preorder P : PreOrder (untouched P).
Proof.
  split.
  - by intros w dir name _.
  - intros w1 w2 w3 H12 H23 dir name HP. by rewrite H23, H12.
Qed.

Global Instance trace_extends_preorder : PreOrder trace_extends.
Proof.
  split.
  - intros w. by exists [].
  - intros w1 w2 w3 [c1 H1] [c2 H2]. exists (c2 ++ c1).
    by rewrite H2, H1, app_assoc.
Qed.

Global Instance same_tiers_preorder : PreOrder same_tiers.
Proof.
  split.
  - by intros w dir.
  - intros w1 w2 w3 H12 H23 dir. by rewrite H23, H12.
Qed.

Lemma tier_dir_alter f dir' w fs tr dir :
  tier_dir (mkWorld (alter f dir' (dirs w)) fs tr) dir
  = if decide (dir = dir')
    then match dirs w !! dir with Some d => f d | None => ∅ end
    else tier_dir w dir.
Proof.
  unfold tier_dir. cbn [dirs]. case_decide as Hd.
  - subst. rewrite lookup_alter_eq. by destruct (dirs w !! dir').
  - by rewrite lookup_alter_ne.
Qed.

Section Untouched.
Context (P : string -> string -> Prop).

Lemma MkdirAll_same_tiers dir : preserves same_tiers (MkdirAll dir).
Proof.
  intros w dir'. unfold MkdirAll. case_decide; [done|].
  cbn [log dirs]. destruct (dirs w !! dir) as [d|] eqn:Hd; [done|].
  cbn [world_of]. unfold set_dirs, tier_dir. cbn [dirs].
  destruct (decide (dir' = dir)) as [->|Hne].
  - by rewrite lookup_insert_eq, Hd.
  - by rewrite lookup_insert_ne.
Qed.

Lemma same_tiers_untouched w w' : same_tiers w w' -> untouched P w w'.
Proof. intros Hs dir name _. by rewrite Hs. Qed.

Lemma MkdirAll_untouched dir : preserves (untouched P) (MkdirAll dir).
Proof. intros w. apply same_tiers_untouched, MkdirAll_same_tiers. Qed.

Lemma ReadDir_untouched dir : preserves (untouched P) (ReadDir dir).
Proof. intros w. rewrite ReadDir_eq. done. Qed.

Lemma Stat_untouched p : preserves (untouched P) (Stat p).
Proof. intros w. rewrite Stat_eq. done. Qed.

Lemma alter_lookup_same (f : gmap string string -> gmap string string)
    k (ds : gmap string (gmap string string)) dir name :
  (dir = k -> forall d, f d !! name = d !! name) ->
  default ∅ (alter f k ds !! dir) !! name = default ∅ (ds !! dir) !! name.
Proof.
  intros Hf. destruct (decide (dir = k)) as [->|Hne].
  - rewrite lookup_alter_eq. destruct (ds !! k) as [d|]; [|done]. by apply Hf.
  - by rewrite lookup_alter_ne.
Qed.

Lemma Remove_dir_same_tiers dir : preserves same_tiers (Remove_dir dir).
Proof.
  intros w D. unfold Remove_dir. cbn [log dirs].
  destruct (dirs w !! dir) as [d|] eqn:Hd; [|done].
  case_decide as Hempty; [|done]. cbn [world_of]. unfold set_dirs, tier_dir.
  cbn [dirs]. destruct (decide (D = dir)) as [->|Hne].
  - by rewrite lookup_delete_eq, Hd, Hempty.
  - by rewrite lookup_delete_ne by (by apply not_eq_sym).
Qed.

Lemma Remove_dir_untouched dir : preserves (untouched P) (Remove_dir dir).
Proof. intros w. apply same_tiers_untouched, Remove_dir_same_tiers. Qed.

Lemma Remove_untouched p :
  ~ P (p_dir p) (p_name p) -> preserves (untouched P) (Remove p).
Proof.
  intros HnP w dir name HP. rewrite Remove_eq. cbn [world_of].
  unfold tier_dir. cbn [dirs]. apply alter_lookup_same.
  intros -> d. apply lookup_delete_ne. by intros <-.
Qed.

Lemma Rename_untouched src dst :
  ~ P (p_dir src) (p_name src) -> ~ P (p_dir dst) (p_name dst) ->
  preserves (untouched P) (Rename src dst).
Proof.
  intros Hsrc Hdst w dir name HP. unfold Rename.
  change (entry src (log (OpRename src dst) w)) with (entry src w).
  cbn [log dirs].
  destruct (entry src w) as [c|]; [|done].
  destruct (dirs w !! p_dir dst) as [dn|] eqn:Hdn; [|done].
  cbn [world_of]. unfold set_dirs, tier_dir. cbn [dirs].
  rewrite alter_lookup_same.
  - apply alter_lookup_same. intros -> d. apply lookup_delete_ne. by intros <-.
  - intros -> d. apply lookup_insert_ne. by intros <-.
Qed.

End Untouched.

(** The rotator and the promoter keep every relation that the primitives
    keep; removals and renames are only asked to keep it on artifact names
    in the directories [touch] allows. *)
Section CoreFrames.
Context `{GoRuntime}.
Context (R : relation World) `{!PreOrder R} (touch : string -> Prop).
Context (HMkdirAll : forall dir, preserves R (MkdirAll dir)).
Context (HReadDir : forall dir, preserves R (ReadDir dir)).
Context (HStat : forall p, preserves R (Stat p)).
Context (HRemove : forall dir old,
  touch dir -> HasSuffix old ".vhdx" = true -> preserves R (Remove (Join dir old))).
Context (HRemoveDir : forall dir, touch dir -> preserves R (Remove_dir dir)).
Context (HRename : forall dir dir' old,
  touch dir -> touch dir' -> HasSuffix old ".vhdx" = true ->
  preserves R (Rename (Join dir old) (Join dir' old))).

Lemma remove_each_preserves dir olds :
  touch dir ->
  Forall (fun old => old = "" \/ HasSuffix old ".vhdx" = true) olds ->
  preserves R (remove_each dir olds).
Proof.
  intros Hdir. induction olds as [|old olds IH]; intros Hold; cbn [remove_each].
  - apply preserves_ret, _.
  - apply Forall_cons_1 in Hold as [Hold Holds].
    apply preserves_bind; [apply _ | | intros _; by apply IH].
    case_decide as Hempty; [by apply HRemoveDir|].
    destruct Hold as [?|Hold]; [done|]. by apply HRemove.
Qed.

Lemma rotateBackupsWithPromotion_preserves cfg level dryRun :
  touch (dir_of cfg level) ->
  preserves R (rotateBackupsWithPromotion cfg level dryRun).
Proof.
  intros Hdir. unfold rotateBackupsWithPromotion.
  apply preserves_bind; [apply _ | apply HMkdirAll |].
  intros [e|]; [apply preserves_ret, _|].
  apply preserves_bind; [apply _ | apply HReadDir |].
  intros [entries [e|]]; [apply preserves_ret, _|].
  destruct (_ >? _); [|apply preserves_ret, _].
  destruct dryRun; [apply preserves_ret, _|].
  destruct (slice_to _ _ _) as [olds|] eqn:Hslice; [|apply preserves_panic, _].
  apply preserves_bind; [apply _ | | intros _; apply preserves_ret, _].
  apply remove_each_preserves; [done|]. apply Forall_forall. intros old Hold.
  unfold slice_to in Hslice. destruct (_ && _).
  - injection Hslice as <-. apply subseteq_take in Hold. right.
    by apply elem_of_vhdx_names in Hold as [_ ?].
  - destruct (_ && _); [|done]. injection Hslice as <-.
    apply elem_of_app in Hold as [Hold|Hold].
    + right. by apply elem_of_vhdx_names in Hold as [_ ?].
    + left. by apply elem_of_replicate in Hold as [? _].
Qed.

Lemma promote_pair_preserves over cfg dryRun cur next :
  touch (dir_of cfg cur) -> touch (dir_of cfg next) ->
  preserves R (promote_pair over cfg dryRun cur next).
Proof.
  intros Hcur Hnext. unfold promote_pair.
  apply preserves_bind; [apply _ | |].
  { destruct dryRun; [apply preserves_ret, _ | apply HMkdirAll]. }
  intros [e|]; [apply preserves_ret, _|].
  apply preserves_bind; [apply _ | apply HReadDir |].
  intros [entries [e|]]; [apply preserves_ret, _|].
  destruct (over _ _); [|apply preserves_ret, _].
  destruct (vhdx_names entries) as [|old rest] eqn:Hnames;
    [apply preserves_panic, _|].
  assert (HasSuffix old ".vhdx" = true) as Hold.
  { assert (old ∈ vhdx_names entries) as Hin by (rewrite Hnames; left).
    by apply elem_of_vhdx_names in Hin as [_ ?]. }
  destruct dryRun; [apply preserves_ret, _|].
  apply preserves_bind; [apply _ | apply HStat |].
  intros err. destruct (IsNotExist err).
  - apply preserves_bind; [apply _ | | intros _; apply preserves_ret, _].
    by apply HRename.
  - apply preserves_bind; [apply _ | | intros _; apply preserves_ret, _].
    by apply HRemove.
Qed.

Lemma promote_loop_preserves over cfg dryRun lvls :
  Forall (fun lvl => touch (dir_of cfg lvl)) lvls ->
  preserves R (promote_loop over cfg dryRun lvls).
Proof.
  induction lvls as [|cur [|next rest] IH]; intros Hall;
    [apply preserves_ret, _..|].
  cbn [promote_loop]. apply preserves_bind; [apply _ | |].
  - apply promote_pair_preserves.
    + by apply Forall_cons_1 in Hall as [? _].
    + by apply Forall_cons_1 in Hall as [_ [? _]%Forall_cons_1].
  - intros _. apply IH. by apply Forall_cons_1 in Hall as [_ ?].
Qed.

Lemma rotate_loop_preserves cfg lvls :
  Forall (fun lvl => touch (dir_of cfg lvl)) lvls ->
  preserves R (rotate_loop cfg lvls).
Proof.
  induction lvls as [|lvl rest IH]; intros Hall; [apply preserves_ret, _|].
  cbn [rotate_loop]. apply Forall_cons_1 in Hall as [Hlvl Hrest].
  apply preserves_bind; [apply _ | |].
  - by apply rotateBackupsWithPromotion_preserves.
  - intros _. by apply IH.
Qed.

End CoreFrames.

(** Instance: entries selected by [P] are untouched as long as [P] spares
    the artifacts of the directories worked on. *)
Section UntouchedCore.
Context `{GoRuntime}.
Context (P : string -> string -> Prop).

Lemma Remove_untouched_artifact dir old :
  spares P dir -> HasSuffix old ".vhdx" = true ->
  preserves (untouched P) (Remove (Join dir old)).
Proof. intros Hsp Hold. apply Remove_untouched. by apply Hsp. Qed.

Lemma Rename_untouched_artifact dir dir' old :
  spares P dir -> spares P dir' -> HasSuffix old ".vhdx" = true ->
  preserves (untouched P) (Rename (Join dir old) (Join dir' old)).
Proof.
  intros Hsp Hsp' Hold. apply Rename_untouched; [by apply Hsp | by apply Hsp'].
Qed.

Lemma rotateBackupsWithPromotion_untouched cfg level dryRun :
  spares P (dir_of cfg level) ->
  preserves (untouched P) (rotateBackupsWithPromotion cfg level dryRun).
Proof.
  apply (rotateBackupsWithPromotion_preserves _ (spares P));
    auto using MkdirAll_untouched, ReadDir_untouched,
      Remove_untouched_artifact, Remove_dir_untouched.
Qed.

Lemma promote_loop_untouched over cfg dryRun lvls :
  Forall (fun lvl => spares P (dir_of cfg lvl)) lvls ->
  preserves (untouched P) (promote_loop over cfg dryRun lvls).
Proof.
  apply (promote_loop_preserves _ (spares P));
    auto using MkdirAll_untouched, ReadDir_untouched, Stat_untouched,
      Remove_untouched_artifact, Rename_untouched_artifact.
Qed.

Lemma rotate_loop_untouched cfg lvls :
  Forall (fun lvl => spares P (dir_of cfg lvl)) lvls ->
  preserves (untouched P) (rotate_loop cfg lvls).
Proof.
  apply (rotate_loop_preserves _ (spares P));
    auto using MkdirAll_untouched, ReadDir_untouched,
      Remove_untouched_artifact, Remove_dir_untouched.
Qed.

End UntouchedCore.

(** Instance: the trace only grows. *)
Lemma log_trace_extends op w : trace_extends w (log op w).
Proof. by exists [op]. Qed.

Lemma MkdirAll_trace dir : preserves trace_extends (MkdirAll dir).
Proof.
  intros w. unfold MkdirAll. case_decide; [by exists [OpMkdirAll dir]|].
  cbn [log dirs]. destruct (dirs w !! dir); by exists [OpMkdirAll dir].
Qed.

Lemma ReadDir_trace dir : preserves trace_extends (ReadDir dir).
Proof. intros w. rewrite ReadDir_eq. by exists [OpReadDir dir]. Qed.

Lemma Stat_trace p : preserves trace_extends (Stat p).
Proof. intros w. rewrite Stat_eq. by exists [OpStat p]. Qed.

Lemma Remove_trace p : preserves trace_extends (Remove p).
Proof. intros w. rewrite Remove_eq. by exists [OpRemove p]. Qed.

Lemma Rename_trace src dst : preserves trace_extends (Rename src dst).
Proof.
  intros w. unfold Rename. rewrite entry_log. cbn [log dirs].
  destruct (entry src w); [|by exists [OpRename src dst]].
  destruct (dirs w !! p_dir dst); by exists [OpRename src dst].
Qed.

Lemma promote_loop_trace over cfg dryRun lvls :
  preserves trace_extends (promote_loop over cfg dryRun lvls).
Proof.
  apply (promote_loop_preserves _ (fun _ => True));
    auto using MkdirAll_trace, ReadDir_trace, Stat_trace, Remove_trace,
      Rename_trace.
  by apply Forall_forall.
Qed.

(** ** Entries that are not artifacts *)

Lemma spares_non_artifacts dir :
  spares (fun _ name => HasSuffix name ".vhdx" = false) dir.
Proof. intros name Hs. by rewrite Hs. Qed.

(** C10: whatever the configuration, the mode, the levels and the world, an
    entry whose name does not end in [.vhdx] is the same after a rotation,
    after a promotion (either copy) and after the whole rotation block of
    [runBackup] as before: same presence, same content, also when the
    computation panics.  Such entries are not counted: adding or deleting
    one leaves the listing that is compared with the keep count as it
    is.  Negative keep counts are included: with one, the rotator takes
    empty names from the spare capacity of the listing and calls
    [os.Remove] on the directory, which goes only when it is empty. *)
Theorem non_artifacts_untouched `{GoRuntime} (cfg : BackupConfig)
    (dryRun : bool) (lvls : list string) (level : string) (w : World) :
  let kept w' :=
    forall dir name, HasSuffix name ".vhdx" = false ->
      tier_dir w' dir !! name = tier_dir w dir !! name in
  kept (world_of (rotateBackupsWithPromotion cfg level dryRun w))
  /\ kept (world_of (promoteBackup cfg dryRun lvls w))
  /\ kept (world_of (promoteBackup_part_001 cfg dryRun lvls w))
  /\ kept (world_of (runBackup_rotation cfg w))
  /\ (forall d name c, HasSuffix name ".vhdx" = false ->
        artifacts (<[name := c]> d) = artifacts d
        /\ artifacts (delete name d) = artifacts d).
Proof.
  set (P := fun (_ name : string) => HasSuffix name ".vhdx" = false).
  assert (Hall : forall l, Forall (fun lvl => spares P (dir_of cfg lvl)) l).
  { intros l. apply Forall_forall. intros lvl _. apply spares_non_artifacts. }
  intros kept. split; [|split; [|split; [|split]]].
  - apply (rotateBackupsWithPromotion_untouched P), spares_non_artifacts.
  - apply (promote_loop_untouched P), Hall.
  - apply (promote_loop_untouched P), Hall.
  - unfold runBackup_rotation.
    apply (preserves_bind (untouched P)).
    + apply (promote_loop_untouched P), Hall.
    + intros _. apply (rotate_loop_untouched P), Hall.
  - intros d name c Hs. split.
    + by apply artifacts_insert_other.
    + by apply artifacts_delete_other.
Qed.

(** ** Tier promoter: threshold *)

Lemma artifacts_delete_head d old rest :
  artifacts d = old :: rest -> artifacts (delete old d) = rest.
Proof.
  intros Hart. pose proof (artifacts_delete_oldest d 1) as H1.
  rewrite Hart in H1. exact H1.
Qed.

Lemma artifacts_head_min d old rest :
  artifacts d = old :: rest ->
  Forall (fun other => str_le old other /\ old <> other) rest.
Proof.
  intros Hart. pose proof (artifacts_sorted d) as Hs.
  pose proof (artifacts_NoDup d) as Hnd. rewrite Hart in Hs, Hnd.
  apply StronglySorted_inv in Hs as [_ Hle].
  apply NoDup_cons in Hnd as [Hnotin _].
  apply Forall_forall. intros other Hin. split.
  - by eapply Forall_forall in Hle.
  - by intros <-.
Qed.

Lemma artifacts_head_lookup d old rest :
  artifacts d = old :: rest -> is_Some (d !! old).
Proof.
  intros Hart. assert (old ∈ artifacts d) as Hin by (rewrite Hart; left).
  by apply elem_of_artifacts in Hin as [? _].
Qed.

(** When the test passes on a listing that is not empty, the step
    promotes the oldest artifact. *)
Lemma promote_pair_promotes over cfg cur next w d :
  dir_of cfg next <> "" -> dir_of cfg cur <> dir_of cfg next ->
  dirs w !! dir_of cfg cur = Some d -> artifacts d <> [] ->
  over (Z.of_nat (length (artifacts d))) (keep_of cfg cur) = true ->
  promotes_oldest over cfg cur next w d.
Proof.
  intros Hnext Hne Hd Hnonempty Hover.
  destruct (artifacts d) as [|old rest] eqn:Hart; [done|]. clear Hnonempty.
  destruct (artifacts_head_lookup _ _ _ Hart) as [c Hc].
  rewrite <- Hart in Hover.
  unfold promotes_oldest. exists old, rest, c.
  destruct (tier_dir w (dir_of cfg next) !! old) as [c'|] eqn:Hdst.
  - eexists. split; [done|]. split; [done|].
    split; [by eapply artifacts_head_min|].
    split; [by eapply promote_pair_collide|].
    rewrite !tier_dir_mk. cbn [dirs files trace].
    rewrite lookup_insert_eq, lookup_insert_ne, lookup_insert_eq by done.
    cbn [default]. split; [done|]. split; [by apply artifacts_delete_head|].
    split; [|done]. intros dir H1 H2. by rewrite !lookup_insert_ne.
  - eexists. split; [done|]. split; [done|].
    split; [by eapply artifacts_head_min|].
    split; [by eapply promote_pair_move|].
    rewrite !tier_dir_mk. cbn [dirs files trace].
    rewrite lookup_insert_eq, lookup_insert_ne, lookup_insert_eq by done.
    cbn [default]. split; [done|]. split; [by apply artifacts_delete_head|].
    split; [|done]. intros dir H1 H2. by rewrite !lookup_insert_ne.
Qed.

Lemma tier_dir_examined cfg cur next w dir :
  tier_dir (examined cfg cur next w) dir = tier_dir w dir.
Proof.
  unfold examined. rewrite tier_dir_mk.
  destruct (decide (dir = dir_of cfg next)) as [->|Hne].
  - by rewrite lookup_insert_eq.
  - by rewrite lookup_insert_ne.
Qed.

(** The two outcomes exclude each other. *)
Lemma promotes_oldest_not_nothing over cfg cur next w d :
  dirs w !! dir_of cfg cur = Some d ->
  promotes_oldest over cfg cur next w d -> ~ promotes_nothing over cfg cur next w.
Proof.
  intros Hd (old & rest & c & w' & _ & Hc & _ & Hrun & Hcur & _) Hstay.
  unfold promotes_nothing in Hstay. rewrite Hrun in Hstay.
  injection Hstay as ->. rewrite tier_dir_examined in Hcur.
  rewrite (tier_dir_Some _ _ _ Hd) in Hcur.
  rewrite Hcur, lookup_delete_eq in Hc. done.
Qed.

Global Instance retained_preorder dir : PreOrder (retained dir).
Proof.
  split.
  - by intros w name c.
  - intros w1 w2 w3 H12 H23 name c Hc. by apply H23, H12.
Qed.

Lemma same_tiers_retained dir w w' : same_tiers w w' -> retained dir w w'.
Proof. intros Hs name c. by rewrite Hs. Qed.

(** A promotion step takes entries out of its source directory only. *)
Lemma promote_pair_retained over cfg dryRun cur next dir :
  dir <> dir_of cfg cur ->
  preserves (retained dir) (promote_pair over cfg dryRun cur next).
Proof.
  intros Hdir w. unfold promote_pair, mbind, M_bind.
  set (curDir := dir_of cfg cur) in *. set (nextDir := dir_of cfg next).
  assert (Hmk : exists w1 err,
    (if dryRun then mret None else MkdirAll nextDir) w = Returned err w1
    /\ same_tiers w w1).
  { destruct dryRun.
    - by exists w, None.
    - pose proof (MkdirAll_same_tiers nextDir w) as Hs.
      destruct (MkdirAll nextDir w) as [err w1|w1] eqn:Hrun.
      + by exists w1, err.
      + unfold MkdirAll in Hrun. case_decide; [done|].
        cbn [log dirs] in Hrun. by destruct (dirs w !! nextDir). }
  destruct Hmk as (w1 & err & -> & Hs1).
  destruct err as [e|]; [by apply same_tiers_retained|].
  rewrite ReadDir_eq.
  destruct (dirs w1 !! curDir) as [d|] eqn:Hd; [|by apply same_tiers_retained].
  destruct (over _ _); [|by apply same_tiers_retained].
  destruct (vhdx_names (dir_names d)) as [|old rest];
    [by apply same_tiers_retained|].
  destruct dryRun; [by apply same_tiers_retained|].
  rewrite Stat_eq. change (entry ?p (log ?op ?w)) with (entry p w).
  destruct (entry (Join nextDir old) w1) as [c'|] eqn:Hdst; cbn [IsNotExist].
  - rewrite Remove_eq. cbn [world_of mret M_ret].
    intros name c Hc. rewrite <- Hs1 in Hc.
    unfold tier_dir in *. cbn [dirs p_dir p_name log].
    by rewrite lookup_alter_ne by (by apply not_eq_sym).
  - unfold Rename. rewrite !entry_log.
    cbn [log dirs p_dir p_name].
    destruct (entry (Join curDir old) w1) as [c0|];
      [|by apply same_tiers_retained].
    destruct (dirs w1 !! nextDir) as [dn|] eqn:Hdn;
      [|by apply same_tiers_retained].
    cbn [world_of mret M_ret]. intros name c Hc. rewrite <- Hs1 in Hc.
    unfold set_dirs, tier_dir in *. cbn [dirs] in *.
    destruct (decide (dir = nextDir)) as [->|Hne].
    + rewrite lookup_alter_eq, lookup_alter_ne by (by apply not_eq_sym).
      rewrite Hdn in Hc |- *. cbn [default fmap option_fmap option_map] in *.
      unfold entry in Hdst. cbn [p_dir p_name] in Hdst.
      rewrite Hdn in Hdst. cbn in Hdst. unfold id in *.
      rewrite lookup_insert_ne; [done|]. intros <-. congruence.
    + by rewrite !lookup_alter_ne by (by apply not_eq_sym).
Qed.

(** The promotion loop takes nothing out of a directory that is not the
    source of one of its pairs; the directory of the last level is the
    destination of the last pair and the source of none. *)
Lemma promote_loop_retained over cfg dryRun lvls last dir :
  Forall (fun lvl => dir <> dir_of cfg lvl) lvls ->
  preserves (retained dir) (promote_loop over cfg dryRun (lvls ++ [last])).
Proof.
  induction lvls as [|cur rest IH]; intros Hall; [apply preserves_ret, _|].
  apply Forall_cons_1 in Hall as [Hcur Hrest].
  change ((cur :: rest) ++ [last]) with (cur :: (rest ++ [last])).
  destruct (rest ++ [last]) as [|next rest'] eqn:Hlist.
  { by destruct rest. }
  cbn [promote_loop]. apply preserves_bind; [apply _ | |].
  - by apply promote_pair_retained.
  - intros _. by apply IH.
Qed.

(** In dry-run mode a promotion step reads the source directory and
    changes nothing. *)
Lemma promote_pair_dry_run over cfg cur next :
  preserves same_tiers (promote_pair over cfg true cur next).
Proof.
  intros w. unfold promote_pair, mbind, M_bind. cbn [mret M_ret].
  rewrite ReadDir_eq. destruct (dirs w !! dir_of cfg cur) as [d|]; [|done].
  destruct (over _ _); [|done]. by destruct (vhdx_names _).
Qed.


(** The two tests on a tier with a positive keep count: what each does
    at the count on which they disagree and beyond. *)
Lemma promoteBackup_pair_cases cfg cur next w d :
  dir_of cfg next <> "" -> dir_of cfg cur <> dir_of cfg next ->
  0 < keep_of cfg cur -> dirs w !! dir_of cfg cur = Some d ->
  (Z.of_nat (length (artifacts d)) <= keep_of cfg cur ->
     promotes_nothing Z.gtb cfg cur next w)
  /\ (keep_of cfg cur <= Z.of_nat (length (artifacts d)) ->
      promotes_oldest Z.geb cfg cur next w d).
Proof.
  intros Hnext Hne Hkeep Hd.
  assert (Hcount : tier_dir w (dir_of cfg cur) = d) by by apply tier_dir_Some.
  split.
  - intros Hle. apply promote_pair_stay; try done. right. rewrite Hcount.
    destruct (Z.gtb_spec (Z.of_nat (length (artifacts d))) (keep_of cfg cur));
      [lia | done].
  - intros Hle. apply promote_pair_promotes; try done.
    + intros Hnil. rewrite Hnil in Hle. cbn in Hle. lia.
    + by apply Z.geb_le.
Qed.

(** C2, as the code has it: for a pair of tiers with distinct directories,
    in live mode and with a positive keep count, [promoteBackup] of
    [src/main.go] promotes exactly when the count exceeds the keep count,
    and the copy in [src/unnamed/part_001] exactly when the count reaches
    it.  Promoting means: the first name of the sorted listing leaves the
    source directory by a rename into the next directory (or is removed
    when the name is taken there), and nothing else changes.  The loop
    runs the four pairs of the chain in order, and no entry ever leaves
    the directory of the last level, 1d.  In dry-run mode a step changes
    no directory. *)
Theorem promoteBackup_threshold (cfg : BackupConfig) (cur next : string)
    (w : World) (d : gmap string string) :
  dir_of cfg next <> "" -> dir_of cfg cur <> dir_of cfg next ->
  0 < keep_of cfg cur -> dirs w !! dir_of cfg cur = Some d ->
  let n := Z.of_nat (length (artifacts d)) in
  let keep := keep_of cfg cur in
  (keep < n -> promotes_oldest Z.gtb cfg cur next w d)
  /\ (n <= keep -> promotes_nothing Z.gtb cfg cur next w)
  /\ (keep <= n -> promotes_oldest Z.geb cfg cur next w d)
  /\ (n < keep -> promotes_nothing Z.geb cfg cur next w)
  /\ (forall over, promotes_oldest over cfg cur next w d ->
        ~ promotes_nothing over cfg cur next w)
  /\ (forall over dryRun,
        promote_loop over cfg dryRun levels
        = (_ ← promote_pair over cfg dryRun "30m" "3h";
           _ ← promote_pair over cfg dryRun "3h" "6h";
           _ ← promote_pair over cfg dryRun "6h" "12h";
           _ ← promote_pair over cfg dryRun "12h" "1d";
           mret tt))
  /\ (forall over dryRun w0,
        Forall (fun lvl => dir_of cfg "1d" <> dir_of cfg lvl)
          ["30m"; "3h"; "6h"; "12h"] ->
        retained (dir_of cfg "1d") w0
          (world_of (promote_loop over cfg dryRun levels w0)))
  /\ (forall over,
        same_tiers w (world_of (promote_pair over cfg true cur next w))).
Proof.
  intros Hnext Hne Hkeep Hd n keep.
  assert (Hnonempty : keep <= n -> artifacts d <> []).
  { intros Hle Hnil. unfold n in Hle. rewrite Hnil in Hle. cbn in Hle. lia. }
  assert (Hcount : tier_dir w (dir_of cfg cur) = d) by by apply tier_dir_Some.
  split; [|split; [|split; [|split; [|split; [|split; [|split]]]]]];
    [..|intros over; apply promote_pair_dry_run].
  - intros Hlt. apply promote_pair_promotes; try done.
    + apply Hnonempty. lia.
    + apply Z.gtb_lt. done.
  - intros Hle. apply promote_pair_stay; try done. right. rewrite Hcount.
    fold n keep. destruct (Z.gtb_spec n keep); [lia | done].
  - intros Hle. apply promote_pair_promotes; try done.
    + by apply Hnonempty.
    + apply Z.geb_le. done.
  - intros Hlt. apply promote_pair_stay; try done. right. rewrite Hcount.
    fold n keep. destruct (Z.geb_spec n keep); [lia | done].
  - intros over. by apply promotes_oldest_not_nothing.
  - done.
  - intros over dryRun w0 Hall.
    by apply (promote_loop_retained over cfg dryRun ["30m"; "3h"; "6h"; "12h"] "1d").
Qed.

(** Witness for C2: with three artifacts and a keep count of two, the
    promoter of [src/main.go] promotes the oldest. *)
Lemma promoteBackup_threshold_witness :
  promotes_oldest Z.gtb Examples.cfg_tiers "30m" "3h" Examples.w_over_keep
    Examples.d_over_keep.
Proof.
  destruct (promoteBackup_threshold Examples.cfg_tiers "30m" "3h"
              Examples.w_over_keep Examples.d_over_keep)
    as [Hpromotes _];
    [vm_compute; discriminate | vm_compute; discriminate
    | vm_compute; reflexivity | vm_compute; reflexivity |].
  apply Hpromotes. vm_compute. reflexivity.
Defined.

(** C2, as the specification states it for [src/main.go], fails: with the
    count equal to the keep count nothing is promoted. *)
Lemma promoteBackup_at_keep_count_stays :
  Z.of_nat (length (artifacts (tier_dir Examples.w_at_keep "backup/30m")))
  = keep_of Examples.cfg_tiers "30m"
  /\ exists w',
       promoteBackup Examples.cfg_tiers false levels Examples.w_at_keep
       = Returned tt w'
       /\ tier_dir w' "backup/30m" = tier_dir Examples.w_at_keep "backup/30m"
       /\ tier_dir w' "backup/3h" = ∅
       /\ Forall (fun op => match op with
                            | OpRename _ _ | OpRemove _ => False
                            | _ => True
                            end) (trace w').
Proof.
  split; [vm_compute; reflexivity|].
  eexists. split; [vm_compute; reflexivity|].
  split; [vm_compute; reflexivity|]. split; [vm_compute; reflexivity|].
  repeat constructor.
Qed.

(** ** The two copies of the promoter *)

(** Two promotion steps that differ in the test only do the same thing in
    every world in which the two tests answer alike. *)
Lemma promote_pair_over_ext over1 over2 cfg dryRun cur next w :
  dir_of cfg cur <> dir_of cfg next ->
  dirs w !! dir_of cfg cur = None
  \/ over1 (Z.of_nat (length (artifacts (tier_dir w (dir_of cfg cur)))))
       (keep_of cfg cur)
     = over2 (Z.of_nat (length (artifacts (tier_dir w (dir_of cfg cur)))))
         (keep_of cfg cur) ->
  promote_pair over1 cfg dryRun cur next w = promote_pair over2 cfg dryRun cur next w.
Proof.
  intros Hne Hsame. unfold promote_pair, mbind, M_bind.
  set (curDir := dir_of cfg cur) in *. set (nextDir := dir_of cfg next) in *.
  assert (Hmk : exists w1 err,
    (if dryRun then mret None else MkdirAll nextDir) w = Returned err w1
    /\ dirs w1 !! curDir = dirs w !! curDir).
  { destruct dryRun.
    - by exists w, None.
    - unfold MkdirAll. case_decide; [by eexists _, _|].
      cbn [log dirs]. destruct (dirs w !! nextDir) as [dn|] eqn:Hdn.
      + by eexists _, _.
      + eexists _, _. split; [done|]. cbn [set_dirs dirs].
        by rewrite lookup_insert_ne by (by apply not_eq_sym). }
  destruct Hmk as (w1 & err & -> & Hcur).
  destruct err as [e|]; [done|].
  rewrite ReadDir_eq, Hcur.
  destruct (dirs w !! curDir) as [d|] eqn:Hd; [|done].
  destruct Hsame as [[=]|Hsame].
  rewrite (tier_dir_Some _ _ _ Hd) in Hsame.
  change (vhdx_names (dir_names d)) with (artifacts d). by rewrite Hsame.
Qed.

Lemma gtb_geb_iff a b : (a >? b) = (a >=? b) <-> a <> b.
Proof.
  destruct (Z.gtb_spec a b), (Z.geb_spec a b); split; intros; try done; lia.
Qed.

(** With a keep count of zero (also the value read for a level that
    [keep_versions] does not list) and no artifact in the tier, the test of
    part_001 passes and [names[0]] panics; the test of main.go does not
    pass. *)
Example promoteBackup_part_001_zero_keep :
  let cfg := mkConfig false ∅ {[ "30m" := "backup/30m"; "3h" := "backup/3h" ]} "" in
  let w := mkWorld {[ "backup/30m" := ∅ ]} ∅ [] in
  promoteBackup_part_001 cfg false ["30m"; "3h"] w
  = Panicked (examined cfg "30m" "3h" w)
  /\ promoteBackup cfg false ["30m"; "3h"] w
     = Returned tt (examined cfg "30m" "3h" w).
Proof. split; vm_compute; reflexivity. Qed.

(** Over a chain of two levels the promoter is its step. *)
Lemma promote_loop_pair over cfg dryRun cur next w :
  promote_loop over cfg dryRun [cur; next] w
  = promote_pair over cfg dryRun cur next w.
Proof.
  cbn [promote_loop]. unfold mbind, M_bind.
  by destruct (promote_pair over cfg dryRun cur next w) as [[] w'|w'].
Qed.

(** The two promoters compute the same over a whole chain as long as the
    promoter of [src/main.go] never examines a tier at its keep count. *)
Lemma promoteBackup_copies_agree cfg dryRun lvls : forall w,
  never_at_keep cfg dryRun lvls w ->
  promoteBackup cfg dryRun lvls w = promoteBackup_part_001 cfg dryRun lvls w.
Proof.
  unfold promoteBackup, promoteBackup_part_001.
  induction lvls as [|cur [|next rest] IH]; intros w Hnever; [done..|].
  destruct Hnever as (Hne & Hcount & Hrest).
  cbn [promote_loop]. unfold mbind, M_bind.
  rewrite <- (promote_pair_over_ext Z.gtb Z.geb cfg dryRun cur next w Hne).
  - destruct (promote_pair Z.gtb cfg dryRun cur next w) as [[] w1|w1]; [|done].
    by apply IH.
  - destruct Hcount as [Hnone|Hcount]; [by left|]. right.
    by apply gtb_geb_iff.
Qed.

(** C9: the promoter of [src/main.go] (count > keep) and the one of
    [src/unnamed/part_001] (count >= keep) are the same computation, in
    every world and mode, over a pair of tiers with distinct directories
    whose source tier holds a number of artifacts other than its keep
    count, or has no directory; and over a whole chain of tiers as long
    as no tier is examined at exactly its keep count.  When the count
    equals a positive keep count, in live mode, the promoter of main.go
    promotes nothing and the one of part_001 promotes the oldest
    artifact: it leaves the source tier, which then holds one artifact
    less, for the next tier. *)
Theorem promoteBackup_copies_differ_at_keep_count (cfg : BackupConfig)
    (cur next : string) (w : World) :
  dir_of cfg cur <> dir_of cfg next ->
  let curDir := dir_of cfg cur in
  let nextDir := dir_of cfg next in
  let n := Z.of_nat (length (artifacts (tier_dir w curDir))) in
  let keep := keep_of cfg cur in
  (forall dryRun, n <> keep ->
     promoteBackup cfg dryRun [cur; next] w
     = promoteBackup_part_001 cfg dryRun [cur; next] w)
  /\ (forall dryRun, dirs w !! curDir = None ->
        promoteBackup cfg dryRun [cur; next] w
        = promoteBackup_part_001 cfg dryRun [cur; next] w)
  /\ (forall dryRun lvls w0, never_at_keep cfg dryRun lvls w0 ->
        promoteBackup cfg dryRun lvls w0
        = promoteBackup_part_001 cfg dryRun lvls w0)
  /\ ((n >? keep) = (n >=? keep) <-> n <> keep)
  /\ (forall d, nextDir <> "" -> 0 < keep ->
        dirs w !! curDir = Some d -> n = keep ->
        promoteBackup cfg false [cur; next] w
        = Returned tt (examined cfg cur next w)
        /\ tier_dir (examined cfg cur next w) curDir = d
        /\ tier_dir (examined cfg cur next w) nextDir = tier_dir w nextDir
        /\ promotes_nothing Z.gtb cfg cur next w
        /\ promotes_oldest Z.geb cfg cur next w d
        /\ exists old rest c w2,
             artifacts d = old :: rest
             /\ d !! old = Some c
             /\ promoteBackup_part_001 cfg false [cur; next] w = Returned tt w2
             /\ promoteBackup_part_001 cfg false [cur; next] w
                <> promoteBackup cfg false [cur; next] w
             /\ tier_dir w2 curDir = delete old d
             /\ artifacts (tier_dir w2 curDir) = rest
             /\ S (length (artifacts (tier_dir w2 curDir))) = length (artifacts d)
             /\ (tier_dir w nextDir !! old = None ->
                 tier_dir w2 nextDir = <[old := c]> (tier_dir w nextDir))
             /\ (is_Some (tier_dir w nextDir !! old) ->
                 tier_dir w2 nextDir = tier_dir w nextDir)).
Proof.
  intros Hne curDir nextDir n keep. subst curDir nextDir.
  split; [|split; [|split; [|split]]].
  - intros dryRun Hn. apply promoteBackup_copies_agree.
    split; [done|]. split; [by right | done].
  - intros dryRun Hnone. apply promoteBackup_copies_agree.
    split; [done|]. split; [by left | done].
  - intros dryRun lvls w0. apply promoteBackup_copies_agree.
  - apply gtb_geb_iff.
  - intros d Hnext Hkeep Hd Hn.
    assert (Hcount : tier_dir w (dir_of cfg cur) = d) by by apply tier_dir_Some.
    assert (Hnd : Z.of_nat (length (artifacts d)) = keep).
    { by rewrite <- Hcount. }
    destruct (promoteBackup_pair_cases cfg cur next w d Hnext Hne Hkeep Hd)
      as (Hgt_stay & Hge_go).
    specialize (Hgt_stay ltac:(fold keep; lia)).
    specialize (Hge_go ltac:(fold keep; lia)).
    unfold promoteBackup, promoteBackup_part_001. rewrite !promote_loop_pair.
    split; [exact Hgt_stay|].
    split; [by rewrite tier_dir_examined|].
    split; [by rewrite tier_dir_examined|].
    split; [done|]. split; [done|].
    pose proof Hge_go as
      (old & rest & c & w2 & Hart & Hold & _ & Hrun & Hcur & Hrest & _ & _ & Hdst).
    exists old, rest, c, w2. split; [done|]. split; [done|]. split; [done|].
    split.
    { rewrite Hrun, Hgt_stay. intros [= Heq].
      assert (Hsame : tier_dir w2 (dir_of cfg cur)
                      = tier_dir (examined cfg cur next w) (dir_of cfg cur))
        by by rewrite Heq.
      rewrite tier_dir_examined, Hcur, Hcount in Hsame.
      assert (Hgone : delete old d !! old = Some c) by by rewrite Hsame.
      by rewrite lookup_delete_eq in Hgone. }
    split; [done|]. split; [done|].
    split; [by rewrite Hrest, Hart|].
    destruct (tier_dir w (dir_of cfg next) !! old) as [c'|] eqn:Hthere.
    + destruct Hdst as [Hdst _]. split; [done|]. by intros _.
    + destruct Hdst as [Hdst _]. split; [by intros _|]. by intros [? [=]].
Qed.

(** Witness for C9: at exactly the keep count the promoter of part_001
    promotes and the one of main.go does not. *)
Lemma promoteBackup_copies_differ_at_keep_count_witness :
  promoteBackup Examples.cfg_tiers false ["30m"; "3h"] Examples.w_at_keep
  = Returned tt (examined Examples.cfg_tiers "30m" "3h" Examples.w_at_keep)
  /\ exists w2,
       promoteBackup_part_001 Examples.cfg_tiers false ["30m"; "3h"]
         Examples.w_at_keep = Returned tt w2
       /\ artifacts (tier_dir w2 "backup/30m") = ["000002_20250701_0930.vhdx"]
       /\ tier_dir w2 "backup/3h" !! "000001_20250701_0900.vhdx" = Some "image 1".
Proof.
  destruct (promoteBackup_copies_differ_at_keep_count Examples.cfg_tiers
              "30m" "3h" Examples.w_at_keep)
    as (_ & _ & _ & _ & Hdiffer); [vm_compute; discriminate|].
  destruct (Hdiffer Examples.d_at_keep)
    as (Hstay & _ & _ & _ & _ & old & rest & c & w2 & Hart & Hold & Hrun & _
        & _ & Hrest & _ & Hnew & _);
    [vm_compute; discriminate | vm_compute; reflexivity
    | vm_compute; reflexivity | vm_compute; reflexivity |].
  split; [exact Hstay|]. exists w2. split; [exact Hrun|].
  assert (Hlist : artifacts Examples.d_at_keep
                  = ["000001_20250701_0900.vhdx"; "000002_20250701_0930.vhdx"])
    by (vm_compute; reflexivity).
  rewrite Hlist in Hart. injection Hart as <- <-.
  split; [exact Hrest|].
  assert (Hc : c = "image 1").
  { assert (Examples.d_at_keep !! "000001_20250701_0900.vhdx" = Some "image 1")
      as Hlook by (vm_compute; reflexivity).
    rewrite Hlook in Hold. by injection Hold as <-. }
  pose proof (Hnew ltac:(vm_compute; reflexivity)) as Hdst.
  change (dir_of Examples.cfg_tiers "3h") with "backup/3h" in Hdst.
  rewrite Hdst, Hc. apply lookup_insert_eq.
Defined.

(** ** One scheduling cycle: promotion, then rotation *)

Lemma tier_dir_nonempty_Some w dir name :
  is_Some (tier_dir w dir !! name) -> dirs w !! dir = Some (tier_dir w dir).
Proof.
  unfold tier_dir. destruct (dirs w !! dir) as [d|]; [done|].
  cbn. rewrite lookup_empty. by intros [? [=]].
Qed.

Lemma artifacts_cons_dir w dir old rest :
  artifacts (tier_dir w dir) = old :: rest -> dirs w !! dir = Some (tier_dir w dir).
Proof.
  intros Hart. apply (tier_dir_nonempty_Some w dir old).
  by eapply artifacts_head_lookup.
Qed.

Lemma same_tiers_examined cfg cur next w : same_tiers w (examined cfg cur next w).
Proof. intros dir. apply tier_dir_examined. Qed.

(** A live step of the promoter of [src/main.go] between two directories,
    with a keep count that is not negative, returns, and its first two
    calls make sure of the destination and read the source. *)
Lemma promote_pair_gtb_returns cfg cur next w :
  dir_of cfg next <> "" -> dir_of cfg cur <> dir_of cfg next ->
  0 <= keep_of cfg cur ->
  exists w' calls,
    promote_pair Z.gtb cfg false cur next w = Returned tt w'
    /\ trace w'
       = calls ++ OpReadDir (dir_of cfg cur) :: OpMkdirAll (dir_of cfg next)
                  :: trace w.
Proof.
  intros Hnext Hne Hkeep.
  destruct (Z.gtb_spec
    (Z.of_nat (length (artifacts (tier_dir w (dir_of cfg cur)))))
    (keep_of cfg cur)) as [Hgt|Hle].
  - destruct (artifacts (tier_dir w (dir_of cfg cur))) as [|old rest] eqn:Hart;
      [cbn in Hgt; lia|].
    pose proof (artifacts_cons_dir _ _ _ _ Hart) as Hd.
    destruct (promote_pair_promotes Z.gtb cfg cur next w _ Hnext Hne Hd)
      as (old' & rest' & c & w' & _ & _ & _ & Hrun & _ & _ & _ & _ & Htrace).
    { by rewrite Hart. }
    { rewrite Hart. apply Z.gtb_lt. done. }
    exists w'. destruct (tier_dir w (dir_of cfg next) !! old');
      destruct Htrace as [_ ->]; by eexists [_; _].
  - exists (examined cfg cur next w), []. split; [|done].
    apply promote_pair_stay; [done..|]. right.
    destruct (Z.gtb_spec
      (Z.of_nat (length (artifacts (tier_dir w (dir_of cfg cur)))))
      (keep_of cfg cur)); [lia | done].
Qed.

(** The promotion loop as a sequence: the pairs up to [cur], then the
    pairs from [cur] on. *)
Lemma promote_loop_app over cfg dryRun pre cur rest w :
  promote_loop over cfg dryRun (pre ++ cur :: rest) w
  = (_ ← promote_loop over cfg dryRun (pre ++ [cur]);
     promote_loop over cfg dryRun (cur :: rest)) w.
Proof.
  revert w. induction pre as [|p pre IH]; intros w; [done|].
  change ((p :: pre) ++ cur :: rest) with (p :: (pre ++ cur :: rest)).
  change ((p :: pre) ++ [cur]) with (p :: (pre ++ [cur])).
  destruct pre as [|q pre].
  - cbn [app promote_loop]. unfold mbind, M_bind.
    destruct (promote_pair over cfg dryRun p cur w); done.
  - change ((q :: pre) ++ cur :: rest) with (q :: (pre ++ cur :: rest)) in *.
    change ((q :: pre) ++ [cur]) with (q :: (pre ++ [cur])) in *.
    cbn [promote_loop]. unfold mbind, M_bind in *.
    destruct (promote_pair over cfg dryRun p q w) as [[] w1|w1]; [|done].
    apply IH.
Qed.

(** While no tier exceeds its keep count the promoter of [src/main.go]
    moves nothing: directories keep their content. *)
Lemma promote_loop_quiet cfg pre cur w :
  Forall (fun lvl => dir_of cfg lvl <> "") (pre ++ [cur]) ->
  NoDup (map (dir_of cfg) (pre ++ [cur])) ->
  Forall (fun lvl =>
    Z.of_nat (length (artifacts (tier_dir w (dir_of cfg lvl)))) <= keep_of cfg lvl)
    pre ->
  exists wA,
    promote_loop Z.gtb cfg false (pre ++ [cur]) w = Returned tt wA
    /\ same_tiers w wA /\ trace_extends w wA.
Proof.
  revert w. induction pre as [|p pre IH]; intros w Hdirs Hnd Hquiet.
  - exists w. split; [done|]. split; reflexivity.
  - change ((p :: pre) ++ [cur]) with (p :: (pre ++ [cur])) in *.
    apply Forall_cons_1 in Hdirs as [Hp Hdirs].
    apply Forall_cons_1 in Hquiet as [Hpq Hquiet].
    cbn [map] in Hnd. apply NoDup_cons in Hnd as [Hnotin Hnd].
    destruct (pre ++ [cur]) as [|next rest] eqn:Hlist; [by destruct pre|].
    cbn [promote_loop]. unfold mbind, M_bind.
    rewrite (promote_pair_stay Z.gtb cfg p next w).
    + destruct (IH (examined cfg p next w)) as (wA & Hrun & Hs & Ht);
        [done | done | |].
      { eapply Forall_impl; [exact Hquiet|]. intros lvl Hlvl.
        by rewrite tier_dir_examined. }
      exists wA. split; [done|]. split.
      * etrans; [apply same_tiers_examined | done].
      * etrans; [|done].
        by exists [OpReadDir (dir_of cfg p); OpMkdirAll (dir_of cfg next)].
    + by apply Forall_cons_1 in Hdirs as [? _].
    + intros Heq. apply Hnotin. rewrite Heq. cbn [map]. left.
    + right. destruct (Z.gtb_spec
        (Z.of_nat (length (artifacts (tier_dir w (dir_of cfg p)))))
        (keep_of cfg p)); [lia | done].
Qed.

(** The rotation loop in live mode: it returns; a tier within its keep
    count keeps its directory as it is; and a name that is absent from a
    directory stays absent and is never the object of a removal. *)
Lemma rotate_loop_live `{GoRuntime} cfg lvls w :
  DryRun cfg = false ->
  Forall (fun lvl => dir_of cfg lvl <> "" /\ 0 <= keep_of cfg lvl) lvls ->
  exists w2 calls,
    rotate_loop cfg lvls w = Returned tt w2
    /\ trace w2 = calls ++ trace w
    /\ (forall D,
          Forall (fun lvl => dir_of cfg lvl = D ->
            Z.of_nat (length (artifacts (tier_dir w D))) <= keep_of cfg lvl) lvls ->
          tier_dir w2 D = tier_dir w D)
    /\ (forall D old, tier_dir w D !! old = None ->
          tier_dir w2 D !! old = None /\ OpRemove (Join D old) ∉ calls).
Proof.
  intros Hlive. revert w. induction lvls as [|lvl rest IH]; intros w Hok.
  - exists w, []. split; [done|]. split; [done|]. split; [done|].
    intros D old Hnone. split; [done|]. apply not_elem_of_nil.
  - apply Forall_cons_1 in Hok as [[Hdir Hkeep] Hok].
    cbn [rotate_loop]. unfold mbind, M_bind. rewrite Hlive.
    rewrite rotateBackupsWithPromotion_eq by done. cbv zeta.
    set (dir := dir_of cfg lvl). set (d := tier_dir w dir).
    set (victims := take (length (artifacts d) - Z.to_nat (keep_of cfg lvl))
                      (artifacts d)).
    set (w1 := mkWorld _ _ _).
    destruct (IH w1 Hok) as (w2 & calls & Hrun & Htrace & Hfixed & Habsent).
    exists w2, (calls ++ reverse (map (fun old => OpRemove (Join dir old)) victims)
                ++ [OpReadDir dir; OpMkdirAll dir]).
    split; [done|]. split.
    { rewrite Htrace. unfold w1. cbn [trace]. by rewrite <- !app_assoc. }
    assert (Hother : forall D, D <> dir -> tier_dir w1 D = tier_dir w D).
    { intros D HD. unfold w1. rewrite tier_dir_mk.
      by rewrite lookup_insert_ne by (by apply not_eq_sym). }
    assert (Hself : tier_dir w1 dir
      = foldl (fun acc old => delete old acc) d victims).
    { unfold w1. rewrite tier_dir_mk. by rewrite lookup_insert_eq. }
    split.
    + intros D HD. apply Forall_cons_1 in HD as [Hlvl HD].
      assert (Hw1 : tier_dir w1 D = tier_dir w D).
      { destruct (decide (D = dir)) as [->|Hne]; [|by apply Hother].
        rewrite Hself. specialize (Hlvl eq_refl). fold d in Hlvl.
        replace victims with (@nil string); [done|]. unfold victims.
        replace (length (artifacts d) - Z.to_nat (keep_of cfg lvl))%nat
          with 0%nat by lia. done. }
      rewrite <- Hw1. apply Hfixed.
      eapply Forall_impl; [exact HD|]. intros l Hl Heq. rewrite Hw1. by apply Hl.
    + intros D old Hnone.
      assert (Hw1 : tier_dir w1 D !! old = None).
      { destruct (decide (D = dir)) as [->|Hne]; [|by rewrite Hother].
        rewrite Hself, foldl_delete_lookup. by case_decide. }
      destruct (Habsent D old Hw1) as [Hgone Hnot]. split; [done|].
      rewrite !elem_of_app. intros [Hin|[Hin|Hin]]; [done| |].
      * rewrite elem_of_reverse in Hin. apply list_elem_of_fmap in Hin
          as (v & [= -> ->] & Hv).
        apply subseteq_take in Hv. apply elem_of_artifacts in Hv as [[c Hc] _].
        fold dir in Hnone. fold d in Hnone. congruence.
      * apply elem_of_cons in Hin as [[=]|Hin].
        by apply list_elem_of_singleton in Hin.
Qed.

(** The promoter of [src/main.go] in live mode over a chain of distinct
    directories: it returns, and it has read the directory of every level
    but the last. *)
Lemma promote_loop_gtb_returns cfg lvls w :
  Forall (fun lvl => dir_of cfg lvl <> "" /\ 0 <= keep_of cfg lvl) lvls ->
  NoDup (map (dir_of cfg) lvls) ->
  exists w1 calls,
    promote_loop Z.gtb cfg false lvls w = Returned tt w1
    /\ trace w1 = calls ++ trace w
    /\ Forall (fun lvl => OpReadDir (dir_of cfg lvl) ∈ calls) (removelast lvls).
Proof.
  revert w. induction lvls as [|cur [|next rest] IH]; intros w Hok Hnd.
  - by exists w, [].
  - by exists w, [].
  - apply Forall_cons_1 in Hok as [[Hcur Hkeep] Hok].
    pose proof Hok as [[Hnext _] _]%Forall_cons_1.
    cbn [map] in Hnd. apply NoDup_cons in Hnd as [Hnotin Hnd].
    destruct (promote_pair_gtb_returns cfg cur next w) as (wp & cp & Hp & Htp);
      [done | | done |].
    { intros Heq. apply Hnotin. rewrite Heq. left. }
    destruct (IH wp Hok Hnd) as (w1 & calls & Hrun & Htrace & Hread).
    exists w1, (calls ++ cp ++ [OpReadDir (dir_of cfg cur);
                                OpMkdirAll (dir_of cfg next)]).
    split; [|split].
    + cbn [promote_loop] in *. unfold mbind, M_bind. by rewrite Hp.
    + rewrite Htrace, Htp. by rewrite <- !app_assoc.
    + change (removelast (cur :: next :: rest))
        with (cur :: removelast (next :: rest)).
      apply Forall_cons. split.
      * rewrite !elem_of_app. right. right. left.
      * eapply Forall_impl; [exact Hread|]. intros lvl Hin.
        rewrite elem_of_app. by left.
Qed.

Lemma NoDup_map_app_cons_notin {A B} (f : A -> B) pre x post y :
  NoDup (map f (pre ++ x :: post)) -> y ∈ pre ++ post -> f y <> f x.
Proof.
  rewrite map_app. cbn [map]. intros Hnd Hy Heq.
  apply NoDup_app in Hnd as (_ & Hdisj & Hnd).
  apply NoDup_cons in Hnd as [Hx _].
  apply elem_of_app in Hy as [Hy|Hy].
  - apply (Hdisj (f x)); [|left]. rewrite <- Heq.
    apply list_elem_of_fmap. by exists y.
  - apply Hx. rewrite <- Heq. apply list_elem_of_fmap. by exists y.
Qed.

Lemma promote_loop_cons over cfg dryRun cur next rest w :
  promote_loop over cfg dryRun (cur :: next :: rest) w
  = match promote_pair over cfg dryRun cur next w with
    | Returned _ w' => promote_loop over cfg dryRun (next :: rest) w'
    | Panicked w' => Panicked w'
    end.
Proof. done. Qed.

(** The promotion phase seen from one tier [cur] of the chain, when no
    finer tier exceeds its keep count: within its keep count the tier
    keeps its directory; beyond it, its oldest artifact is renamed into
    the next directory. *)
Lemma promoteBackup_tier cfg w w1 pre cur next post :
  Forall (fun lvl => dir_of cfg lvl <> "" /\ 0 <= keep_of cfg lvl)
    (pre ++ cur :: next :: post) ->
  NoDup (map (dir_of cfg) (pre ++ cur :: next :: post)) ->
  Forall (fun lvl =>
    Z.of_nat (length (artifacts (tier_dir w (dir_of cfg lvl)))) <= keep_of cfg lvl)
    pre ->
  promote_loop Z.gtb cfg false (pre ++ cur :: next :: post) w = Returned tt w1 ->
  let curDir := dir_of cfg cur in
  let nextDir := dir_of cfg next in
  let d := tier_dir w curDir in
  (Z.of_nat (length (artifacts d)) <= keep_of cfg cur -> tier_dir w1 curDir = d)
  /\ (forall old rest, artifacts d = old :: rest ->
        keep_of cfg cur < Z.of_nat (length (artifacts d)) ->
        tier_dir w nextDir !! old = None ->
        (exists calls, trace w1 = calls ++ trace w
           /\ OpRename (Join curDir old) (Join nextDir old) ∈ calls)
        /\ tier_dir w1 curDir !! old = None).
Proof.
  intros Hok Hnd Hquiet Hrun curDir nextDir d.
  (* the chain up to [cur] is quiet *)
  assert (Hok1 : Forall (fun lvl => dir_of cfg lvl <> "") (pre ++ [cur])).
  { apply Forall_app in Hok as [Hpre Hrest]. apply Forall_app. split.
    - eapply Forall_impl; [exact Hpre|]. by intros lvl [? _].
    - apply Forall_cons_1 in Hrest as [[? _] _]. by apply Forall_singleton. }
  assert (Hnd1 : NoDup (map (dir_of cfg) (pre ++ [cur]))).
  { rewrite map_app in Hnd |- *. cbn [map] in *.
    apply NoDup_app in Hnd as (Hpre & Hdisj & Hrest). apply NoDup_app.
    split; [done|]. split.
    - intros x Hx Hin. apply (Hdisj x Hx).
      apply list_elem_of_singleton in Hin as ->. left.
    - apply NoDup_singleton. }
  destruct (promote_loop_quiet cfg pre cur w Hok1 Hnd1 Hquiet)
    as (wA & HrunA & HsA & [callsA HtA]).
  rewrite promote_loop_app in Hrun. unfold mbind, M_bind in Hrun.
  rewrite HrunA, promote_loop_cons in Hrun.
  (* facts about the pair and about the pairs after it *)
  assert (Hcur_ok : dir_of cfg next <> "" /\ curDir <> nextDir
                    /\ 0 <= keep_of cfg cur).
  { apply Forall_app in Hok as [_ Hrest].
    apply Forall_cons_1 in Hrest as [[_ Hk] Hrest].
    apply Forall_cons_1 in Hrest as [[Hn _] _]. split; [done|]. split; [|done].
    intros Heq. rewrite map_app in Hnd. cbn [map] in Hnd.
    apply NoDup_app in Hnd as (_ & _ & Hrest).
    apply NoDup_cons in Hrest as [Hnotin _]. apply Hnotin.
    fold curDir nextDir. rewrite Heq. left. }
  destruct Hcur_ok as (Hnext & Hne & Hkeep).
  assert (Hlater : Forall (fun lvl => spares (fun dir _ => dir = curDir)
                                        (dir_of cfg lvl)) (next :: post)).
  { apply Forall_forall. intros lvl Hlvl name _ Heq.
    refine (NoDup_map_app_cons_notin (dir_of cfg) pre cur (next :: post) lvl
              Hnd _ Heq).
    apply elem_of_app. by right. }
  assert (Hafter : forall wB, promote_loop Z.gtb cfg false (next :: post) wB
                              = Returned tt w1 ->
                   tier_dir w1 curDir = tier_dir wB curDir
                   /\ trace_extends wB w1).
  { intros wB HrunB. split.
    - apply map_eq. intros name.
      pose proof (promote_loop_untouched (fun dir _ => dir = curDir)
                    Z.gtb cfg false (next :: post) Hlater wB) as Hun.
      rewrite HrunB in Hun. by apply Hun.
    - pose proof (promote_loop_trace Z.gtb cfg false (next :: post) wB) as Htr.
      by rewrite HrunB in Htr. }
  split.
  - intros Hle.
    rewrite (promote_pair_stay Z.gtb cfg cur next wA) in Hrun; [|done..|].
    + destruct (Hafter _ Hrun) as [-> _].
      by rewrite tier_dir_examined, HsA.
    + right. rewrite HsA. fold curDir d.
      destruct (Z.gtb_spec (Z.of_nat (length (artifacts d))) (keep_of cfg cur));
        [lia | done].
  - intros old rest Hart Hgt Hfree.
    assert (HartA : artifacts (tier_dir wA curDir) = old :: rest).
    { by rewrite HsA. }
    pose proof (artifacts_cons_dir _ _ _ _ HartA) as HdA.
    destruct (artifacts_head_lookup _ _ _ HartA) as [c Hc].
    rewrite (promote_pair_move Z.gtb cfg cur next wA (tier_dir wA curDir) old rest c)
      in Hrun;
      [|done..| | |].
    + destruct (Hafter _ Hrun) as [Hdir [callsB HtB]]. split.
      * exists (callsB
                ++ [OpRename (Join curDir old) (Join nextDir old);
                    OpStat (Join nextDir old);
                    OpReadDir curDir; OpMkdirAll nextDir]
                ++ callsA).
        split.
        { rewrite HtB. cbn [trace]. rewrite HtA. by rewrite <- !app_assoc. }
        rewrite !elem_of_app. right. left. left.
      * rewrite Hdir, tier_dir_mk. cbn [dirs].
        rewrite lookup_insert_ne, lookup_insert_eq by done.
        apply lookup_delete_eq.
    + rewrite HartA. fold curDir. rewrite <- Hart.
      by apply Z.gtb_lt.
    + done.
    + by rewrite HsA.
Qed.

(** C4, as the code of [src/main.go] has it.  In live mode, over tiers
    with distinct directories and keep counts that are not negative, the
    rotation block of [runBackup] returns; all the calls of the promotion
    phase, among them the reading of each of the four source tiers, come
    before any call of the rotation phase.  For a tier of the chain into
    which nothing is promoted (no finer tier exceeds its keep count): if
    it holds at most its keep count, exactly the keep count included, its
    directory is as before after the promotion phase and after the whole
    cycle, so its oldest artifact has neither moved nor been deleted; if
    it holds more, and the name of its oldest artifact is free in the next
    tier, that artifact is renamed into the next tier during the
    promotion phase, and the rotation phase never removes it from the
    tier. *)
Theorem runBackup_promotes_then_rotates `{GoRuntime} (cfg : BackupConfig)
    (w : World) :
  DryRun cfg = false ->
  Forall (fun lvl => dir_of cfg lvl <> "" /\ 0 <= keep_of cfg lvl) levels ->
  NoDup (map (dir_of cfg) levels) ->
  exists w1 w2 promoted rotated,
    promoteBackup cfg (DryRun cfg) levels w = Returned tt w1
    /\ trace w1 = promoted ++ trace w
    /\ rotate_loop cfg levels w1 = Returned tt w2
    /\ trace w2 = rotated ++ promoted ++ trace w
    /\ runBackup_rotation cfg w = Returned tt w2
    /\ Forall (fun lvl => OpReadDir (dir_of cfg lvl) ∈ promoted)
         ["30m"; "3h"; "6h"; "12h"]
    /\ forall pre cur next post,
         levels = pre ++ cur :: next :: post ->
         Forall (fun lvl =>
           Z.of_nat (length (artifacts (tier_dir w (dir_of cfg lvl))))
           <= keep_of cfg lvl) pre ->
         let curDir := dir_of cfg cur in
         let nextDir := dir_of cfg next in
         let d := tier_dir w curDir in
         (Z.of_nat (length (artifacts d)) <= keep_of cfg cur ->
            tier_dir w1 curDir = d /\ tier_dir w2 curDir = d)
         /\ (forall old rest, artifacts d = old :: rest ->
               keep_of cfg cur < Z.of_nat (length (artifacts d)) ->
               tier_dir w nextDir !! old = None ->
               OpRename (Join curDir old) (Join nextDir old) ∈ promoted
               /\ (OpRemove (Join curDir old) ∉ rotated)
               /\ tier_dir w1 curDir !! old = None
               /\ tier_dir w2 curDir !! old = None).
Proof.
  intros Hlive Hok Hnd. rewrite Hlive.
  destruct (promote_loop_gtb_returns cfg levels w Hok Hnd)
    as (w1 & promoted & Hrun1 & Htrace1 & Hread).
  destruct (rotate_loop_live cfg levels w1 Hlive Hok)
    as (w2 & rotated & Hrun2 & Htrace2 & Hfixed & Habsent).
  exists w1, w2, promoted, rotated.
  split; [done|]. split; [done|]. split; [done|].
  split; [by rewrite Htrace2, Htrace1|].
  split.
  { unfold runBackup_rotation, mbind, M_bind. rewrite Hlive.
    unfold promoteBackup. by rewrite Hrun1. }
  split; [done|].
  intros pre cur next post Hsplit Hquiet curDir nextDir d.
  rewrite Hsplit in Hok, Hnd, Hrun1.
  destruct (promoteBackup_tier cfg w w1 pre cur next post Hok Hnd Hquiet Hrun1)
    as [Hstay Hmove].
  split.
  - intros Hle. specialize (Hstay Hle). split; [done|].
    transitivity (tier_dir w1 curDir); [|done]. apply Hfixed.
    rewrite Hsplit. apply Forall_forall. intros lvl Hlvl Heq.
    destruct (decide (lvl = cur)) as [->|Hne].
    { unfold curDir. rewrite Hstay. exact Hle. }
    exfalso.
    refine (NoDup_map_app_cons_notin (dir_of cfg) pre cur (next :: post) lvl
              Hnd _ Heq).
    apply elem_of_app in Hlvl as [?|Hlvl]; apply elem_of_app; [by left|].
    apply elem_of_cons in Hlvl as [?|?]; [done | by right].
  - intros old rest Hart Hgt Hfree.
    destruct (Hmove old rest Hart Hgt Hfree) as [(calls & Hcalls & Hin) Hgone].
    rewrite Htrace1 in Hcalls. apply app_inv_tail in Hcalls as ->.
    destruct (Habsent curDir old Hgone) as [Hgone2 Hnot].
    done.
Qed.

(** Witness for C4: with three artifacts and a keep count of two in the
    finest tier, the cycle renames the oldest into the 3h tier during the
    promotion phase and the rotation of the tier does not remove it. *)
Lemma runBackup_promotes_then_rotates_witness :
  exists w1 w2 promoted rotated,
    promoteBackup Examples.cfg_tiers false levels Examples.w_over_keep
    = Returned tt w1
    /\ trace w1 = promoted ++ []
    /\ runBackup_rotation Examples.cfg_tiers Examples.w_over_keep = Returned tt w2
    /\ trace w2 = rotated ++ promoted ++ []
    /\ OpRename (Join "backup/30m" "000001_20250701_0900.vhdx")
         (Join "backup/3h" "000001_20250701_0900.vhdx") ∈ promoted
    /\ (OpRemove (Join "backup/30m" "000001_20250701_0900.vhdx") ∉ rotated)
    /\ tier_dir w2 "backup/30m" !! "000001_20250701_0900.vhdx" = None.
Proof.
  destruct (runBackup_promotes_then_rotates Examples.cfg_tiers
              Examples.w_over_keep)
    as (w1 & w2 & promoted & rotated & Hp & Htp & _ & Htr & Hrun & _ & Htier).
  - reflexivity.
  - repeat constructor; vm_compute; discriminate.
  - apply (bool_decide_unpack _). vm_compute. exact I.
  - exists w1, w2, promoted, rotated.
    destruct (Htier [] "30m" "3h" ["6h"; "12h"; "1d"] eq_refl
                ltac:(constructor)) as [_ Hmove].
    destruct (Hmove "000001_20250701_0900.vhdx"
                ["000002_20250701_0930.vhdx"; "000003_20250701_1000.vhdx"])
      as (Hin & Hnot & _ & Hgone);
      [vm_compute; reflexivity | vm_compute; reflexivity
      | vm_compute; reflexivity |].
    repeat split; assumption.
Defined.

(** C4, as the specification states it, fails on [src/main.go]: a tier
    that holds exactly its keep count is left alone by the whole cycle;
    its oldest artifact has not moved to the next tier. *)
Lemma runBackup_at_keep_count_moves_nothing :
  Z.of_nat (length (artifacts (tier_dir Examples.w_at_keep "backup/30m")))
  = keep_of Examples.cfg_tiers "30m"
  /\ artifacts (tier_dir Examples.w_at_keep "backup/30m")
     = ["000001_20250701_0900.vhdx"; "000002_20250701_0930.vhdx"]
  /\ exists w2,
       runBackup_rotation Examples.cfg_tiers Examples.w_at_keep = Returned tt w2
       /\ tier_dir w2 "backup/30m" !! "000001_20250701_0900.vhdx" = Some "image 1"
       /\ tier_dir w2 "backup/3h" !! "000001_20250701_0900.vhdx" = None
       /\ tier_dir w2 "backup/3h" = ∅.
Proof.
  split; [vm_compute; reflexivity|]. split; [vm_compute; reflexivity|].
  eexists. split; [vm_compute; reflexivity|].
  split; [vm_compute; reflexivity|]. split; vm_compute; reflexivity.
Qed.

(** Witness for C5: three artifacts, keep count two; the oldest goes, the
    two newest and the file that is not an artifact stay. *)
Lemma rotate_keeps_newest_witness :
  exists w',
    rotateBackupsWithPromotion Examples.cfg_tiers "30m" false Examples.w_over_keep
    = Returned None w'
    /\ artifacts (tier_dir w' (dir_of Examples.cfg_tiers "30m"))
       = ["000002_20250701_0930.vhdx"; "000003_20250701_1000.vhdx"]
    /\ trace w'
       = [OpRemove (Join "backup/30m" "000001_20250701_0900.vhdx");
          OpReadDir "backup/30m"; OpMkdirAll "backup/30m"].
Proof.
  destruct (rotate_keeps_newest Examples.cfg_tiers "30m" Examples.w_over_keep)
    as [(w' & Hrun & Htrace & _ & _ & _ & _ & Hart & _) _];
    [vm_compute; discriminate | vm_compute; discriminate |].
  exists w'. split; [exact Hrun|]. split.
  - rewrite Hart. vm_compute. reflexivity.
  - rewrite Htrace. vm_compute. reflexivity.
Defined.

(** Witness for C10: the notes survive a whole cycle. *)
Lemma non_artifacts_untouched_witness :
  tier_dir (world_of (runBackup_rotation Examples.cfg_tiers Examples.w_over_keep))
    "backup/30m" !! "notes.txt"
  = Some "not a backup".
Proof.
  destruct (non_artifacts_untouched Examples.cfg_tiers false levels "30m"
              Examples.w_over_keep) as (_ & _ & _ & Hcycle & _).
  rewrite Hcycle; [vm_compute; reflexivity | vm_compute; reflexivity].
Defined.

(** ** Copy methods *)

Lemma existing_lookup (priority : list string) (m0 : gmap string bool) method :
  default false
    (foldl (fun existing method => <[method := true]> existing) m0 priority
       !! method)
  = bool_decide (method ∈ priority) || default false (m0 !! method).
Proof.
  revert m0. induction priority as [|p priority IH]; intros m0.
  - cbn [foldl]. by rewrite bool_decide_eq_false_2 by apply not_elem_of_nil.
  - cbn [foldl]. rewrite IH. destruct (decide (method = p)) as [->|Hne].
    + rewrite lookup_insert_eq. cbn [default].
      rewrite (bool_decide_eq_true_2 (p ∈ p :: priority)) by left.
      by rewrite orb_true_r.
    + rewrite lookup_insert_ne by done.
      f_equal. apply bool_decide_ext. rewrite elem_of_cons. intuition.
Qed.

Lemma ensureAllCopyMethods_eq priority :
  ensureAllCopyMethods priority
  = priority ++ filter (fun method => method ∉ priority) defaultMethods.
Proof.
  unfold ensureAllCopyMethods, defaultMethods. cbn [foldl].
  rewrite !existing_lookup, !lookup_empty. cbn [default].
  rewrite !orb_false_r, !filter_cons, filter_nil.
  repeat case_bool_decide; repeat case_decide; try done;
    cbn [negb]; by rewrite <- ?app_assoc, ?app_nil_r.
Qed.

(** X1: the completed list is the configured priority list, as it is,
    followed by the default methods it lacks, in their default order; so
    every default method, [native] among them, is in it, and it holds
    nothing but configured and default methods. *)
Theorem ensureAllCopyMethods_completes (priority : list string) :
  ensureAllCopyMethods priority
  = priority ++ filter (fun method => method ∉ priority) defaultMethods
  /\ take (length priority) (ensureAllCopyMethods priority) = priority
  /\ (forall method,
        method ∈ ensureAllCopyMethods priority
        <-> method ∈ priority \/ method ∈ defaultMethods)
  /\ "native" ∈ ensureAllCopyMethods priority
  /\ (length priority <= length (ensureAllCopyMethods priority)
      <= length priority + 4)%nat.
Proof.
  rewrite ensureAllCopyMethods_eq.
  assert (Hin : forall method,
    method ∈ priority ++ filter (fun method => method ∉ priority) defaultMethods
    <-> method ∈ priority \/ method ∈ defaultMethods).
  { intros method. rewrite elem_of_app, list_elem_of_filter.
    destruct (decide (method ∈ priority)); tauto. }
  split; [done|]. split; [by rewrite take_app_length|].
  split; [done|]. split.
  - apply Hin. right. unfold defaultMethods. rewrite !elem_of_cons. auto 10.
  - rewrite length_app.
    pose proof (length_filter (fun method => method ∉ priority) defaultMethods).
    change (length defaultMethods) with 4%nat in *. lia.
Qed.

(** X2: completing is idempotent; a priority list without repetition stays
    without repetition; and the list grows exactly when a default method is
    missing, which is when [tryCopy] logs the completion. *)
Theorem ensureAllCopyMethods_idempotent (priority : list string) :
  ensureAllCopyMethods (ensureAllCopyMethods priority)
  = ensureAllCopyMethods priority
  /\ (NoDup priority -> NoDup (ensureAllCopyMethods priority))
  /\ (length (ensureAllCopyMethods priority) = length priority
      <-> Forall (fun method => method ∈ priority) defaultMethods)
  /\ (Forall (fun method => method ∈ priority) defaultMethods
      -> ensureAllCopyMethods priority = priority).
Proof.
  assert (Hfull : forall l : list string,
    Forall (fun method => method ∈ l) defaultMethods ->
    filter (fun method => method ∉ l) defaultMethods = []).
  { intros l Hall. apply elem_of_nil_inv.
    intros method [Hnot Hm]%list_elem_of_filter.
    rewrite Forall_forall in Hall. by apply Hall in Hm. }
  assert (Hnil : forall l : list string,
    filter (fun method => method ∉ l) defaultMethods = [] ->
    Forall (fun method => method ∈ l) defaultMethods).
  { intros l Hf. apply Forall_forall. intros method Hm.
    destruct (decide (method ∈ l)) as [|Hn]; [done|].
    assert (method ∈ filter (fun method => method ∉ l) defaultMethods) as Hin
      by by apply list_elem_of_filter.
    rewrite Hf in Hin. by apply not_elem_of_nil in Hin. }
  split; [|split; [|split]].
  - rewrite (ensureAllCopyMethods_eq (ensureAllCopyMethods priority)).
    rewrite Hfull; [by rewrite app_nil_r|].
    apply Forall_forall. intros method Hm.
    rewrite ensureAllCopyMethods_eq, elem_of_app, list_elem_of_filter.
    destruct (decide (method ∈ priority)); tauto.
  - intros Hnd. rewrite ensureAllCopyMethods_eq. apply NoDup_app.
    split; [done|]. split.
    + intros method Hin [Hnot _]%list_elem_of_filter. done.
    + apply NoDup_filter. unfold defaultMethods.
      apply (bool_decide_unpack _). by vm_compute.
  - rewrite ensureAllCopyMethods_eq, length_app. split.
    + intros Hlen. apply Hnil. apply length_zero_iff_nil. lia.
    + intros Hall. rewrite Hfull by done. cbn. lia.
  - intros Hall. rewrite ensureAllCopyMethods_eq, Hfull by done.
    apply app_nil_r.
Qed.

(** X3: whatever is installed on the machine, and whatever the priority
    list says, the completed list holds a method that is available, the
    native copy; and nothing but the four default methods is ever
    available, so other names in the priority list are skipped. *)
Theorem completed_methods_never_all_unavailable
    (LookPath : string -> option error) (priority : list string) :
  (exists method,
     method ∈ ensureAllCopyMethods priority
     /\ isCommandAvailable LookPath method = true)
  /\ (forall method,
        isCommandAvailable LookPath method = true -> method ∈ defaultMethods)
  /\ (forall method,
        method ∈ ensureAllCopyMethods priority ->
        isCommandAvailable LookPath method = true ->
        method ∈ defaultMethods).
Proof.
  assert (Hdefault : forall method,
    isCommandAvailable LookPath method = true -> method ∈ defaultMethods).
  { intros method. unfold isCommandAvailable, defaultMethods.
    rewrite !elem_of_cons.
    destruct (String.eqb_spec method "robocopy") as [->|_]; [auto|].
    destruct (String.eqb_spec method "xcopy") as [->|_]; [auto|].
    destruct (String.eqb_spec method "copy-item") as [->|_]; [auto|].
    destruct (String.eqb_spec method "native") as [->|_]; [auto 10|].
    done. }
  split; [|split; [done | auto]].
  exists "native". split; [|done].
  rewrite ensureAllCopyMethods_eq, elem_of_app, list_elem_of_filter.
  destruct (decide ("native" ∈ priority)); [by left|]. right. split; [done|].
  unfold defaultMethods. rewrite !elem_of_cons. auto 10.
Qed.

(** ** Decimal numbers *)

Section StrconvFacts.
Import Strconv.

Lemma digit_val_digit d : 0 <= d <= 9 -> digit_val (digit d) = Some d.
Proof.
  intros Hd. unfold digit_val, digit.
  rewrite N_ascii_embedding by lia. rewrite Z2N.id by lia.
  rewrite (proj2 (Z.leb_le _ _)), (proj2 (Z.leb_le _ _)) by lia.
  cbn [andb]. f_equal. lia.
Qed.

Lemma digit_val_range c d : digit_val c = Some d -> 0 <= d <= 9.
Proof.
  unfold digit_val.
  destruct (Z.leb_spec 48 (Z.of_N (N_of_ascii c))); [|done].
  destruct (Z.leb_spec (Z.of_N (N_of_ascii c)) 57); [|done].
  cbn [andb]. intros [= <-]. lia.
Qed.

Lemma digit_val_code c d : digit_val c = Some d -> Z.of_N (N_of_ascii c) = 48 + d.
Proof.
  unfold digit_val. destruct (_ && _); [|done]. intros [= <-]. lia.
Qed.

Lemma digit_val_not_special c d :
  digit_val c = Some d ->
  Ascii.eqb c "-" = false /\ Ascii.eqb c "+" = false
  /\ Ascii.eqb c LF = false /\ Ascii.eqb c CR = false.
Proof.
  intros Hc.
  repeat split; apply Ascii.eqb_neq; intros ->; vm_compute in Hc; discriminate.
Qed.

(** The value of [s] after [n] is [n] shifted by the length of [s], plus
    what the digits of [s] are worth. *)
Lemma decimal_value_bounds s : forall n v,
  decimal_value s n = Some v ->
  n * 10 ^ Z.of_nat (String.length s) <= v
  < (n + 1) * 10 ^ Z.of_nat (String.length s).
Proof.
  induction s as [|c s IH]; intros n v Hv; cbn [decimal_value] in Hv.
  - injection Hv as <-. cbn. lia.
  - destruct (digit_val c) as [d|] eqn:Hc; [|done].
    apply digit_val_range in Hc. apply IH in Hv.
    cbn [String.length]. rewrite Nat2Z.inj_succ, Z.pow_succ_r by lia.
    assert (0 < 10 ^ Z.of_nat (String.length s)) by (apply Z.pow_pos_nonneg; lia).
    nia.
Qed.

Lemma ParseUint_loop_value s : forall n v,
  0 <= n -> decimal_value s n = Some v -> v <= MaxUint64 ->
  ParseUint_loop s n = (v, None).
Proof.
  induction s as [|c s IH]; intros n v Hn Hv Hmax;
    cbn [decimal_value ParseUint_loop] in *.
  - by injection Hv as <-.
  - destruct (digit_val c) as [d|] eqn:Hc; [|done].
    pose proof (digit_val_range _ _ Hc) as Hd.
    pose proof (decimal_value_bounds _ _ _ Hv) as Hb.
    assert (0 < 10 ^ Z.of_nat (String.length s)) by (apply Z.pow_pos_nonneg; lia).
    assert (n * 10 + d <= v) by nia.
    unfold MaxUint64 in *.
    change (18446744073709551615 / 10 + 1) with 1844674407370955162.
    destruct (Z.leb_spec 1844674407370955162 n); [lia|].
    destruct (Z.ltb_spec 18446744073709551615 (n * 10 + d)); [lia|].
    apply IH; [lia | done | done].
Qed.

Lemma decimal_value_digits_from fuel : forall u acc,
  0 <= u < 10 ^ Z.of_nat fuel ->
  exists k, 0 <= k /\ forall n,
    decimal_value (digits_from fuel u acc) n
    = decimal_value acc (n * 10 ^ k + u).
Proof.
  induction fuel as [|fuel IH]; intros u acc Hu.
  - exists 0. split; [done|]. intros n. cbn [digits_from].
    change (10 ^ Z.of_nat 0) with 1 in Hu. rewrite Z.pow_0_r. f_equal. lia.
  - cbn [digits_from]. destruct (Z.ltb_spec u 10) as [Hlt|Hge].
    + exists 1. split; [done|]. intros n. cbn [decimal_value].
      rewrite digit_val_digit by lia. by rewrite Z.pow_1_r.
    + rewrite Nat2Z.inj_succ, Z.pow_succ_r in Hu by lia.
      destruct (IH (u / 10) (String (digit (u mod 10)) acc)) as (k & Hk & Heq).
      { split; [apply Z.div_pos; lia | apply Z.div_lt_upper_bound; lia]. }
      exists (k + 1). split; [lia|]. intros n. rewrite Heq.
      cbn [decimal_value].
      pose proof (Z.mod_pos_bound u 10 ltac:(lia)).
      rewrite digit_val_digit by lia.
      f_equal. rewrite Z.pow_add_r, Z.pow_1_r by lia.
      pose proof (Z.div_mod u 10). lia.
Qed.

Lemma decimal_value_zeros m s : decimal_value (zeros m s) 0 = decimal_value s 0.
Proof. induction m as [|m IH]; [done|]. cbn. exact IH. Qed.

Lemma decimal_value_digits u :
  0 <= u < 10 ^ 20 -> decimal_value (digits u) 0 = Some u.
Proof.
  intros Hu. destruct (decimal_value_digits_from 20 u "" Hu) as (k & _ & Heq).
  unfold digits. by rewrite Heq.
Qed.

Lemma digits_from_length fuel : forall (k : nat) u acc,
  (1 <= k)%nat -> 0 <= u < 10 ^ Z.of_nat k ->
  (String.length (digits_from fuel u acc) <= k + String.length acc)%nat.
Proof.
  induction fuel as [|fuel IH]; intros k u acc Hk Hu; cbn [digits_from].
  - lia.
  - destruct (Z.ltb_spec u 10) as [Hlt|Hge]; [cbn [String.length]; lia|].
    destruct k as [|k]; [lia|].
    rewrite Nat2Z.inj_succ, Z.pow_succ_r in Hu by lia.
    destruct k as [|k]; [cbn in Hu; lia|].
    specialize (IH (S k) (u / 10) (String (digit (u mod 10)) acc)).
    cbn [String.length] in IH.
    assert (0 <= u / 10 < 10 ^ Z.of_nat (S k)).
    { split; [apply Z.div_pos; lia | apply Z.div_lt_upper_bound; lia]. }
    specialize (IH ltac:(lia) ltac:(done)). lia.
Qed.

Lemma digits_from_nonempty fuel : forall u acc,
  (0 < fuel)%nat \/ acc <> "" -> digits_from fuel u acc <> "".
Proof.
  induction fuel as [|fuel IH]; intros u acc Hne; cbn [digits_from].
  - by destruct Hne as [?|?]; [lia|].
  - destruct (u <? 10); [done|]. apply IH. by right.
Qed.

Lemma zeros_length m s : String.length (zeros m s) = (m + String.length s)%nat.
Proof. induction m as [|m IH]; [done|]. cbn. by rewrite IH. Qed.

Lemma zeros_nonempty m s : s <> "" -> zeros m s <> "".
Proof. by destruct m. Qed.

(** What [%0<width>d] writes for a number that is not negative. *)
Lemma Sprintf_d_nonneg width z :
  0 <= z < 10 ^ 20 ->
  decimal_value (Sprintf_d width z) 0 = Some z /\ Sprintf_d width z <> "".
Proof.
  intros Hz. unfold Sprintf_d.
  destruct (Z.ltb_spec z 0); [lia|]. rewrite Z.abs_eq by lia. split.
  - rewrite decimal_value_zeros. by apply decimal_value_digits.
  - apply zeros_nonempty, digits_from_nonempty. left. lia.
Qed.

Lemma Sprintf_d_neg width z :
  - 10 ^ 20 < z < 0 ->
  exists body,
    Sprintf_d width z = String "-" body
    /\ decimal_value body 0 = Some (- z) /\ body <> "".
Proof.
  intros Hz. unfold Sprintf_d.
  destruct (Z.ltb_spec z 0); [|lia]. rewrite Z.abs_neq by lia.
  eexists. split; [done|]. split.
  - rewrite decimal_value_zeros. apply decimal_value_digits. lia.
  - apply zeros_nonempty, digits_from_nonempty. left. lia.
Qed.

Lemma ParseUint_value s v :
  s <> "" -> decimal_value s 0 = Some v -> v <= MaxUint64 ->
  ParseUint s = (v, None).
Proof.
  intros Hs Hv Hmax. unfold ParseUint.
  destruct (String.eqb_spec s ""); [done|]. by apply ParseUint_loop_value.
Qed.

Lemma Atoi_Sprintf_d width z :
  MinInt <= z <= MaxInt -> Atoi (Sprintf_d width z) = (z, None).
Proof.
  unfold MinInt, MaxInt. intros Hz. destruct (Z.lt_ge_cases z 0) as [Hneg|Hpos].
  - destruct (Sprintf_d_neg width z) as (body & -> & Hv & Hbody); [lia|].
    unfold Atoi. change (Ascii.eqb "-" "-") with true.
    change (Ascii.eqb "-" "+") with false. cbn [orb].
    rewrite (ParseUint_value body (- z)); [|done|done|unfold MaxUint64; lia].
    cbn [negb andb].
    change (2 ^ 63) with 9223372036854775808.
    destruct (Z.ltb_spec 9223372036854775808 (- z)); [lia|].
    f_equal. lia.
  - destruct (Sprintf_d_nonneg width z) as [Hv Hne]; [lia|].
    destruct (Sprintf_d width z) as [|c0 rest] eqn:Hs; [done|].
    assert (exists d, digit_val c0 = Some d) as [d Hc0].
    { cbn [decimal_value] in Hv. destruct (digit_val c0); [by eexists|done]. }
    destruct (digit_val_not_special _ _ Hc0) as (Hminus & Hplus & _).
    unfold Atoi. rewrite Hminus, Hplus. cbn [orb].
    rewrite (ParseUint_value _ z); [|done|done|unfold MaxUint64; lia].
    cbn [negb andb].
    change (2 ^ 63) with 9223372036854775808.
    destruct (Z.leb_spec 9223372036854775808 z); [lia|]. done.
Qed.

Lemma ParseUint_loop_range s : forall n,
  0 <= n <= MaxUint64 -> 0 <= (ParseUint_loop s n).1 <= MaxUint64.
Proof.
  induction s as [|c s IH]; intros n Hn; cbn [ParseUint_loop]; [done|].
  destruct (digit_val c) as [d|] eqn:Hc; [|cbn [fst]; unfold MaxUint64; lia].
  apply digit_val_range in Hc.
  destruct (_ <=? n); [cbn [fst]; unfold MaxUint64; lia|].
  cbv zeta.
  destruct (Z.ltb_spec MaxUint64 (n * 10 + d));
    [cbn [fst]; unfold MaxUint64; lia|].
  apply IH. lia.
Qed.

(** [Atoi] returns an [int], and 0 with a syntax error. *)
Lemma Atoi_range s :
  MinInt <= (Atoi s).1 <= MaxInt
  /\ ((Atoi s).2 = Some ErrSyntax -> (Atoi s).1 = 0).
Proof.
  unfold Atoi, MinInt, MaxInt. destruct s as [|c0 rest]; [cbn [fst snd]; split; [lia|done]|].
  cbv zeta.
  set (s := if Ascii.eqb c0 "+" || Ascii.eqb c0 "-" then rest
            else String c0 rest).
  assert (0 <= (ParseUint s).1 <= MaxUint64) as Hrange.
  { unfold ParseUint.
    destruct (String.eqb s ""); [cbn [fst]; unfold MaxUint64; lia|].
    apply ParseUint_loop_range. unfold MaxUint64. lia. }
  destruct (ParseUint s) as [un [[]|]]; cbn [fst snd] in *; [lia| |].
  all: change (2 ^ 63) with 9223372036854775808.
  all: destruct (Ascii.eqb c0 "-"); cbn [negb andb];
    repeat match goal with
    | |- context [Z.leb ?a ?b] => destruct (Z.leb_spec a b)
    | |- context [Z.ltb ?a ?b] => destruct (Z.ltb_spec a b)
    end; cbn [fst snd]; split; try lia; try done.
Qed.

Lemma wrap_int_range z : MinInt <= wrap_int z <= MaxInt.
Proof.
  unfold wrap_int, MinInt, MaxInt.
  pose proof (Z.mod_pos_bound (z + 2 ^ 63) (2 ^ 64) ltac:(lia)). lia.
Qed.

Lemma wrap_int_id z : MinInt <= z <= MaxInt -> wrap_int z = z.
Proof.
  unfold wrap_int, MinInt, MaxInt. intros Hz.
  rewrite Z.mod_small by lia. lia.
Qed.

End StrconvFacts.

(** ** Serial number of the backup *)

Lemma str_length_app s t :
  String.length (s ++ t)%string = (String.length s + String.length t)%nat.
Proof. induction s as [|c s IH]; [done|]. simpl. by rewrite IH. Qed.

Lemma str_app_cons c s t : (String c s ++ t)%string = String c (s ++ t)%string.
Proof. done. Qed.

Lemma str_app_assoc s t u : ((s ++ t) ++ u = s ++ (t ++ u))%string.
Proof. induction s as [|c s IH]; [done|]. by rewrite !str_app_cons, IH. Qed.

Lemma first_line_digits s : forall n v t,
  Strconv.decimal_value s n = Some v ->
  first_line (s ++ String LF t)%string = s.
Proof.
  induction s as [|c s IH]; intros n v t Hv.
  - change (first_line (String LF t) = ""). cbn [first_line].
    by rewrite Ascii.eqb_refl.
  - rewrite str_app_cons. cbn [first_line].
    cbn [Strconv.decimal_value] in Hv.
    destruct (Strconv.digit_val c) as [d|] eqn:Hc; [|done].
    destruct (digit_val_not_special _ _ Hc) as (_ & _ & -> & _).
    f_equal. by eapply IH.
Qed.

Lemma dropCR_digits s : forall n v,
  Strconv.decimal_value s n = Some v -> dropCR s = s.
Proof.
  induction s as [|c s IH]; intros n v Hv; [done|].
  cbn [Strconv.decimal_value] in Hv.
  destruct (Strconv.digit_val c) as [d|] eqn:Hc; [|done].
  destruct (digit_val_not_special _ _ Hc) as (_ & _ & _ & Hcr).
  cbn [dropCR]. destruct s as [|c' s]; [by rewrite Hcr|].
  f_equal. by eapply IH.
Qed.

Lemma Sprintf_d_length width z :
  Z.abs z < 10 ^ 20 ->
  (String.length (Strconv.Sprintf_d width z) <= width + 21)%nat.
Proof.
  intros Hz. unfold Strconv.Sprintf_d.
  pose proof (digits_from_length 20 20 (Z.abs z) "" ltac:(lia) ltac:(lia)) as Hlen.
  fold (Strconv.digits (Z.abs z)) in Hlen. cbn [String.length] in Hlen.
  destruct (z <? 0); cbn [String.length]; rewrite zeros_length; lia.
Qed.

(** The line that [getNextID] writes is read back as the number written. *)
Lemma scan_id_Sprintf_d width z t :
  (width <= 1000)%nat -> Strconv.MinInt <= z <= Strconv.MaxInt ->
  scan_id (Strconv.Sprintf_d width z ++ String LF t)%string = z.
Proof.
  intros Hwidth Hz. pose proof Hz as Hz'.
  unfold Strconv.MinInt, Strconv.MaxInt in Hz'.
  assert (Hscan : Scan_Text (Strconv.Sprintf_d width z ++ String LF t)%string
                  = Some (Strconv.Sprintf_d width z)).
  { pose proof (Sprintf_d_length width z ltac:(lia)) as Hlen.
    assert (first_line (Strconv.Sprintf_d width z ++ String LF t)%string
            = Strconv.Sprintf_d width z
            /\ dropCR (Strconv.Sprintf_d width z) = Strconv.Sprintf_d width z)
      as [Hline Hcr].
    { destruct (Z.lt_ge_cases z 0) as [Hneg|Hpos].
      - destruct (Sprintf_d_neg width z) as (body & -> & Hv & Hbody); [lia|].
        rewrite str_app_cons. cbn [first_line dropCR].
        change (Ascii.eqb "-" LF) with false. cbv iota.
        rewrite (first_line_digits _ _ _ _ Hv), (dropCR_digits _ _ _ Hv).
        by destruct body.
      - destruct (Sprintf_d_nonneg width z) as [Hv _]; [lia|].
        by rewrite (first_line_digits _ _ _ _ Hv), (dropCR_digits _ _ _ Hv). }
    unfold Scan_Text. rewrite Hline, Hcr.
    destruct (String.eqb_spec (Strconv.Sprintf_d width z ++ String LF t) "")
      as [Hempty|_].
    { by destruct (Strconv.Sprintf_d width z). }
    destruct (Z.leb_spec 65536
      (Z.of_nat (String.length (Strconv.Sprintf_d width z)))); [lia|done]. }
  unfold scan_id. rewrite Hscan. by rewrite Atoi_Sprintf_d.
Qed.

Lemma scan_id_range data : Strconv.MinInt <= scan_id data <= Strconv.MaxInt.
Proof.
  unfold scan_id. destruct (Scan_Text data) as [text|].
  - apply Atoi_range.
  - done.
Qed.

Lemma last_id_range path w : Strconv.MinInt <= last_id path w <= Strconv.MaxInt.
Proof.
  unfold last_id. destruct (files w !! path); [apply scan_id_range | done].
Qed.

Lemma OpenFile_error_exists create_error path w :
  path <> "" -> is_Some (files w !! path) ->
  OpenFile_error create_error path w = None.
Proof.
  intros Hpath [data Hfile]. unfold OpenFile_error.
  rewrite decide_False by done. by rewrite Hfile.
Qed.

Lemma OpenFile_error_path create_error path w :
  OpenFile_error create_error path w = None -> path <> "".
Proof. unfold OpenFile_error. by case_decide. Qed.

Lemma OpenFile_error_empty create_error w :
  OpenFile_error create_error "" w = Some ErrNotExist.
Proof. done. Qed.

(** The live call as one equation. *)
Lemma getNextID_eq create_error path w :
  OpenFile_error create_error path w = None ->
  let id := Strconv.wrap_int (last_id path w + 1) in
  getNextID create_error path false w
  = Returned (id, None)
      (mkWorld (dirs w)
         (<[path := (Strconv.Sprintf_d 6 id ++ String LF "")%string]> (files w))
         (trace w)).
Proof.
  intros Hopen.
  unfold getNextID, OpenFile_create, rewrite_file, last_id, mbind, M_bind.
  rewrite Hopen.
  destruct (files w !! path) as [data|] eqn:Hfile; cbn [mret M_ret].
  - done.
  - unfold set_files. cbn [files dirs trace]. by rewrite insert_insert_eq.
Qed.

(** The live call on a file that cannot be opened. *)
Lemma getNextID_fails create_error path e w :
  OpenFile_error create_error path w = Some e ->
  getNextID create_error path false w = Returned (0, Some e) w.
Proof.
  intros Hopen. unfold getNextID, OpenFile_create, mbind, M_bind.
  by rewrite Hopen.
Qed.

Lemma getNextIDDryRun_eq path w :
  getNextIDDryRun path w = Returned (Strconv.wrap_int (last_id path w + 1), None) w.
Proof.
  unfold getNextIDDryRun, Open, last_id, mbind, M_bind.
  by destruct (files w !! path).
Qed.

Lemma last_id_written path ds fs tr z :
  Strconv.MinInt <= z <= Strconv.MaxInt ->
  last_id path
    (mkWorld ds (<[path := (Strconv.Sprintf_d 6 z ++ String LF "")%string]> fs) tr)
  = z.
Proof.
  intros Hz. unfold last_id. cbn [files]. rewrite lookup_insert_eq.
  apply scan_id_Sprintf_d; [lia | done].
Qed.

(** X4: [%0<width>d] and [Atoi] are inverse on the whole range of [int],
    the negative numbers and the widths below the number of digits
    included; and a line written with [%0<width>d] is read back by the
    scanner and [Atoi] as the number written. *)
Theorem Atoi_reads_what_Sprintf_writes (width : nat) (z : Z) :
  Strconv.MinInt <= z <= Strconv.MaxInt ->
  Strconv.Atoi (Strconv.Sprintf_d width z) = (z, None)
  /\ ((width <= 1000)%nat ->
      forall rest,
        scan_id (Strconv.Sprintf_d width z ++ String LF rest)%string = z).
Proof.
  intros Hz. split; [by apply Atoi_Sprintf_d|].
  intros Hwidth rest. by apply scan_id_Sprintf_d.
Qed.

Lemma Atoi_reads_what_Sprintf_writes_witness :
  Strconv.Atoi (Strconv.Sprintf_d 6 (-42)) = (-42, None)
  /\ Strconv.Sprintf_d 6 (-42) = "-00042".
Proof.
  split; [|reflexivity].
  apply (Atoi_reads_what_Sprintf_writes 6 (-42)). vm_compute. split; discriminate.
Defined.

(** X5: when the file of the serial number exists, or can be created, at
    a path that is not empty, a live call of [getNextID] returns the
    number the file holds plus one (1 when there is no file), stores it in
    the file, which then holds exactly that number, and touches nothing
    else; the dry-run call returns the same number and changes nothing.
    When the file is missing and cannot be created, as in a directory that
    does not exist, the live call returns the error of the open and no
    number, and changes nothing, where the dry-run call still returns
    1. *)
Theorem getNextID_stores_what_it_returns
    (create_error : string -> option error) (path : string) (w : World) :
  let id := Strconv.wrap_int (last_id path w + 1) in
  (path <> "" ->
   is_Some (files w !! path) \/ create_error path = None ->
   exists w',
     getNextID create_error path false w = Returned (id, None) w'
     /\ files w'
        = <[path := (Strconv.Sprintf_d 6 id ++ String LF "")%string]> (files w)
     /\ dirs w' = dirs w /\ trace w' = trace w
     /\ last_id path w' = id
     /\ getNextID create_error path true w = Returned (id, None) w
     /\ getNextIDDryRun path w' = Returned (Strconv.wrap_int (id + 1), None) w'
     /\ (files w !! path = None -> id = 1))
  /\ (forall e,
        files w !! path = None -> create_error path = Some e ->
        path <> "" ->
        getNextID create_error path false w = Returned (0, Some e) w
        /\ getNextID create_error path true w = Returned (1, None) w).
Proof.
  intros id. split; cycle 1.
  { intros e Hnone Hcreate Hpath. split.
    - apply getNextID_fails. unfold OpenFile_error.
      rewrite decide_False by done. by rewrite Hnone.
    - cbn [getNextID]. rewrite getNextIDDryRun_eq. unfold last_id.
      by rewrite Hnone. }
  intros Hpath Hcan.
  assert (Hopen : OpenFile_error create_error path w = None).
  { unfold OpenFile_error. rewrite decide_False by done.
    destruct (files w !! path) eqn:Hfile; [done|].
    destruct Hcan as [[? ?]|?]; done. }
  eexists. split; [by apply getNextID_eq|]. cbn [files dirs trace].
  split; [done|]. split; [done|]. split; [done|].
  assert (Hid : Strconv.MinInt <= id <= Strconv.MaxInt)
    by apply wrap_int_range.
  split; [by apply last_id_written|].
  split; [apply getNextIDDryRun_eq|]. split.
  - rewrite getNextIDDryRun_eq. by rewrite last_id_written.
  - intros Hnone. unfold id, last_id. by rewrite Hnone.
Qed.

Lemma getNextID_stores_what_it_returns_witness :
  exists w',
    getNextID (fun _ => Some ErrNotExist) "last_id.txt" false
      (mkWorld ∅ {[ "last_id.txt" := String "4" (String "1" (String LF "")) ]} [])
    = Returned (42, None) w'
    /\ last_id "last_id.txt" w' = 42.
Proof.
  destruct (getNextID_stores_what_it_returns (fun _ => Some ErrNotExist)
              "last_id.txt"
              (mkWorld ∅ {[ "last_id.txt" := String "4" (String "1" (String LF "")) ]} []))
    as [Hstores _].
  destruct Hstores as (w' & Hrun & _ & _ & _ & Hlast & _);
    [done | left; by eexists |].
  exists w'. split; [exact Hrun | exact Hlast].
Defined.

Lemma next_ids_eq create_error path n : forall w,
  OpenFile_error create_error path w = None ->
  last_id path w + Z.of_nat n <= Strconv.MaxInt ->
  exists w',
    next_ids create_error path n w
    = Returned (map (fun i => last_id path w + Z.of_nat i) (seq 1 n)) w'
    /\ dirs w' = dirs w /\ trace w' = trace w
    /\ last_id path w' = last_id path w + Z.of_nat n.
Proof.
  induction n as [|n IH]; intros w Hopen Hmax.
  - exists w. cbn. split; [done|]. split; [done|]. split; [done|]. lia.
  - cbn [next_ids]. unfold mbind, M_bind. rewrite getNextID_eq by done. cbv zeta.
    pose proof (last_id_range path w) as Hrange.
    rewrite (wrap_int_id (last_id path w + 1)) by lia.
    set (w1 := mkWorld _ _ _).
    assert (Hw1 : last_id path w1 = last_id path w + 1).
    { apply last_id_written. lia. }
    assert (Hopen1 : OpenFile_error create_error path w1 = None).
    { apply OpenFile_error_exists; [by eapply OpenFile_error_path|].
      unfold w1. cbn [files]. rewrite lookup_insert_eq. by eexists. }
    destruct (IH w1) as (w' & Hrun & Hdirs & Htrace & Hlast); [done|lia|].
    exists w'. rewrite Hrun. cbn [mret M_ret].
    split.
    { f_equal. cbn [seq map]. f_equal.
      rewrite <- (seq_shift n 1), map_map. apply map_ext. intros i. lia. }
    split; [done|]. split; [done|]. lia.
Qed.

(** X6: as long as the counter does not reach the largest [int], [n] live
    runs in a row, on a path that is not empty and at which the file
    exists or can be created, get the [n] numbers that follow the stored
    one, one by one and without a gap; from a missing file these are 1,
    2, ..., n. *)
Theorem next_ids_consecutive (create_error : string -> option error)
    (path : string) (n : nat) (w : World) :
  path <> "" ->
  is_Some (files w !! path) \/ create_error path = None ->
  last_id path w + Z.of_nat n <= Strconv.MaxInt ->
  exists w',
    next_ids create_error path n w
    = Returned (map (fun i => last_id path w + Z.of_nat i) (seq 1 n)) w'
    /\ last_id path w' = last_id path w + Z.of_nat n
    /\ (files w !! path = None ->
        next_ids create_error path n w = Returned (map Z.of_nat (seq 1 n)) w').
Proof.
  intros Hpath Hcan Hmax.
  assert (Hopen : OpenFile_error create_error path w = None).
  { unfold OpenFile_error. rewrite decide_False by done.
    destruct (files w !! path) eqn:Hfile; [done|].
    destruct Hcan as [[? ?]|?]; done. }
  destruct (next_ids_eq create_error path n w Hopen Hmax)
    as (w' & Hrun & _ & _ & Hlast).
  exists w'. split; [done|]. split; [done|].
  intros Hnone. rewrite Hrun. f_equal. apply map_ext. intros i.
  unfold last_id. by rewrite Hnone.
Qed.

Lemma next_ids_consecutive_witness :
  exists w',
    next_ids (fun _ => None) "last_id.txt" 3 Examples.w_empty
    = Returned [1; 2; 3] w'
    /\ last_id "last_id.txt" w' = 3.
Proof.
  destruct (next_ids_consecutive (fun _ => None) "last_id.txt" 3 Examples.w_empty)
    as (w' & _ & Hlast & Hrun);
    [done | by right | vm_compute; discriminate |].
  exists w'. split; [by apply Hrun | exact Hlast].
Defined.

(** X7: a file whose first line is not a decimal number (the scanner gets
    no line, or [Atoi] reports a syntax error, as it does for a number
    followed by a blank or a comment) is read as 0: the error is dropped,
    the next number is 1 again and the file is overwritten with it. *)
Theorem getNextID_restarts_on_unreadable_file
    (create_error : string -> option error) (path data : string) (w : World) :
  path <> "" ->
  files w !! path = Some data ->
  Scan_Text data = None
  \/ (exists text,
        Scan_Text data = Some text
        /\ (Strconv.Atoi text).2 = Some Strconv.ErrSyntax) ->
  exists w',
    getNextID create_error path false w = Returned (1, None) w'
    /\ files w' !! path = Some (String "0" (String "0" (String "0"
         (String "0" (String "0" (String "1" (String LF "")))))))
    /\ getNextID create_error path true w = Returned (1, None) w.
Proof.
  intros Hpath Hfile Hbad.
  assert (Hopen : OpenFile_error create_error path w = None).
  { apply OpenFile_error_exists; [done | by eexists]. }
  assert (Hlast : last_id path w = 0).
  { unfold last_id, scan_id. rewrite Hfile.
    destruct Hbad as [->|(text & -> & Herr)]; [done|].
    by apply Atoi_range. }
  eexists. split; [|split].
  - rewrite getNextID_eq by done. cbv zeta. rewrite Hlast. reflexivity.
  - cbn [files]. by rewrite lookup_insert_eq.
  - cbn [getNextID]. rewrite getNextIDDryRun_eq, Hlast. reflexivity.
Qed.

Lemma getNextID_restarts_on_unreadable_file_witness :
  exists w',
    getNextID (fun _ => Some ErrNotExist) "last_id.txt" false
      (mkWorld ∅ {[ "last_id.txt" := "000041 backups" ]} [])
    = Returned (1, None) w'.
Proof.
  destruct (getNextID_restarts_on_unreadable_file (fun _ => Some ErrNotExist)
              "last_id.txt" "000041 backups"
              (mkWorld ∅ {[ "last_id.txt" := "000041 backups" ]} []))
    as (w' & Hrun & _).
  - done.
  - reflexivity.
  - right. exists "000041 backups". split; reflexivity.
  - by exists w'.
Defined.

(** ** Names of the backup files *)

Lemma substring_all t : substring 0 (String.length t) t = t.
Proof. induction t as [|c t IH]; [done|]. simpl. by rewrite IH. Qed.

Lemma substring_app_suffix s t :
  substring (String.length s) (String.length t) (s ++ t)%string = t.
Proof.
  induction s as [|c s IH].
  - apply substring_all.
  - rewrite str_app_cons. simpl. exact IH.
Qed.

Lemma HasSuffix_app s suffix : HasSuffix (s ++ suffix)%string suffix = true.
Proof.
  unfold HasSuffix. rewrite str_length_app.
  replace (String.length s + String.length suffix - String.length suffix)%nat
    with (String.length s) by lia.
  rewrite substring_app_suffix, String.eqb_refl, andb_true_r.
  apply Nat.leb_le. lia.
Qed.

Lemma backup_filename_vhdx id timeStamp :
  HasSuffix (backup_filename id timeStamp) ".vhdx" = true.
Proof.
  unfold backup_filename. rewrite <- !str_app_assoc. apply HasSuffix_app.
Qed.

Lemma digit_val_compare c1 c2 d1 d2 :
  Strconv.digit_val c1 = Some d1 -> Strconv.digit_val c2 = Some d2 ->
  Ascii.compare c1 c2 = (d1 ?= d2).
Proof.
  intros H1%digit_val_code H2%digit_val_code. unfold Ascii.compare.
  destruct (N.compare_spec (N_of_ascii c1) (N_of_ascii c2));
    destruct (Z.compare_spec d1 d2); try done; lia.
Qed.

(** Two strings of digits of the same length compare as the numbers they
    denote, whatever follows them. *)
Lemma compare_digits_lt s : forall t n v1 v2 r1 r2,
  String.length s = String.length t ->
  Strconv.decimal_value s n = Some v1 -> Strconv.decimal_value t n = Some v2 ->
  v1 < v2 ->
  String.compare (s ++ r1) (t ++ r2) = Lt.
Proof.
  induction s as [|c s IH]; intros [|c' t] n v1 v2 r1 r2 Hlen Hv1 Hv2 Hlt;
    try done.
  - cbn in Hv1, Hv2. congruence || (injection Hv1 as <-; injection Hv2 as <-; lia).
  - rewrite !str_app_cons. cbn [String.compare].
    cbn [Strconv.decimal_value] in Hv1, Hv2.
    destruct (Strconv.digit_val c) as [d|] eqn:Hc; [|done].
    destruct (Strconv.digit_val c') as [d'|] eqn:Hc'; [|done].
    rewrite (digit_val_compare _ _ _ _ Hc Hc').
    injection Hlen as Hlen.
    pose proof (decimal_value_bounds _ _ _ Hv1) as Hb1.
    pose proof (decimal_value_bounds _ _ _ Hv2) as Hb2.
    rewrite Hlen in Hb1.
    assert (0 < 10 ^ Z.of_nat (String.length t)) by (apply Z.pow_pos_nonneg; lia).
    destruct (Z.compare_spec d d') as [->|Hd|Hd].
    + by eapply IH.
    + done.
    + nia.
Qed.

Lemma compare_Lt_str_le a b :
  String.compare a b = Lt -> str_le a b /\ ~ str_le b a.
Proof.
  intros Hab. unfold str_le, String.leb.
  rewrite (String.compare_antisym b a), Hab. by split.
Qed.

Lemma digits_length u (k : nat) :
  (1 <= k <= 20)%nat -> 10 ^ (Z.of_nat k - 1) <= u < 10 ^ Z.of_nat k ->
  String.length (Strconv.digits u) = k.
Proof.
  intros Hk Hu.
  assert (0 < 10 ^ (Z.of_nat k - 1)) by (apply Z.pow_pos_nonneg; lia).
  pose proof (digits_from_length 20 k u "" ltac:(lia) ltac:(lia)) as Hle.
  fold (Strconv.digits u) in Hle. cbn [String.length] in Hle.
  assert (u < 10 ^ 20).
  { eapply Z.lt_le_trans; [apply Hu|]. apply Z.pow_le_mono_r; lia. }
  pose proof (decimal_value_bounds _ _ _ (decimal_value_digits u ltac:(lia)))
    as Hb.
  destruct (decide (String.length (Strconv.digits u) < k)%nat) as [Hlt|]; [|lia].
  assert (10 ^ Z.of_nat (String.length (Strconv.digits u)) <= 10 ^ (Z.of_nat k - 1))
    by (apply Z.pow_le_mono_r; lia).
  lia.
Qed.

(** Below one million, [%06d] writes exactly six digits. *)
Lemma Sprintf_06d_small z :
  0 <= z < 1000000 ->
  String.length (Strconv.Sprintf_d 6 z) = 6%nat
  /\ Strconv.decimal_value (Strconv.Sprintf_d 6 z) 0 = Some z.
Proof.
  intros Hz. split; [|apply Sprintf_d_nonneg; lia].
  unfold Strconv.Sprintf_d. destruct (Z.ltb_spec z 0); [lia|].
  rewrite Z.abs_eq by lia. rewrite zeros_length.
  pose proof (digits_from_length 20 6 z "" ltac:(lia) ltac:(lia)) as Hle.
  fold (Strconv.digits z) in Hle. cbn [String.length] in Hle. lia.
Qed.

(** From one million on it writes the digits as they are. *)
Lemma Sprintf_06d_large z :
  1000000 <= z < 10000000 ->
  Strconv.Sprintf_d 6 z = Strconv.digits z
  /\ String.length (Strconv.digits z) = 7%nat
  /\ Strconv.decimal_value (Strconv.digits z) 0 = Some z.
Proof.
  intros Hz.
  pose proof (digits_length z 7 ltac:(lia) ltac:(lia)) as Hlen.
  split; [|split; [done | apply decimal_value_digits; lia]].
  unfold Strconv.Sprintf_d. destruct (Z.ltb_spec z 0); [lia|].
  rewrite Z.abs_eq by lia. by rewrite Hlen.
Qed.

(** Below one million the names compare as their serial numbers. *)
Lemma backup_filename_compare i j ts_i ts_j :
  0 <= i < j -> j < 1000000 ->
  String.compare (backup_filename i ts_i) (backup_filename j ts_j) = Lt.
Proof.
  intros Hi Hj.
  destruct (Sprintf_06d_small i) as [Hli Hvi]; [lia|].
  destruct (Sprintf_06d_small j) as [Hlj Hvj]; [lia|].
  unfold backup_filename. eapply compare_digits_lt; [|done|done|lia]. congruence.
Qed.

(** X8: every name that [runBackup] gives a backup ends in [.vhdx], so the
    rotator and the promoter count it; and while the serial number stays
    below one million, the byte order of two names is the order of their
    serial numbers, whatever the time stamps: the listing that
    [sort.Strings] produces is by age. *)
Theorem backup_filename_sorts_by_id (i j : Z) (ts_i ts_j : string) :
  0 <= i < j -> j < 1000000 ->
  HasSuffix (backup_filename i ts_i) ".vhdx" = true
  /\ HasSuffix (backup_filename j ts_j) ".vhdx" = true
  /\ str_le (backup_filename i ts_i) (backup_filename j ts_j)
  /\ ~ str_le (backup_filename j ts_j) (backup_filename i ts_i)
  /\ sort_Strings [backup_filename j ts_j; backup_filename i ts_i]
     = [backup_filename i ts_i; backup_filename j ts_j].
Proof.
  intros Hi Hj.
  split; [apply backup_filename_vhdx|]. split; [apply backup_filename_vhdx|].
  pose proof (backup_filename_compare i j ts_i ts_j Hi Hj) as Hcmp.
  apply compare_Lt_str_le in Hcmp as [Hle Hnle].
  split; [done|]. split; [done|].
  apply (StronglySorted_unique str_le).
  - apply sort_Strings_sorted.
  - repeat constructor; done.
  - rewrite sort_Strings_perm. apply Permutation_swap.
Qed.

Lemma backup_filename_sorts_by_id_witness :
  str_le (backup_filename 9 "20250701_2330") (backup_filename 10 "20250701_0000")
  /\ ~ str_le (backup_filename 10 "20250701_0000")
         (backup_filename 9 "20250701_2330").
Proof.
  destruct (backup_filename_sorts_by_id 9 10 "20250701_2330" "20250701_0000")
    as (_ & _ & Hle & Hnle & _); [lia | lia |].
  by split.
Defined.

(** X9: the order by name stops being the order by age at one million:
    the seven digits of a serial number from 1000000 on begin with a 1 and
    sort before the six digits of every older backup from 200000 on, so the
    listing puts the newest backup first, where the promoter and the
    rotator take the oldest. *)
Theorem backup_filename_order_breaks_at_million (i j : Z) (ts_i ts_j : string) :
  200000 <= i < 1000000 -> 1000000 <= j < 2000000 ->
  str_le (backup_filename j ts_j) (backup_filename i ts_i)
  /\ ~ str_le (backup_filename i ts_i) (backup_filename j ts_j)
  /\ sort_Strings [backup_filename i ts_i; backup_filename j ts_j]
     = [backup_filename j ts_j; backup_filename i ts_i].
Proof.
  intros Hi Hj.
  destruct (Sprintf_06d_small i) as [Hli Hvi]; [lia|].
  destruct (Sprintf_06d_large j) as (Hsj & Hlj & Hvj); [lia|].
  assert (Hcmp : String.compare (backup_filename j ts_j) (backup_filename i ts_i)
                 = Lt).
  { unfold backup_filename. rewrite Hsj.
    destruct (Strconv.digits j) as [|cj sj]; [done|].
    destruct (Strconv.Sprintf_d 6 i) as [|ci si]; [done|].
    injection Hli as Hli. injection Hlj as Hlj.
    cbn [Strconv.decimal_value] in Hvi, Hvj.
    destruct (Strconv.digit_val ci) as [di|] eqn:Hci; [|done].
    destruct (Strconv.digit_val cj) as [dj|] eqn:Hcj; [|done].
    apply decimal_value_bounds in Hvi, Hvj. rewrite Hli in Hvi. rewrite Hlj in Hvj.
    change (10 ^ Z.of_nat 5) with 100000 in Hvi.
    change (10 ^ Z.of_nat 6) with 1000000 in Hvj.
    rewrite !str_app_cons. cbn [String.compare].
    rewrite (digit_val_compare _ _ _ _ Hcj Hci).
    destruct (Z.compare_spec dj di); [lia | done | lia]. }
  apply compare_Lt_str_le in Hcmp as [Hle Hnle].
  split; [done|]. split; [done|].
  apply (StronglySorted_unique str_le).
  - apply sort_Strings_sorted.
  - repeat constructor; done.
  - rewrite sort_Strings_perm. apply Permutation_swap.
Qed.

Lemma backup_filename_order_breaks_at_million_witness :
  sort_Strings [backup_filename 999999 "20820101_0000";
                backup_filename 1000000 "20820101_0030"]
  = ["1000000_20820101_0030.vhdx"; "999999_20820101_0000.vhdx"].
Proof.
  destruct (backup_filename_order_breaks_at_million 999999 1000000
              "20820101_0000" "20820101_0030") as (_ & _ & Hsort); [lia | lia |].
  exact Hsort.
Defined.

(** ** What the rotation block leaves as it is *)

Global Instance nothing_new_preorder : PreOrder nothing_new.
Proof.
  split.
  - intros w dir name c Hc. by exists dir.
  - intros w1 w2 w3 H12 H23 dir name c Hc.
    destruct (H23 _ _ _ Hc) as [dir' Hc']. by apply (H12 dir').
Qed.

Global Instance same_files_preorder : PreOrder same_files.
Proof.
  split.
  - by intros w.
  - intros w1 w2 w3 H12 H23. unfold same_files in *. congruence.
Qed.

Lemma same_tiers_nothing_new w w' : same_tiers w w' -> nothing_new w w'.
Proof. intros Hs dir name c Hc. exists dir. by rewrite <- Hs. Qed.

Lemma log_nothing_new op w : nothing_new w (log op w).
Proof. intros dir name c Hc. by exists dir. Qed.

Lemma alter_delete_nothing_new w name dir fs tr :
  nothing_new w (mkWorld (alter (delete name) dir (dirs w)) fs tr).
Proof.
  intros D n c. rewrite tier_dir_alter. case_decide as HD; [|by exists D].
  subst D. destruct (dirs w !! dir) as [d|] eqn:Hd; [|by rewrite lookup_empty].
  intros [_ Hc]%lookup_delete_Some. exists dir.
  by rewrite (tier_dir_Some _ _ _ Hd).
Qed.

Lemma Remove_nothing_new p : preserves nothing_new (Remove p).
Proof. intros w. rewrite Remove_eq. apply alter_delete_nothing_new. Qed.

Lemma Rename_nothing_new dir dir' old :
  preserves nothing_new (Rename (Join dir old) (Join dir' old)).
Proof.
  intros w. unfold Rename. rewrite entry_log. cbn [log dirs p_dir p_name].
  destruct (entry (Join dir old) w) as [c|] eqn:Hsrc;
    [|apply log_nothing_new].
  destruct (dirs w !! dir') as [dn|] eqn:Hdn; [|apply log_nothing_new].
  cbn [world_of]. unfold set_dirs. cbn [dirs files trace].
  set (wm := mkWorld (alter (delete old) dir (dirs w)) (files w) (trace w)).
  assert (Hm : nothing_new w wm) by apply alter_delete_nothing_new.
  intros D n c'.
  change (alter (insert old c) dir' (alter (delete old) dir (dirs w)))
    with (alter (insert old c) dir' (dirs wm)).
  rewrite tier_dir_alter. case_decide as HD; [|apply Hm].
  subst D. destruct (dirs wm !! dir') as [d|] eqn:Hd; [|by rewrite lookup_empty].
  destruct (decide (n = old)) as [->|Hne].
  - rewrite lookup_insert_eq. intros [= <-]. exists dir.
    unfold entry in Hsrc. cbn [p_dir p_name] in Hsrc. unfold tier_dir.
    destruct (dirs w !! dir); [done | discriminate].
  - rewrite lookup_insert_ne by done. intros Hc'. apply (Hm dir').
    by rewrite (tier_dir_Some _ _ _ Hd).
Qed.

Section Conserved.
Context `{GoRuntime} (cfg : BackupConfig).

Lemma MkdirAll_nothing_new dir : preserves nothing_new (MkdirAll dir).
Proof. intros w. apply same_tiers_nothing_new, MkdirAll_same_tiers. Qed.

Lemma Remove_dir_nothing_new dir : preserves nothing_new (Remove_dir dir).
Proof. intros w. apply same_tiers_nothing_new, Remove_dir_same_tiers. Qed.

Lemma Remove_dir_same_files dir : preserves same_files (Remove_dir dir).
Proof.
  intros w. unfold Remove_dir. cbn [log dirs].
  destruct (dirs w !! dir); [|done]. by case_decide.
Qed.

Lemma ReadDir_nothing_new dir : preserves nothing_new (ReadDir dir).
Proof. intros w. rewrite ReadDir_eq. apply log_nothing_new. Qed.

Lemma Stat_nothing_new p : preserves nothing_new (Stat p).
Proof. intros w. rewrite Stat_eq. apply log_nothing_new. Qed.

Lemma promote_loop_nothing_new over dryRun lvls :
  preserves nothing_new (promote_loop over cfg dryRun lvls).
Proof.
  apply (promote_loop_preserves _ (fun _ => True));
    auto using MkdirAll_nothing_new, ReadDir_nothing_new, Stat_nothing_new,
      Remove_nothing_new, Rename_nothing_new.
  by apply Forall_forall.
Qed.

Lemma rotate_loop_nothing_new lvls :
  preserves nothing_new (rotate_loop cfg lvls).
Proof.
  apply (rotate_loop_preserves _ (fun _ => True));
    auto using MkdirAll_nothing_new, ReadDir_nothing_new, Remove_nothing_new,
      Remove_dir_nothing_new.
  by apply Forall_forall.
Qed.

Lemma MkdirAll_same_files dir : preserves same_files (MkdirAll dir).
Proof.
  intros w. unfold MkdirAll. case_decide; [done|].
  cbn [log dirs]. by destruct (dirs w !! dir).
Qed.

Lemma ReadDir_same_files dir : preserves same_files (ReadDir dir).
Proof. intros w. by rewrite ReadDir_eq. Qed.

Lemma Stat_same_files p : preserves same_files (Stat p).
Proof. intros w. by rewrite Stat_eq. Qed.

Lemma Remove_same_files p : preserves same_files (Remove p).
Proof. intros w. by rewrite Remove_eq. Qed.

Lemma Rename_same_files src dst : preserves same_files (Rename src dst).
Proof.
  intros w. unfold Rename. rewrite entry_log. cbn [log dirs].
  destruct (entry src w); [|done]. by destruct (dirs w !! p_dir dst).
Qed.

Lemma promote_loop_same_files over dryRun lvls :
  preserves same_files (promote_loop over cfg dryRun lvls).
Proof.
  apply (promote_loop_preserves _ (fun _ => True));
    auto using MkdirAll_same_files, ReadDir_same_files, Stat_same_files,
      Remove_same_files, Rename_same_files.
  by apply Forall_forall.
Qed.

Lemma rotate_loop_same_files lvls :
  preserves same_files (rotate_loop cfg lvls).
Proof.
  apply (rotate_loop_preserves _ (fun _ => True));
    auto using MkdirAll_same_files, ReadDir_same_files, Remove_same_files,
      Remove_dir_same_files.
  by apply Forall_forall.
Qed.

Lemma runBackup_rotation_nothing_new :
  preserves nothing_new (runBackup_rotation cfg).
Proof.
  unfold runBackup_rotation. apply preserves_bind; [apply _ | |].
  - apply promote_loop_nothing_new.
  - intros _. apply rotate_loop_nothing_new.
Qed.

Lemma runBackup_rotation_same_files :
  preserves same_files (runBackup_rotation cfg).
Proof.
  unfold runBackup_rotation. apply preserves_bind; [apply _ | |].
  - apply promote_loop_same_files.
  - intros _. apply rotate_loop_same_files.
Qed.

End Conserved.

(** X10: whatever the configuration, the keep counts (negative ones
    included), the capacity that the runtime gives to the listing, and the
    mode, the rotation block of [runBackup] (and each of the two promoters
    alone, and the loop of the rotator alone) only moves and deletes in
    the directories: every entry found in a directory afterwards was an
    entry of some directory before, under the same name and with the same
    content.  This holds for the world it leaves when it panics, too. *)
Theorem rotation_block_invents_nothing `{GoRuntime} (cfg : BackupConfig)
    (dryRun : bool) (lvls : list string) (w : World) :
  let conserved w' :=
    forall dir name c,
      tier_dir w' dir !! name = Some c ->
      exists dir', tier_dir w dir' !! name = Some c in
  conserved (world_of (runBackup_rotation cfg w))
  /\ conserved (world_of (promoteBackup cfg dryRun lvls w))
  /\ conserved (world_of (promoteBackup_part_001 cfg dryRun lvls w))
  /\ conserved (world_of (rotate_loop cfg lvls w)).
Proof.
  intros conserved. split; [|split; [|split]].
  - apply runBackup_rotation_nothing_new.
  - apply promote_loop_nothing_new.
  - apply promote_loop_nothing_new.
  - apply rotate_loop_nothing_new.
Qed.

(** ** After the rotation block *)

Lemma artifacts_foldl_delete_oldest d k :
  artifacts (foldl (fun acc old => delete old acc) d (take k (artifacts d)))
  = drop k (artifacts d).
Proof.
  rewrite <- (artifacts_delete_oldest d k). f_equal. apply map_eq. intros name.
  by rewrite foldl_delete_lookup, foldr_delete_lookup.
Qed.

(** The live rotation loop over distinct directories leaves every tier it
    has visited within its keep count, and the other directories as they
    are. *)
Lemma rotate_loop_bounded `{GoRuntime} cfg lvls : forall w,
  DryRun cfg = false -> well_formed cfg lvls ->
  exists w2,
    rotate_loop cfg lvls w = Returned tt w2
    /\ Forall (within_keep cfg 0 w2) lvls
    /\ (forall D, D ∉ map (dir_of cfg) lvls -> tier_dir w2 D = tier_dir w D).
Proof.
  induction lvls as [|lvl rest IH]; intros w Hlive [Hok Hnd].
  - exists w. split; [done|]. split; [constructor | done].
  - apply Forall_cons_1 in Hok as [[Hdir Hkeep] Hok].
    cbn [map] in Hnd. apply NoDup_cons in Hnd as [Hnotin Hnd].
    cbn [rotate_loop]. unfold mbind, M_bind. rewrite Hlive.
    rewrite rotateBackupsWithPromotion_eq by done. cbv zeta.
    set (dir := dir_of cfg lvl) in *. set (d := tier_dir w dir).
    set (k := (length (artifacts d) - Z.to_nat (keep_of cfg lvl))%nat).
    set (w1 := mkWorld _ _ _).
    destruct (IH w1 Hlive (conj Hok Hnd)) as (w2 & Hrun & Hbound & Hframe).
    exists w2. split; [done|].
    assert (Hself : tier_dir w1 dir
      = foldl (fun acc old => delete old acc) d (take k (artifacts d))).
    { unfold w1. rewrite tier_dir_mk. by rewrite lookup_insert_eq. }
    split; [apply Forall_cons; split; [|done]|].
    + unfold within_keep. fold dir. rewrite (Hframe dir Hnotin), Hself.
      rewrite artifacts_foldl_delete_oldest, length_drop. unfold k. lia.
    + intros D HD. apply not_elem_of_cons in HD as [Hne HD].
      rewrite (Hframe D HD). unfold w1. rewrite tier_dir_mk.
      by rewrite lookup_insert_ne by (by apply not_eq_sym).
Qed.

Lemma runBackup_rotation_live `{GoRuntime} cfg w :
  DryRun cfg = false -> well_formed cfg levels ->
  exists w2,
    runBackup_rotation cfg w = Returned tt w2
    /\ Forall (within_keep cfg 0 w2) levels.
Proof.
  intros Hlive [Hok Hnd].
  destruct (promote_loop_gtb_returns cfg levels w Hok Hnd)
    as (w1 & calls & Hrun1 & _).
  destruct (rotate_loop_bounded cfg levels w1 Hlive (conj Hok Hnd))
    as (w2 & Hrun2 & Hbound & _).
  exists w2. split; [|done].
  unfold runBackup_rotation, mbind, M_bind, promoteBackup.
  rewrite Hlive. by rewrite Hrun1.
Qed.

(** X11: in live mode, over tiers with distinct directories and keep
    counts that are not negative, the rotation block of [runBackup]
    returns, and when it has returned no tier holds more artifacts than
    its keep count, however many it held before. *)
Theorem rotation_block_bounds_every_tier `{GoRuntime} (cfg : BackupConfig)
    (w : World) :
  DryRun cfg = false -> well_formed cfg levels ->
  exists w2,
    runBackup_rotation cfg w = Returned tt w2
    /\ Forall (fun lvl =>
         Z.of_nat (length (artifacts (tier_dir w2 (dir_of cfg lvl))))
         <= keep_of cfg lvl) levels.
Proof.
  intros Hlive Hwf.
  destruct (runBackup_rotation_live cfg w Hlive Hwf) as (w2 & Hrun & Hbound).
  exists w2. split; [done|].
  eapply Forall_impl; [exact Hbound|]. intros lvl. unfold within_keep. lia.
Qed.

Lemma rotation_block_bounds_every_tier_witness :
  exists w2,
    runBackup_rotation Examples.cfg_tiers Examples.w_over_keep = Returned tt w2
    /\ Forall (fun lvl =>
         Z.of_nat (length (artifacts (tier_dir w2 (dir_of Examples.cfg_tiers lvl))))
         <= keep_of Examples.cfg_tiers lvl) levels.
Proof.
  apply (rotation_block_bounds_every_tier Examples.cfg_tiers Examples.w_over_keep).
  - reflexivity.
  - split.
    + repeat constructor; vm_compute; discriminate.
    + apply (bool_decide_unpack _). vm_compute. exact I.
Defined.

(** ** A negative keep count *)

Lemma Remove_dir_cases dir w :
  exists err w',
    Remove_dir dir w = Returned err w'
    /\ (forall D, D <> dir -> dirs w' !! D = dirs w !! D)
    /\ tier_dir w' dir = tier_dir w dir
    /\ (is_Some (dirs w' !! dir)
        <-> is_Some (dirs w !! dir) /\ tier_dir w dir <> ∅)
    /\ files w' = files w.
Proof.
  unfold Remove_dir, tier_dir. cbn [log dirs].
  destruct (dirs w !! dir) as [d|] eqn:Hd.
  - case_decide as Hempty.
    + eexists _, _. split; [done|]. unfold set_dirs. cbn [dirs files log].
      split; [by intros D HD; rewrite lookup_delete_ne by (by apply not_eq_sym)|].
      rewrite lookup_delete_eq. cbn [default]. split; [done|]. split; [|done].
      split; [by intros [? ?] | by intros [_ ?]].
    + eexists _, _. split; [done|]. cbn [dirs files log]. rewrite Hd.
      cbn [default]. split; [done|]. split; [done|]. split; [|done].
      split; [by intros _ | by intros _; eexists].
  - eexists _, _. split; [done|]. cbn [dirs files log]. rewrite Hd.
    split; [done|]. split; [done|]. split; [|done].
    split; [by intros [? ?] | by intros [[? ?] _]].
Qed.

Lemma remove_each_spare dir k : forall w,
  exists w',
    remove_each dir (replicate (S k) "") w = Returned tt w'
    /\ (forall D, D <> dir -> dirs w' !! D = dirs w !! D)
    /\ tier_dir w' dir = tier_dir w dir
    /\ (is_Some (dirs w' !! dir)
        <-> is_Some (dirs w !! dir) /\ tier_dir w dir <> ∅)
    /\ files w' = files w.
Proof.
  induction k as [|k IH]; intros w.
  - cbn [replicate remove_each]. rewrite decide_True by done.
    unfold mbind, M_bind.
    destruct (Remove_dir_cases dir w) as (err & w' & -> & Hrest).
    by exists w'.
  - change (replicate (S (S k)) "") with ("" :: replicate (S k) "").
    cbn [remove_each]. rewrite decide_True by done. unfold mbind, M_bind.
    destruct (Remove_dir_cases dir w) as (err & w1 & -> & Hd1 & Ht1 & Hs1 & Hf1).
    destruct (IH w1) as (w2 & -> & Hd2 & Ht2 & Hs2 & Hf2).
    exists w2. split; [done|].
    split; [by intros D HD; rewrite Hd2, Hd1|].
    split; [by rewrite Ht2|]. split; [|by rewrite Hf2].
    rewrite Hs2, Hs1, Ht1. tauto.
Qed.

Lemma remove_each_app dir xs ys w :
  remove_each dir (xs ++ ys) w
  = match remove_each dir xs w with
    | Returned _ w' => remove_each dir ys w'
    | Panicked w' => Panicked w'
    end.
Proof.
  revert w. induction xs as [|x xs IH]; intros w; [done|].
  cbn [app remove_each]. unfold mbind, M_bind.
  case_decide.
  - destruct (Remove_dir dir w) as [e w1|w1]; [apply IH | done].
  - destruct (Remove (Join dir x) w) as [e w1|w1]; [apply IH | done].
Qed.

Lemma foldl_delete_artifacts d :
  artifacts (foldl (fun acc old => delete old acc) d (artifacts d)) = [].
Proof.
  pose proof (artifacts_foldl_delete_oldest d (length (artifacts d))) as Hall.
  by rewrite firstn_all, drop_all in Hall.
Qed.

(** X30: a negative keep count.  The count is not checked when the
    configuration is loaded; with one, the live rotator asks for more
    names than the listing has.  When the capacity that [append] has left
    to the listing allows it, every artifact is removed, and then, once
    for each of the empty names in the spare capacity, [os.Remove] is
    called on the tier directory itself, which goes when no other entry
    is in it; the rotator returns nil, and the entries that are not
    artifacts are untouched.  When the capacity does not allow it, as for
    a tier without artifacts, the rotator panics, having removed
    nothing. *)
Theorem rotate_negative_keep `{GoRuntime} (cfg : BackupConfig) (level : string)
    (w : World) :
  dir_of cfg level <> "" -> keep_of cfg level < 0 ->
  let dir := dir_of cfg level in
  let names := artifacts (tier_dir w dir) in
  let wanted := Z.of_nat (length names) - keep_of cfg level in
  (wanted <= Z.of_nat (cap_of names) ->
   exists w',
     rotateBackupsWithPromotion cfg level false w = Returned None w'
     /\ artifacts (tier_dir w' dir) = []
     /\ (forall name, HasSuffix name ".vhdx" = false ->
           tier_dir w' dir !! name = tier_dir w dir !! name)
     /\ (forall D, D <> dir -> dirs w' !! D = dirs w !! D)
     /\ (is_Some (dirs w' !! dir)
         <-> exists name, is_Some (tier_dir w dir !! name)
                          /\ HasSuffix name ".vhdx" = false))
  /\ (Z.of_nat (cap_of names) < wanted ->
      exists w',
        rotateBackupsWithPromotion cfg level false w = Panicked w'
        /\ (forall D, tier_dir w' D = tier_dir w D)).
Proof.
  intros Hdir Hkeep dir names wanted.
  assert (Hrun : rotateBackupsWithPromotion cfg level false w
    = let w0 := mkWorld (<[dir := tier_dir w dir]> (dirs w)) (files w)
                  (OpReadDir dir :: OpMkdirAll dir :: trace w) in
      match slice_to names (cap_of names) wanted with
      | None => Panicked w0
      | Some olds =>
          match remove_each dir olds w0 with
          | Returned _ w' => Returned None w'
          | Panicked w' => Panicked w'
          end
      end).
  { unfold rotateBackupsWithPromotion, mbind, M_bind.
    rewrite MkdirAll_eq by done. rewrite ReadDir_eq.
    cbn [dirs log files trace]. rewrite lookup_insert_eq.
    fold dir. change (vhdx_names (dir_names (tier_dir w dir))) with names.
    destruct (Z.gtb_spec (Z.of_nat (length names)) (keep_of cfg level));
      [|lia].
    fold wanted. by destruct (slice_to _ _ _). }
  rewrite Hrun. cbv zeta. set (w0 := mkWorld _ _ _).
  assert (Htier0 : tier_dir w0 dir = tier_dir w dir).
  { unfold w0. rewrite tier_dir_mk. by rewrite lookup_insert_eq. }
  unfold slice_to.
  rewrite (proj2 (Z.leb_le 0 wanted)) by (unfold wanted; lia).
  rewrite (proj2 (Z.leb_gt wanted _)) by (unfold wanted; lia).
  cbn [andb]. split.
  - intros Hcap. rewrite (proj2 (Z.leb_le wanted _)) by done.
    replace (Z.to_nat wanted - length names)%nat
      with (S (Z.to_nat (- keep_of cfg level) - 1)) by (unfold wanted; lia).
    rewrite remove_each_app.
    rewrite remove_each_eq by apply artifacts_named.
    set (w1 := mkWorld _ _ _).
    assert (Htier1 : tier_dir w1 dir
              = foldl (fun acc old => delete old acc) (tier_dir w dir) names).
    { unfold w1, w0. rewrite tier_dir_alter. rewrite decide_True by done.
      cbn [dirs]. by rewrite lookup_insert_eq. }
    assert (Hdirs1 : forall D, D <> dir -> dirs w1 !! D = dirs w !! D).
    { intros D HD. unfold w1, w0. cbn [dirs].
      rewrite lookup_alter_ne by (by apply not_eq_sym).
      by rewrite lookup_insert_ne by (by apply not_eq_sym). }
    assert (Hsome1 : is_Some (dirs w1 !! dir)).
    { unfold w1, w0. cbn [dirs]. rewrite lookup_alter_eq, lookup_insert_eq.
      by eexists. }
    destruct (remove_each_spare dir (Z.to_nat (- keep_of cfg level) - 1) w1)
      as (w2 & -> & Hd2 & Ht2 & Hs2 & _).
    exists w2. split; [done|]. rewrite Ht2, Htier1.
    split; [apply foldl_delete_artifacts|]. split; [|split].
    + intros name Hname. rewrite foldl_delete_lookup.
      case_decide as Hin; [|done].
      apply elem_of_artifacts in Hin as [_ Hs]. congruence.
    + intros D HD. by rewrite Hd2, Hdirs1.
    + rewrite Hs2, Htier1. split.
      * intros [_ Hne]. apply map_choose in Hne as (name & c & Hc).
        rewrite foldl_delete_lookup in Hc. case_decide as Hin; [done|].
        exists name. split; [by eexists|].
        destruct (HasSuffix name ".vhdx") eqn:Hs; [|done].
        exfalso. apply Hin, elem_of_artifacts. split; [by eexists | done].
      * intros (name & [c Hc] & Hs). split; [done|].
        intros Hempty.
        assert (foldl (fun acc old => delete old acc) (tier_dir w dir) names
                !! name = Some c) as Hc'.
        { rewrite foldl_delete_lookup. rewrite decide_False; [done|].
          intros [_ Hs']%elem_of_artifacts. congruence. }
        by rewrite Hempty, lookup_empty in Hc'.
  - intros Hcap. rewrite (proj2 (Z.leb_gt wanted _)) by done.
    exists w0. split; [done|]. intros D.
    unfold w0. rewrite tier_dir_mk. destruct (decide (D = dir)) as [->|HD].
    + by rewrite lookup_insert_eq.
    + by rewrite lookup_insert_ne by (by apply not_eq_sym).
Qed.

Lemma rotate_negative_keep_witness :
  exists w',
    rotateBackupsWithPromotion
      (mkConfig false {[ "30m" := -1 ]} {[ "30m" := "backup/30m" ]} "")
      "30m" false Examples.w_over_keep
    = Returned None w'
    /\ artifacts (tier_dir w' "backup/30m") = []
    /\ tier_dir w' "backup/30m" !! "notes.txt" = Some "not a backup".
Proof.
  destruct (rotate_negative_keep
              (mkConfig false {[ "30m" := -1 ]} {[ "30m" := "backup/30m" ]} "")
              "30m" Examples.w_over_keep)
    as [Hwithin _]; [discriminate | reflexivity |].
  destruct Hwithin as (w' & Hrun & Hnone & Hrest & _);
    [vm_compute; discriminate|].
  exists w'. split; [exact Hrun|]. split; [exact Hnone|].
  etrans; [apply Hrest; reflexivity | reflexivity].
Defined.

(** ** Dry run *)

Global Instance dirs_kept_preorder : PreOrder dirs_kept.
Proof.
  split.
  - by intros w dir.
  - intros w1 w2 w3 H12 H23 dir Hd. by apply H23, H12.
Qed.

Lemma MkdirAll_dirs_kept dir : preserves dirs_kept (MkdirAll dir).
Proof.
  intros w D HD. unfold MkdirAll. case_decide; [done|].
  cbn [log dirs]. destruct (dirs w !! dir) eqn:Hdir; [done|].
  cbn [world_of]. unfold set_dirs. cbn [dirs].
  destruct (decide (D = dir)) as [->|Hne].
  - by rewrite lookup_insert_eq.
  - by rewrite lookup_insert_ne by (by apply not_eq_sym).
Qed.

Lemma ReadDir_dirs_kept dir : preserves dirs_kept (ReadDir dir).
Proof. intros w. rewrite ReadDir_eq. by intros D. Qed.

Lemma alter_is_Some (f : gmap string string -> gmap string string) k
    (ds : gmap string (gmap string string)) D :
  is_Some (ds !! D) -> is_Some (alter f k ds !! D).
Proof.
  intros [d Hd]. destruct (decide (D = k)) as [->|Hne].
  - rewrite lookup_alter_eq, Hd. by eexists.
  - rewrite lookup_alter_ne by (by apply not_eq_sym). by eexists.
Qed.

Lemma Remove_dirs_kept p : preserves dirs_kept (Remove p).
Proof. intros w D HD. rewrite Remove_eq. cbn [world_of dirs]. by apply alter_is_Some. Qed.

Lemma rotateBackupsWithPromotion_dry_dirs_kept `{GoRuntime} cfg level :
  preserves dirs_kept (rotateBackupsWithPromotion cfg level true).
Proof.
  unfold rotateBackupsWithPromotion.
  apply preserves_bind; [apply _ | apply MkdirAll_dirs_kept |].
  intros [e|]; [apply preserves_ret, _|].
  apply preserves_bind; [apply _ | apply ReadDir_dirs_kept |].
  intros [entries [e|]]; [apply preserves_ret, _|].
  destruct (_ >? _); apply preserves_ret, _.
Qed.

Lemma rotate_loop_dirs_kept `{GoRuntime} cfg lvls :
  DryRun cfg = true -> preserves dirs_kept (rotate_loop cfg lvls).
Proof.
  intros Hdry. induction lvls as [|lvl rest IH]; [apply preserves_ret, _|].
  cbn [rotate_loop]. rewrite Hdry. apply preserves_bind; [apply _ | |].
  - apply rotateBackupsWithPromotion_dry_dirs_kept.
  - intros _. apply IH.
Qed.

Lemma rotateBackupsWithPromotion_dry_same_tiers `{GoRuntime} cfg level :
  preserves same_tiers (rotateBackupsWithPromotion cfg level true).
Proof.
  unfold rotateBackupsWithPromotion.
  apply preserves_bind; [apply _ | apply MkdirAll_same_tiers |].
  intros [e|]; [apply preserves_ret, _|].
  apply preserves_bind; [apply _ | |].
  { intros w. by rewrite ReadDir_eq. }
  intros [entries [e|]]; [apply preserves_ret, _|].
  destruct (_ >? _); apply preserves_ret, _.
Qed.

Lemma promote_loop_dry_same_tiers over cfg lvls :
  preserves same_tiers (promote_loop over cfg true lvls).
Proof.
  induction lvls as [|cur [|next rest] IH]; [apply preserves_ret, _..|].
  cbn [promote_loop]. apply preserves_bind; [apply _ | |].
  - apply promote_pair_dry_run.
  - intros _. apply IH.
Qed.

Lemma rotate_loop_dry_same_tiers `{GoRuntime} cfg lvls :
  DryRun cfg = true -> preserves same_tiers (rotate_loop cfg lvls).
Proof.
  intros Hdry. induction lvls as [|lvl rest IH]; [apply preserves_ret, _|].
  cbn [rotate_loop]. rewrite Hdry. apply preserves_bind; [apply _ | |].
  - apply rotateBackupsWithPromotion_dry_same_tiers.
  - intros _. apply IH.
Qed.

Lemma rotate_loop_dry_creates `{GoRuntime} cfg lvls : forall w,
  DryRun cfg = true ->
  Forall (fun lvl => dir_of cfg lvl <> "" ->
            is_Some (dirs (world_of (rotate_loop cfg lvls w)) !! dir_of cfg lvl))
    lvls.
Proof.
  induction lvls as [|lvl rest IH]; intros w Hdry; [constructor|].
  cbn [rotate_loop]. unfold mbind, M_bind. rewrite Hdry.
  destruct (rotateBackupsWithPromotion cfg lvl true w) as [err w1|w1] eqn:Hstep.
  - apply Forall_cons. split; [|by apply IH].
    intros Hdir. apply (rotate_loop_dirs_kept cfg rest Hdry w1).
    rewrite rotateBackupsWithPromotion_dry_run in Hstep by done.
    injection Hstep as _ <-. cbn [dirs]. by rewrite lookup_insert_eq.
  - exfalso. unfold rotateBackupsWithPromotion, mbind, M_bind in Hstep.
    destruct (MkdirAll (dir_of cfg lvl) w) as [[e|] w0|w0] eqn:Hmk;
      [done| |].
    + rewrite ReadDir_eq in Hstep.
      destruct (dirs w0 !! dir_of cfg lvl); [|done].
      by destruct (_ >? _).
    + unfold MkdirAll in Hmk. case_decide; [done|].
      cbn [log dirs] in Hmk. by destruct (dirs w !! dir_of cfg lvl).
Qed.

Lemma promote_loop_dry_returns cfg lvls : forall w,
  Forall (fun lvl => 0 <= keep_of cfg lvl) lvls ->
  exists w1, promote_loop Z.gtb cfg true lvls w = Returned tt w1.
Proof.
  induction lvls as [|cur [|next rest] IH]; intros w Hkeep;
    [by exists w..|].
  apply Forall_cons_1 in Hkeep as [Hcur Hkeep].
  rewrite promote_loop_cons.
  assert (exists w0, promote_pair Z.gtb cfg true cur next w = Returned tt w0)
    as [w0 ->].
  { unfold promote_pair, mbind, M_bind. cbn [mret M_ret]. rewrite ReadDir_eq.
    destruct (dirs w !! dir_of cfg cur) as [d|]; [|by eexists].
    destruct (Z.gtb_spec (Z.of_nat (length (vhdx_names (dir_names d))))
                (keep_of cfg cur)) as [Hgt|Hle]; [|by eexists].
    destruct (vhdx_names (dir_names d)); [cbn in Hgt; lia | by eexists]. }
  by apply IH.
Qed.

Lemma rotate_loop_dry_returns `{GoRuntime} cfg lvls : forall w,
  DryRun cfg = true -> exists w2, rotate_loop cfg lvls w = Returned tt w2.
Proof.
  induction lvls as [|lvl rest IH]; intros w Hdry; [by exists w|].
  cbn [rotate_loop]. unfold mbind, M_bind. rewrite Hdry.
  destruct (rotateBackupsWithPromotion cfg lvl true w) as [err w1|w1] eqn:Hstep;
    [by apply IH|].
  exfalso. unfold rotateBackupsWithPromotion, mbind, M_bind in Hstep.
  destruct (MkdirAll (dir_of cfg lvl) w) as [[e|] w0|w0] eqn:Hmk; [done| |].
  - rewrite ReadDir_eq in Hstep.
    destruct (dirs w0 !! dir_of cfg lvl); [|done].
    by destruct (_ >? _).
  - unfold MkdirAll in Hmk. case_decide; [done|].
    cbn [log dirs] in Hmk. by destruct (dirs w !! dir_of cfg lvl).
Qed.

(** X12: in dry-run mode, with keep counts that are not negative, the
    rotation block of [runBackup] returns and has moved and deleted
    nothing: every directory has the content it had, and no file outside
    the directories has changed.  It is not without effect, though: the
    rotator calls [os.MkdirAll] before it looks at the mode, so every tier
    directory that is configured exists afterwards. *)
Theorem dry_run_rotation_block_only_creates_directories `{GoRuntime}
    (cfg : BackupConfig) (w : World) :
  DryRun cfg = true -> Forall (fun lvl => 0 <= keep_of cfg lvl) levels ->
  exists w',
    runBackup_rotation cfg w = Returned tt w'
    /\ (forall dir, tier_dir w' dir = tier_dir w dir)
    /\ files w' = files w
    /\ Forall (fun lvl => dir_of cfg lvl <> "" -> is_Some (dirs w' !! dir_of cfg lvl))
         levels.
Proof.
  intros Hdry Hkeep.
  destruct (promote_loop_dry_returns cfg levels w Hkeep) as [w1 Hrun1].
  destruct (rotate_loop_dry_returns cfg levels w1 Hdry) as [w2 Hrun2].
  assert (Hrun : runBackup_rotation cfg w = Returned tt w2).
  { unfold runBackup_rotation, promoteBackup, mbind, M_bind.
    rewrite Hdry. by rewrite Hrun1. }
  exists w2. split; [done|]. split; [|split].
  - pose proof (promote_loop_dry_same_tiers Z.gtb cfg levels w) as H1.
    pose proof (rotate_loop_dry_same_tiers cfg levels Hdry w1) as H2.
    rewrite Hrun1 in H1. rewrite Hrun2 in H2. intros dir.
    by rewrite H2, H1.
  - pose proof (runBackup_rotation_same_files cfg w) as Hf.
    by rewrite Hrun in Hf.
  - pose proof (rotate_loop_dry_creates cfg levels w1 Hdry) as Hc.
    by rewrite Hrun2 in Hc.
Qed.

Lemma dry_run_rotation_block_only_creates_directories_witness :
  exists w',
    runBackup_rotation (mkConfig true ∅ {[ "30m" := "backup/30m" ]} "")
      Examples.w_empty = Returned tt w'
    /\ dirs w' !! "backup/30m" = Some ∅.
Proof.
  destruct (dry_run_rotation_block_only_creates_directories
              (mkConfig true ∅ {[ "30m" := "backup/30m" ]} "") Examples.w_empty)
    as (w' & Hrun & Htiers & _ & Hdirs).
  - reflexivity.
  - repeat constructor; vm_compute; discriminate.
  - exists w'. split; [exact Hrun|].
    apply Forall_cons_1 in Hdirs as [Hdir _].
    destruct Hdir as [d Hd]; [vm_compute; discriminate|].
    change (dir_of _ "30m") with "backup/30m" in Hd.
    rewrite Hd. f_equal. rewrite <- (tier_dir_Some _ _ _ Hd).
    rewrite Htiers. reflexivity.
Defined.

(** ** Storing the backup *)

(** A live save of an existing source into a directory with a path. *)
Lemma saveBackup_eq dstDir filename srcPath data w :
  dstDir <> "" -> files w !! srcPath = Some data ->
  saveBackup dstDir filename srcPath false w
  = Returned None
      (mkWorld (<[dstDir := <[filename := data]> (tier_dir w dstDir)]> (dirs w))
         (files w) (OpMkdirAll dstDir :: trace w)).
Proof.
  intros Hdir Hsrc. unfold saveBackup, mbind, M_bind.
  rewrite MkdirAll_eq by done. unfold Open. cbn [files]. rewrite Hsrc.
  unfold Create, Copy. cbn [dirs p_dir p_name]. rewrite lookup_insert_eq.
  unfold set_dirs. cbn [dirs files trace mret M_ret].
  by rewrite !alter_insert_eq, insert_insert_eq.
Qed.

Lemma saveBackup_no_source dstDir filename srcPath w :
  files w !! srcPath = None ->
  exists w',
    saveBackup dstDir filename srcPath false w = Returned (Some ErrNotExist) w'
    /\ same_tiers w w' /\ files w' = files w.
Proof.
  intros Hsrc. unfold saveBackup, mbind, M_bind.
  pose proof (MkdirAll_same_tiers dstDir w) as Hs.
  pose proof (MkdirAll_same_files dstDir w) as Hf.
  destruct (MkdirAll dstDir w) as [[e|] w1|w1] eqn:Hmk; cbn [world_of] in *.
  - unfold MkdirAll in Hmk. destruct (decide (dstDir = "")).
    + injection Hmk as <- <-. by eexists.
    + cbn [log dirs] in Hmk. by destruct (dirs w !! dstDir).
  - unfold Open. rewrite Hf, Hsrc. by eexists.
  - unfold MkdirAll in Hmk. case_decide; [done|].
    cbn [log dirs] in Hmk. by destruct (dirs w !! dstDir).
Qed.

(** X13: [saveBackup] in live mode copies the source under the given name
    into the directory, which it creates if need be; an entry of that name
    is overwritten; the other entries, the other directories and the
    source stay as they are.  Without a source, or without a path for the
    directory, it returns an error and no directory gets an entry.  In
    dry-run mode it does nothing. *)
Theorem saveBackup_copies_source (dstDir filename srcPath : string) (w : World) :
  saveBackup dstDir filename srcPath true w = Returned None w
  /\ (forall data,
        dstDir <> "" -> files w !! srcPath = Some data ->
        exists w',
          saveBackup dstDir filename srcPath false w = Returned None w'
          /\ tier_dir w' dstDir = <[filename := data]> (tier_dir w dstDir)
          /\ is_Some (dirs w' !! dstDir)
          /\ (forall dir, dir <> dstDir -> dirs w' !! dir = dirs w !! dir)
          /\ files w' = files w)
  /\ (files w !! srcPath = None \/ dstDir = "" ->
      exists e w',
        saveBackup dstDir filename srcPath false w = Returned (Some e) w'
        /\ (forall dir, tier_dir w' dir = tier_dir w dir)
        /\ files w' = files w).
Proof.
  split; [done|]. split.
  - intros data Hdir Hsrc. eexists. split; [by apply saveBackup_eq|].
    rewrite tier_dir_mk. cbn [dirs files]. rewrite lookup_insert_eq.
    split; [done|]. split; [done|]. split; [|done].
    intros dir Hne. by rewrite lookup_insert_ne by (by apply not_eq_sym).
  - intros [Hsrc | ->].
    + destruct (saveBackup_no_source dstDir filename srcPath w Hsrc)
        as (w' & Hrun & Hs & Hf).
      by exists ErrNotExist, w'.
    + exists ErrNotExist. eexists. split; [reflexivity|]. by split.
Qed.

(** ** Lock file *)

Lemma acquireFileLock_free create_error pid path w :
  path <> "" -> files w !! path = None -> create_error path = None ->
  acquireFileLock create_error pid path w
  = Returned (Some (mkFile path), None)
      (mkWorld (dirs w)
         (<[path := (Strconv.Sprintf_d 0 pid ++ String LF "")%string]> (files w))
         (trace w)).
Proof.
  intros Hpath Hfree Hcreate.
  unfold acquireFileLock, Stat_file, OpenFile_excl, rewrite_file, mbind, M_bind.
  rewrite Hfree. rewrite decide_False by done.
  cbn [files set_files dirs trace mret M_ret]. rewrite ?Hfree, Hcreate.
  unfold set_files. cbn [files dirs trace]. by rewrite insert_insert_eq.
Qed.

Lemma acquireFileLock_held create_error pid path w :
  is_Some (files w !! path) ->
  acquireFileLock create_error pid path w
  = Returned (None, Some ErrLockFileExists) w.
Proof.
  intros [data Hheld]. unfold acquireFileLock, Stat_file, mbind, M_bind.
  by rewrite Hheld.
Qed.

Lemma acquireFileLock_uncreatable create_error pid path e w :
  path <> "" -> files w !! path = None -> create_error path = Some e ->
  acquireFileLock create_error pid path w = Returned (None, Some (ErrOpen e)) w.
Proof.
  intros Hpath Hfree Hcreate.
  unfold acquireFileLock, Stat_file, OpenFile_excl, mbind, M_bind.
  rewrite Hfree. rewrite decide_False by done.
  cbn [files mret M_ret]. by rewrite ?Hfree, Hcreate.
Qed.

Lemma acquireFileLock_empty create_error pid w :
  exists e, acquireFileLock create_error pid "" w = Returned (None, Some e) w.
Proof.
  unfold acquireFileLock, Stat_file, OpenFile_excl, mbind, M_bind.
  destruct (files w !! "") eqn:Hf; [by exists ErrLockFileExists|].
  by exists (ErrOpen ErrNotExist).
Qed.

(** The lock is not taken when its file exists, when its path is empty,
    and when its file cannot be created. *)
Lemma acquireFileLock_fails create_error pid path w :
  is_Some (files w !! path) \/ path = "" \/ is_Some (create_error path) ->
  exists e, acquireFileLock create_error pid path w = Returned (None, Some e) w.
Proof.
  intros Hwhy. destruct (files w !! path) as [data|] eqn:Hfile.
  { exists ErrLockFileExists. apply acquireFileLock_held. by rewrite Hfile. }
  destruct (decide (path = "")) as [->|Hpath]; [apply acquireFileLock_empty|].
  destruct Hwhy as [[? ?]|[?|[e He]]]; [done..|].
  exists (ErrOpen e). by apply acquireFileLock_uncreatable.
Qed.

Lemma releaseFileLock_eq path w :
  releaseFileLock (Some (mkFile path)) w
  = Returned tt (mkWorld (dirs w) (delete path (files w)) (trace w)).
Proof.
  unfold releaseFileLock, Remove_file, mbind, M_bind. cbn [Name].
  destruct (files w !! path) eqn:Hf; cbn [mret M_ret]; [done|].
  rewrite delete_id by done. by destruct w.
Qed.

(** X14: the lock file excludes.  Taken on a free path at which a file can
    be created, the lock is a file that holds the process id; while the
    file is there every attempt, by whatever process, fails and leaves the
    file as it is, so a lock left behind by a run that died is never taken
    over; releasing removes the file and gives back the files as they
    were, after which the lock can be taken again.  Where the file cannot
    be created, as in a directory that is missing, and on the empty path,
    the lock cannot be taken, and nothing changes. *)
Theorem lock_file_excludes (create_error : string -> option error) (pid : Z)
    (path : string) (w : World) :
  (is_Some (files w !! path) ->
   acquireFileLock create_error pid path w
   = Returned (None, Some ErrLockFileExists) w)
  /\ (path <> "" -> files w !! path = None -> create_error path = None ->
      exists f w1 w2,
        acquireFileLock create_error pid path w = Returned (Some f, None) w1
        /\ files w1 !! path
           = Some (Strconv.Sprintf_d 0 pid ++ String LF "")%string
        /\ (forall other, other <> path -> files w1 !! other = files w !! other)
        /\ dirs w1 = dirs w
        /\ (forall pid',
              acquireFileLock create_error pid' path w1
              = Returned (None, Some ErrLockFileExists) w1)
        /\ releaseFileLock (Some f) w1 = Returned tt w2
        /\ files w2 = files w /\ dirs w2 = dirs w
        /\ (forall pid', exists f' w3,
              acquireFileLock create_error pid' path w2
              = Returned (Some f', None) w3))
  /\ (forall e,
        path <> "" -> files w !! path = None -> create_error path = Some e ->
        acquireFileLock create_error pid path w
        = Returned (None, Some (ErrOpen e)) w)
  /\ releaseFileLock None w = Returned tt w
  /\ (exists e,
        acquireFileLock create_error pid "" w = Returned (None, Some e) w).
Proof.
  split; [apply acquireFileLock_held|].
  split; [|split; [|split; [done | apply acquireFileLock_empty]]]; cycle 1.
  { intros e Hpath Hfree Hcreate. by apply acquireFileLock_uncreatable. }
  intros Hpath Hfree Hcreate. eexists _, _, _.
  split; [by apply acquireFileLock_free|]. cbn [files dirs].
  split; [by rewrite lookup_insert_eq|].
  split; [by intros other Hne; rewrite lookup_insert_ne by (by apply not_eq_sym)|].
  split; [done|]. split.
  { intros pid'. apply acquireFileLock_held. cbn [files].
    by rewrite lookup_insert_eq. }
  split; [apply releaseFileLock_eq|]. cbn [files dirs].
  split; [by rewrite delete_insert_id|]. split; [done|].
  intros pid'. eexists _, _. apply acquireFileLock_free; [done| |done]. cbn [files].
  by rewrite delete_insert_id.
Qed.

Lemma lock_file_excludes_witness :
  exists f w1,
    acquireFileLock (fun _ => None) 4711 "backup.lock" Examples.w_empty
    = Returned (Some f, None) w1
    /\ files w1 !! "backup.lock" = Some (String "4" (String "7" (String "1"
         (String "1" (String LF ""))))).
Proof.
  destruct (lock_file_excludes (fun _ => None) 4711 "backup.lock" Examples.w_empty)
    as (_ & Htaken & _).
  destruct Htaken as (f & w1 & w2 & Hrun & Hfile & _); [done..|].
  exists f, w1. split; [exact Hrun | exact Hfile].
Defined.

(** ** A whole run *)

Lemma artifacts_insert_length d name c :
  (length (artifacts (<[name := c]> d)) <= S (length (artifacts d)))%nat.
Proof.
  change (S (length (artifacts d))) with (length (name :: artifacts d)).
  apply submseteq_length, NoDup_submseteq; [apply artifacts_NoDup|].
  intros n [Hn Hs]%elem_of_artifacts.
  destruct (decide (n = name)) as [->|Hne]; [left|right].
  apply elem_of_artifacts. by rewrite lookup_insert_ne in Hn by done.
Qed.

(** An artifact that sorts after all those of the directory comes last in
    the listing. *)
Lemma artifacts_insert_newest d name c :
  HasSuffix name ".vhdx" = true ->
  Forall (fun old => str_le old name /\ old <> name) (artifacts d) ->
  artifacts (<[name := c]> d) = artifacts d ++ [name].
Proof.
  intros Hs Hold. rewrite Forall_forall in Hold.
  apply artifacts_unique.
  - apply StronglySorted_app_2; [|apply artifacts_sorted|repeat constructor].
    intros old n Hin ->%list_elem_of_singleton. by apply Hold.
  - apply NoDup_app. split; [apply artifacts_NoDup|]. split; [|apply NoDup_singleton].
    intros old Hin ->%list_elem_of_singleton. by apply Hold in Hin as [_ ?].
  - intros n. rewrite elem_of_app, list_elem_of_singleton, !elem_of_artifacts.
    destruct (decide (n = name)) as [->|Hne].
    + rewrite lookup_insert_eq. split; [by intros _ | by right].
    + rewrite lookup_insert_ne by done. split; [by intros [?|?] | by left].
Qed.

Global Instance only_log_preorder logFile : PreOrder (only_log logFile).
Proof.
  split.
  - by intros w.
  - intros w1 w2 w3 [Hd12 Hf12] [Hd23 Hf23]. split; [congruence|].
    intros path Hpath. by rewrite Hf23, Hf12.
Qed.

Lemma only_log_tier_dir logFile w w' dir :
  only_log logFile w w' -> tier_dir w' dir = tier_dir w dir.
Proof. intros [Hd _]. unfold tier_dir. by rewrite Hd. Qed.

Lemma only_log_none w w' : only_log "" w w' -> files w' = files w.
Proof. intros [_ Hf]. apply map_eq. intros path. apply Hf. by left. Qed.

Lemma OpenFile_error_same create_error path w w' :
  files w' !! path = files w !! path ->
  OpenFile_error create_error path w' = OpenFile_error create_error path w.
Proof. intros Hf. unfold OpenFile_error. by rewrite Hf. Qed.

Lemma last_id_same path w w' :
  files w' !! path = files w !! path -> last_id path w' = last_id path w.
Proof. intros Hf. unfold last_id. by rewrite Hf. Qed.

Lemma append_file_only_log logFile text w :
  logFile <> "" -> only_log logFile w (append_file logFile text w).
Proof.
  intros Hlog. split; [done|]. intros path [?|Hne]; [done|].
  unfold append_file. cbn [files set_files].
  by rewrite lookup_insert_ne by (by apply not_eq_sym).
Qed.

Lemma Printf_only_log env logFile l w :
  exists w', Printf env logFile l w = Returned tt w' /\ only_log logFile w w'.
Proof.
  unfold Printf. case_decide as Hlog.
  - exists w. split; [done | reflexivity].
  - eexists. split; [done|]. by apply append_file_only_log.
Qed.

Lemma notify_only_log env cfg n dryRun w :
  exists w',
    notify env cfg n dryRun w = Returned tt w' /\ only_log (LogFile cfg) w w'.
Proof.
  unfold notify. destruct dryRun; [|apply Printf_only_log].
  exists w. split; [done | reflexivity].
Qed.

(** [setupLogOutput] fails and leaves the machine as it is, or succeeds
    and has written to the log file only. *)
Lemma setupLogOutput_cases env cfg w :
  (exists e,
     LogFile cfg <> ""
     /\ OpenFile_error (create_error env) (LogFile cfg) w = Some e
     /\ setupLogOutput env cfg w = Returned (Some (Errorf e)) w)
  \/ (exists w',
        (LogFile cfg = ""
         \/ OpenFile_error (create_error env) (LogFile cfg) w = None)
        /\ setupLogOutput env cfg w = Returned None w'
        /\ only_log (LogFile cfg) w w').
Proof.
  unfold setupLogOutput. case_decide as Hlog.
  { right. exists w. split; [by left|]. split; [done | reflexivity]. }
  destruct (OpenFile_error _ _ w) as [e|] eqn:Hopen.
  - left. by exists e.
  - right. eexists. split; [by right|]. split; [done|].
    by apply append_file_only_log.
Qed.

Lemma logPerformance_returns env logFile path dryRun w :
  exists w',
    logPerformance env logFile path dryRun w = Returned tt w'
    /\ dirs w' = dirs w
    /\ (forall other, other <> path -> logFile = "" \/ other <> logFile ->
          files w' !! other = files w !! other)
    /\ (dryRun = true -> w' = w)
    /\ (dryRun = false ->
        match OpenFile_error (create_error env) path w with
        | Some _ => only_log logFile w w'
        | None =>
            files w' !! path
            = Some (default "" (files w !! path) ++ perfLine env)%string
        end).
Proof.
  unfold logPerformance. destruct dryRun.
  { exists w. split; [done|]. split; [done|]. split; [done|]. by split. }
  destruct (OpenFile_error _ path w) as [e|] eqn:Hopen.
  - destruct (Printf_only_log env logFile (LinePerfError e) w)
      as (w' & Hrun & [Hd Hf]).
    exists w'. split; [done|]. split; [done|].
    split; [by intros other _ Hne; apply Hf|]. split; [done|]. by intros _.
  - eexists. split; [done|]. unfold append_file. cbn [dirs files set_files].
    split; [done|].
    split; [by intros other Hne _; rewrite lookup_insert_ne by (by apply not_eq_sym)|].
    split; [done|]. intros _. by rewrite lookup_insert_eq.
Qed.

(** The next step of a run in the goal is a line of the log, or a
    notification: name the world after it, and what it has left alone. *)
Ltac log_step Hlog :=
  match goal with
  | |- context [Printf ?env ?logFile ?l ?w] =>
      let w' := fresh "w" in
      destruct (Printf_only_log env logFile l w) as (w' & -> & Hlog)
  | |- context [notify ?env ?cfg ?n ?dryRun ?w] =>
      let w' := fresh "w" in
      destruct (notify_only_log env cfg n dryRun w) as (w' & -> & Hlog)
  end.

(** A run that cannot open its log file returns the error, wrapped twice,
    and has done nothing. *)
Lemma runBackup_without_log `{GoRuntime} env cfg e w :
  LogFile cfg <> "" ->
  OpenFile_error (create_error env) (LogFile cfg) w = Some e ->
  runBackup env cfg w = Returned (Some (Errorf (Errorf e))) w.
Proof.
  intros Hlog Hopen. unfold runBackup, mbind, M_bind, setupLogOutput.
  rewrite decide_False by done. by rewrite Hopen.
Qed.

(** X15: a whole run and the lock.  With the lock enabled, a live run
    that finds the lock file, or cannot create it, because its path is
    empty or for another reason, reports success when it has opened its
    log, and has changed nothing but the log file: no serial number is
    taken, nothing is copied, rotated or stored.  A live run that starts
    with the lock path free leaves it free when it is over, whether it has
    taken the lock or not, and whether its steps have returned, failed or
    panicked.  A dry run does not look at the lock. *)
Theorem runBackup_lock `{GoRuntime} (env : Env) (cfg : RunConfig) (w : World) :
  EnableLock cfg = true ->
  LogFile cfg = "" \/ LockFilePath cfg <> LogFile cfg ->
  let run := runBackup env cfg in
  (DryRun cfg = false ->
   is_Some (files w !! LockFilePath cfg) \/ LockFilePath cfg = ""
   \/ is_Some (create_error env (LockFilePath cfg)) ->
   exists r w',
     run w = Returned r w' /\ only_log (LogFile cfg) w w'
     /\ (LogFile cfg = ""
         \/ OpenFile_error (create_error env) (LogFile cfg) w = None ->
         r = None))
  /\ (DryRun cfg = false -> files w !! LockFilePath cfg = None ->
      files (world_of (run w)) !! LockFilePath cfg = None)
  /\ (DryRun cfg = true ->
      run w
      = (err ← setupLogOutput env cfg;
         match err with
         | Some e => mret (Some (Errorf e))
         | None => runBackup_steps env cfg
         end) w).
Proof.
  intros Hlock Hapart run. unfold run, runBackup. rewrite Hlock.
  split; [|split].
  - intros -> Hwhy. cbn [negb andb]. unfold mbind, M_bind.
    destruct (setupLogOutput_cases env cfg w)
      as [(e & Hlog & Hopen & ->)|(w0 & _ & -> & Hsetup)].
    { exists (Some (Errorf (Errorf e))), w. split; [done|].
      split; [reflexivity|]. intros [?|?]; congruence. }
    log_step Ha.
    destruct (acquireFileLock_fails (create_error env) (pid env)
                (LockFilePath cfg) w1) as [e ->].
    { destruct Hwhy as [Hheld|Hwhy]; [left | by right].
      destruct Ha as [_ Ha], Hsetup as [_ Hsetup].
      by rewrite Ha, Hsetup. }
    log_step Hb. exists None, w2. split; [done|]. split; [|done].
    by do 2 (etrans; [eassumption|]).
  - intros -> Hfree. cbn [negb andb]. unfold mbind, M_bind.
    destruct (setupLogOutput_cases env cfg w)
      as [(e & Hlog & Hopen & ->)|(w0 & _ & -> & Hsetup)]; [done|].
    log_step Ha.
    assert (Hfree1 : files w1 !! LockFilePath cfg = None).
    { destruct Ha as [_ Ha], Hsetup as [_ Hsetup]. by rewrite Ha, Hsetup. }
    destruct (decide (LockFilePath cfg = "")) as [Hpath|Hpath].
    { destruct (acquireFileLock_fails (create_error env) (pid env)
                  (LockFilePath cfg) w1) as [e ->]; [by right; left|].
      log_step Hb. cbn [mret M_ret world_of].
      destruct Hb as [_ Hb]. by rewrite Hb. }
    destruct (create_error env (LockFilePath cfg)) as [e|] eqn:Hcreate.
    { rewrite (acquireFileLock_uncreatable _ _ _ e) by done.
      log_step Hb. cbn [mret M_ret world_of].
      destruct Hb as [_ Hb]. by rewrite Hb. }
    rewrite acquireFileLock_free by done. unfold defer.
    destruct (runBackup_steps _ _ _) as [a w'|w'];
      rewrite releaseFileLock_eq; cbn [world_of files];
      apply lookup_delete_eq.
  - by intros ->.
Qed.

Lemma runBackup_lock_witness :
  exists w',
    runBackup (RunExamples.env_of "20250701_0930" "" (mret None) (mret None))
      RunExamples.cfg_locked RunExamples.w_stale_lock
    = Returned None w'
    /\ files w' !! "last_id.txt" = None
    /\ files w' !! "backup.lock" = Some "4711".
Proof.
  destruct (runBackup_lock
              (RunExamples.env_of "20250701_0930" "" (mret None) (mret None))
              RunExamples.cfg_locked RunExamples.w_stale_lock)
    as (Hheld & _); [reflexivity | right; discriminate |].
  destruct Hheld as (r & w' & Hrun & [_ Hfiles] & Hnil);
    [reflexivity | left; by eexists |].
  exists w'. rewrite Hrun, Hnil by (by right).
  split; [done|].
  split; (etrans; [apply Hfiles; right; discriminate | reflexivity]).
Defined.

(** X16: the serial number is taken before the copy.  When [tryCopy]
    fails in live mode the run returns the error and no tier has changed,
    but the number is spent: the file holds it, and the next backup gets
    the one after.  The file of the serial number is one that exists or
    can be created, and is not the log file; the mount and the copy may
    write to the log, or to any file but that of the serial number. *)
Theorem failed_copy_consumes_serial_number `{GoRuntime} (env : Env)
    (cfg : RunConfig) (e : error) (w : World) :
  DryRun cfg = false ->
  OpenFile_error (create_error env) (LastIDFile cfg) w = None ->
  LastIDFile cfg <> LogFile cfg ->
  (forall w0, exists w1,
     mount_if_missing env w0 = Returned None w1 /\ same_tiers w0 w1
     /\ files w1 !! LastIDFile cfg = files w0 !! LastIDFile cfg) ->
  (forall w0, exists w1,
     tryCopy env w0 = Returned (Some e) w1 /\ same_tiers w0 w1
     /\ files w1 !! LastIDFile cfg = files w0 !! LastIDFile cfg) ->
  exists w',
    runBackup_steps env cfg w = Returned (Some (Errorf e)) w'
    /\ (forall dir, tier_dir w' dir = tier_dir w dir)
    /\ last_id (LastIDFile cfg) w'
       = Strconv.wrap_int (last_id (LastIDFile cfg) w + 1).
Proof.
  intros Hlive Hopen Hne Hmount Hcopy. unfold runBackup_steps, mbind, M_bind.
  cbv zeta. rewrite Hlive.
  log_step Ha.
  assert (Hopen0 : OpenFile_error (create_error env) (LastIDFile cfg) w0 = None).
  { rewrite <- Hopen. apply OpenFile_error_same, Ha. by right. }
  rewrite getNextID_eq by done. cbv beta iota zeta.
  rewrite (last_id_same _ w w0) by (apply Ha; by right).
  set (id := Strconv.wrap_int (last_id (LastIDFile cfg) w + 1)).
  set (w1 := mkWorld _ _ _).
  assert (Hw1 : last_id (LastIDFile cfg) w1 = id).
  { apply last_id_written, wrap_int_range. }
  log_step Hb. log_step Hc.
  destruct (Hmount w3) as (w4 & -> & Hs4 & Hf4).
  log_step Hd.
  destruct (Hcopy w5) as (w6 & -> & Hs6 & Hf6).
  log_step He. exists w7. split; [done|]. split.
  - intros dir.
    rewrite (only_log_tier_dir _ _ _ _ He), Hs6, (only_log_tier_dir _ _ _ _ Hd),
      Hs4, (only_log_tier_dir _ _ _ _ Hc), (only_log_tier_dir _ _ _ _ Hb).
    apply (only_log_tier_dir _ _ _ _ Ha).
  - rewrite <- Hw1. apply last_id_same.
    destruct He as [_ He], Hd as [_ Hd], Hc as [_ Hc], Hb as [_ Hb].
    by rewrite He, Hf6, Hd, Hf4, Hc, Hb by (by right).
Qed.

Lemma failed_copy_consumes_serial_number_witness :
  exists w',
    runBackup_steps
      (RunExamples.env_of "20250701_0930" "" (mret None)
         (mret (Some ErrNotExist)))
      RunExamples.cfg_run Examples.w_over_keep
    = Returned (Some (Errorf ErrNotExist)) w'
    /\ last_id "last_id.txt" w' = 1.
Proof.
  destruct (failed_copy_consumes_serial_number
              (RunExamples.env_of "20250701_0930" "" (mret None)
                 (mret (Some ErrNotExist)))
              RunExamples.cfg_run ErrNotExist Examples.w_over_keep)
    as (w' & Hrun & _ & Hid).
  - reflexivity.
  - reflexivity.
  - discriminate.
  - intros w0. by exists w0.
  - intros w0. by exists w0.
  - exists w'. split; [exact Hrun|]. etrans; [exact Hid | reflexivity].
Defined.

(** X17: a live run whose mount and copy succeed, over tiers with
    distinct directories and keep counts that are not negative, returns no
    error and has stored the image in the 30m tier under the name made of
    the new serial number and the time stamp.  Because the rotation block
    runs before the image is stored, the 30m tier is left with up to one
    artifact more than its keep count, and every other tier within its
    keep count.  Every other entry of every directory was there before
    the run, under the same name and with the same content.  The file of
    the serial number exists or can be created, and neither it nor the
    image is the log file. *)
Theorem runBackup_stores_one_backup `{GoRuntime} (env : Env) (cfg : RunConfig)
    (data : string) (w : World) :
  DryRun cfg = false ->
  OpenFile_error (create_error env) (LastIDFile cfg) w = None ->
  LastIDFile cfg <> LogFile cfg ->
  LogFile cfg = "" \/ SourceVHDX cfg <> LogFile cfg ->
  well_formed cfg levels ->
  (forall w0, exists w1,
     mount_if_missing env w0 = Returned None w1 /\ same_tiers w0 w1) ->
  (forall w0, exists w1,
     tryCopy env w0 = Returned None w1 /\ same_tiers w0 w1
     /\ files w1 !! SourceVHDX cfg = Some data) ->
  let id := Strconv.wrap_int (last_id (LastIDFile cfg) w + 1) in
  let filename := backup_filename id (timeStamp env) in
  exists w',
    runBackup_steps env cfg w = Returned None w'
    /\ tier_dir w' (dir_of cfg "30m") !! filename = Some data
    /\ Z.of_nat (length (artifacts (tier_dir w' (dir_of cfg "30m"))))
       <= keep_of cfg "30m" + 1
    /\ Forall (fun lvl =>
         Z.of_nat (length (artifacts (tier_dir w' (dir_of cfg lvl))))
         <= keep_of cfg lvl) ["3h"; "6h"; "12h"; "1d"]
    /\ (forall dir name c,
          tier_dir w' dir !! name = Some c ->
          (dir = dir_of cfg "30m" /\ name = filename /\ c = data)
          \/ exists dir', tier_dir w dir' !! name = Some c).
Proof.
  intros Hlive Hopen Hne Hsource Hwf Hmount Hcopy id filename.
  unfold runBackup_steps, mbind, M_bind. cbv zeta. rewrite Hlive.
  log_step Ha.
  assert (Hopen0 : OpenFile_error (create_error env) (LastIDFile cfg) w0 = None).
  { rewrite <- Hopen. apply OpenFile_error_same, Ha. by right. }
  rewrite getNextID_eq by done. cbv beta iota zeta.
  rewrite (last_id_same _ w w0) by (apply Ha; by right).
  fold id. fold filename. set (w1 := mkWorld _ _ _).
  assert (Hs1 : forall dir, tier_dir w1 dir = tier_dir w dir).
  { intros dir. apply (only_log_tier_dir _ _ _ _ Ha). }
  log_step Hb. log_step Hc.
  destruct (Hmount w3) as (w4 & -> & Hs4).
  log_step Hd.
  destruct (Hcopy w5) as (w6 & -> & Hs6 & Hsrc).
  log_step He.
  assert (Hs7 : forall dir, tier_dir w7 dir = tier_dir w dir).
  { intros dir.
    rewrite (only_log_tier_dir _ _ _ _ He), Hs6, (only_log_tier_dir _ _ _ _ Hd),
      Hs4, (only_log_tier_dir _ _ _ _ Hc), (only_log_tier_dir _ _ _ _ Hb).
    apply Hs1. }
  destruct (runBackup_rotation_live cfg w7 Hlive Hwf) as (w8 & Hrun & Hbound).
  pose proof (runBackup_rotation_nothing_new cfg w7) as Hnew.
  pose proof (runBackup_rotation_same_files cfg w7) as Hfiles.
  rewrite Hrun in Hnew, Hfiles |- *. cbn [world_of] in Hnew, Hfiles.
  log_step Hf.
  pose proof Hwf as [Hok Hnd].
  apply Forall_cons_1 in Hok as [[Hdir30 _] _].
  cbn [levels map] in Hnd. apply NoDup_cons in Hnd as [Hnotin _].
  apply Forall_cons_1 in Hbound as [Hb30 Hbrest].
  rewrite (saveBackup_eq _ _ _ data); [|done|]; cycle 1.
  { destruct Hf as [_ Hf], He as [_ He].
    by rewrite Hf, Hfiles, He. }
  set (w10 := mkWorld _ _ _).
  destruct (logPerformance_returns env (LogFile cfg) (PerfLogPath cfg) false w10)
    as (w11 & -> & Hd11 & _).
  log_step Hg. cbn [mret M_ret]. exists w12. split; [done|].
  assert (Hself : tier_dir w12 (dir_of cfg "30m")
                  = <[filename := data]> (tier_dir w8 (dir_of cfg "30m"))).
  { rewrite (only_log_tier_dir _ _ _ _ Hg). unfold tier_dir at 1.
    rewrite Hd11. unfold w10. cbn [dirs]. rewrite lookup_insert_eq.
    cbn [default]. by rewrite (only_log_tier_dir _ _ _ _ Hf). }
  assert (Hother : forall D, D <> dir_of cfg "30m" -> tier_dir w12 D = tier_dir w8 D).
  { intros D HD. rewrite (only_log_tier_dir _ _ _ _ Hg). unfold tier_dir at 1.
    rewrite Hd11. unfold w10. cbn [dirs].
    rewrite lookup_insert_ne by (by apply not_eq_sym).
    apply (only_log_tier_dir _ _ _ _ Hf). }
  rewrite !Hself. split; [by rewrite lookup_insert_eq|]. split; [|split].
  - pose proof (artifacts_insert_length (tier_dir w8 (dir_of cfg "30m"))
                  filename data).
    unfold within_keep in Hb30. lia.
  - apply Forall_forall. intros lvl Hlvl.
    rewrite Forall_forall in Hbrest. specialize (Hbrest lvl Hlvl).
    rewrite Hother; [unfold within_keep in Hbrest; lia|].
    intros Heq. apply Hnotin. rewrite <- Heq.
    change (dir_of cfg lvl ∈ map (dir_of cfg) ["3h"; "6h"; "12h"; "1d"]).
    apply list_elem_of_fmap. by exists lvl.
  - intros dir name c.
    destruct (decide (dir = dir_of cfg "30m")) as [->|Hdir].
    + rewrite Hself. destruct (decide (name = filename)) as [->|Hname].
      * rewrite lookup_insert_eq. intros [= <-]. by left.
      * rewrite lookup_insert_ne by done. intros Hc'. right.
        destruct (Hnew _ _ _ Hc') as [dir' Hc'']. exists dir'.
        by rewrite <- Hs7.
    + rewrite Hother by done. intros Hc'. right.
      destruct (Hnew _ _ _ Hc') as [dir' Hc'']. exists dir'.
      by rewrite <- Hs7.
Qed.

Lemma runBackup_stores_one_backup_witness :
  exists w',
    runBackup_steps
      (RunExamples.env_of "20250701_1030" "" (mret None) RunExamples.copy_image)
      RunExamples.cfg_run Examples.w_over_keep
    = Returned None w'
    /\ tier_dir w' "backup/30m" !! "000001_20250701_1030.vhdx" = Some "image 4".
Proof.
  destruct (runBackup_stores_one_backup
              (RunExamples.env_of "20250701_1030" "" (mret None)
                 RunExamples.copy_image)
              RunExamples.cfg_run "image 4" Examples.w_over_keep)
    as (w' & Hrun & Hnew & _).
  - reflexivity.
  - reflexivity.
  - discriminate.
  - right. discriminate.
  - split.
    + repeat constructor; vm_compute; discriminate.
    + apply (bool_decide_unpack _). vm_compute. exact I.
  - intros w0. by exists w0.
  - intros w0. eexists. split; [reflexivity|]. split; [done|].
    cbn [files set_files]. by rewrite lookup_insert_eq.
  - exists w'. split; [exact Hrun | exact Hnew].
Defined.

(** X18: the backup that is stored is listed as the newest.  When the
    artifacts of the directory carry serial numbers below the new one, and
    the new one is below one million, the listing after [saveBackup] is
    the listing before followed by the new name. *)
Theorem stored_backup_is_listed_last (dstDir srcPath data timeStamp : string)
    (id : Z) (w : World) :
  dstDir <> "" -> files w !! srcPath = Some data -> id < 1000000 ->
  (forall name, name ∈ artifacts (tier_dir w dstDir) ->
     exists i ts, name = backup_filename i ts /\ 0 <= i < id) ->
  exists w',
    saveBackup dstDir (backup_filename id timeStamp) srcPath false w
    = Returned None w'
    /\ artifacts (tier_dir w' dstDir)
       = artifacts (tier_dir w dstDir) ++ [backup_filename id timeStamp].
Proof.
  intros Hdir Hsrc Hid Hold. eexists. split; [by apply saveBackup_eq|].
  rewrite tier_dir_mk. cbn [dirs]. rewrite lookup_insert_eq. cbn [default].
  apply artifacts_insert_newest; [apply backup_filename_vhdx|].
  apply Forall_forall. intros name Hin.
  destruct (Hold name Hin) as (i & ts & -> & Hi).
  pose proof (backup_filename_compare i id ts timeStamp Hi Hid) as Hcmp.
  apply compare_Lt_str_le in Hcmp as [Hle Hnle]. split; [done|].
  intros Heq. apply Hnle. rewrite Heq. reflexivity.
Qed.

Lemma stored_backup_is_listed_last_witness :
  exists w',
    saveBackup "backup/30m" (backup_filename 4 "20250701_1030") "image.vhdx" false
      (mkWorld {[ "backup/30m" := Examples.d_over_keep ]}
         {[ "image.vhdx" := "image 4" ]} [])
    = Returned None w'
    /\ artifacts (tier_dir w' "backup/30m")
       = ["000001_20250701_0900.vhdx"; "000002_20250701_0930.vhdx";
          "000003_20250701_1000.vhdx"; "000004_20250701_1030.vhdx"].
Proof.
  destruct (stored_backup_is_listed_last "backup/30m" "image.vhdx" "image 4"
              "20250701_1030" 4
              (mkWorld {[ "backup/30m" := Examples.d_over_keep ]}
                 {[ "image.vhdx" := "image 4" ]} []))
    as (w' & Hrun & Hart).
  - discriminate.
  - reflexivity.
  - lia.
  - intros name Hin.
    change (artifacts _) with ["000001_20250701_0900.vhdx";
      "000002_20250701_0930.vhdx"; "000003_20250701_1000.vhdx"] in Hin.
    rewrite !elem_of_cons in Hin.
    destruct Hin as [->|[->|[->|Hin]]].
    + exists 1, "20250701_0900". split; [reflexivity | lia].
    + exists 2, "20250701_0930". split; [reflexivity | lia].
    + exists 3, "20250701_1000". split; [reflexivity | lia].
    + by apply elem_of_nil in Hin.
  - exists w'. split; [exact Hrun|]. rewrite Hart. reflexivity.
Defined.

(** ** The serial-number file and the performance log in a whole run *)

(** X28: when the file of the serial number cannot be opened, as it
    cannot without a path, or when it is missing and cannot be created, a
    live run stops before it mounts or copies anything: [getNextID]
    returns the error of the open, and the run returns it wrapped, with
    nothing changed on the machine but the log file.  The dry run does not
    show this: it takes the missing file for a first run and goes on with
    the number 1. *)
Theorem run_fails_without_serial_number_file `{GoRuntime} (env : Env)
    (cfg : RunConfig) (e : error) (w : World) :
  OpenFile_error (create_error env) (LastIDFile cfg) w = Some e ->
  LogFile cfg = "" \/ LastIDFile cfg <> LogFile cfg ->
  getNextID (create_error env) (LastIDFile cfg) false w = Returned (0, Some e) w
  /\ (DryRun cfg = false ->
      exists w',
        runBackup_steps env cfg w = Returned (Some (Errorf e)) w'
        /\ only_log (LogFile cfg) w w')
  /\ (files w !! LastIDFile cfg = None ->
      getNextID (create_error env) (LastIDFile cfg) true w = Returned (1, None) w)
  /\ (LastIDFile cfg = "" -> e = ErrNotExist).
Proof.
  intros Hopen Hapart. split; [by apply getNextID_fails|]. split; [|split].
  - intros Hlive. unfold runBackup_steps, mbind, M_bind. cbv zeta.
    rewrite Hlive. log_step Ha.
    rewrite (getNextID_fails _ _ e).
    2:{ rewrite <- Hopen. apply OpenFile_error_same, Ha, Hapart. }
    cbv beta iota zeta. log_step Hb. log_step Hc.
    exists w2. split; [done|]. by do 2 (etrans; [eassumption|]).
  - intros Hnone. cbn [getNextID]. rewrite getNextIDDryRun_eq.
    unfold last_id. by rewrite Hnone.
  - intros Hpath. rewrite Hpath in Hopen. by injection Hopen as <-.
Qed.

Lemma run_fails_without_serial_number_file_witness :
  exists w',
    runBackup_steps RunExamples.env_read_only
      (mkRunConfig Examples.cfg_tiers "image.vhdx" "last_id.txt" "perf.log" ""
         false "")
      Examples.w_over_keep
    = Returned (Some (Errorf ErrNotExist)) w'
    /\ dirs w' = dirs Examples.w_over_keep
    /\ files w' = files Examples.w_over_keep.
Proof.
  destruct (run_fails_without_serial_number_file RunExamples.env_read_only
              (mkRunConfig Examples.cfg_tiers "image.vhdx" "last_id.txt"
                 "perf.log" "" false "")
              ErrNotExist Examples.w_over_keep)
    as (_ & Hrun & _); [reflexivity | left; reflexivity |].
  destruct Hrun as (w' & Hrun & Hlog); [reflexivity|].
  exists w'. split; [exact Hrun|].
  split; [apply Hlog | by apply only_log_none].
Defined.

Lemma saveBackup_same_files dstDir filename srcPath dryRun w :
  files (world_of (saveBackup dstDir filename srcPath dryRun w)) = files w.
Proof.
  unfold saveBackup. destruct dryRun; [done|].
  unfold mbind, M_bind.
  pose proof (MkdirAll_same_files dstDir w) as Hf. unfold same_files in Hf.
  destruct (MkdirAll dstDir w) as [[e|] w1|w1]; cbn [world_of] in Hf;
    cbn [mret M_ret world_of]; [done| |done].
  unfold Open. destruct (files w1 !! srcPath); cbn [mret M_ret world_of]; [|done].
  unfold Create, Copy.
  destruct (dirs w1 !! p_dir (Join dstDir filename)); cbn [mret M_ret world_of]; done.
Qed.

(** X29: the performance log gets its line when a live run has stored the
    backup, and only then.  With a path for the log that is neither that
    of the serial number nor that of the log file, and a mount and a copy
    that leave the performance log alone, a run that returns no error has
    appended its line to the log, creating it if need be, unless the log
    cannot be opened, in which case it is left as it was; a run that
    returns an error, or panics, has left the log as it was. *)
Theorem perf_log_line_only_on_success `{GoRuntime} (env : Env) (cfg : RunConfig)
    (w : World) :
  DryRun cfg = false ->
  PerfLogPath cfg <> LastIDFile cfg ->
  LogFile cfg = "" \/ PerfLogPath cfg <> LogFile cfg ->
  (forall w0,
     files (world_of (mount_if_missing env w0)) !! PerfLogPath cfg
     = files w0 !! PerfLogPath cfg) ->
  (forall w0,
     files (world_of (tryCopy env w0)) !! PerfLogPath cfg
     = files w0 !! PerfLogPath cfg) ->
  let old := files w !! PerfLogPath cfg in
  match runBackup_steps env cfg w with
  | Returned None w' =>
      match OpenFile_error (create_error env) (PerfLogPath cfg) w with
      | None =>
          files w' !! PerfLogPath cfg
          = Some (default "" old ++ perfLine env)%string
      | Some _ => files w' !! PerfLogPath cfg = old
      end
  | Returned (Some _) w' | Panicked w' => files w' !! PerfLogPath cfg = old
  end.
Proof.
  intros Hlive Hne Hapart Hmount Hcopy old.
  assert (Hold : files w !! PerfLogPath cfg = old) by done. clearbody old.
  assert (Hkeep : forall w1 w2,
            only_log (LogFile cfg) w1 w2 ->
            files w1 !! PerfLogPath cfg = old ->
            files w2 !! PerfLogPath cfg = old).
  { intros w1 w2 [_ Hlog] <-. by apply Hlog. }
  unfold runBackup_steps, mbind, M_bind. cbv zeta. rewrite Hlive.
  log_step Ha. apply (Hkeep _ _ Ha) in Hold as Hold0.
  assert (exists id err w1,
            getNextID (create_error env) (LastIDFile cfg) false w0
            = Returned (id, err) w1
            /\ files w1 !! PerfLogPath cfg = old) as (id & err & w1 & -> & Hold1).
  { destruct (OpenFile_error (create_error env) (LastIDFile cfg) w0) as [e|]
      eqn:Hopen.
    - rewrite (getNextID_fails _ _ e) by done. by eexists _, _, _.
    - rewrite getNextID_eq by done. eexists _, _, _. split; [done|].
      cbn [files]. by rewrite lookup_insert_ne by (by apply not_eq_sym). }
  cbv beta iota zeta. log_step Hb. apply (Hkeep _ _ Hb) in Hold1 as Hold2.
  destruct err as [e|].
  { log_step Hc. cbn [mret M_ret]. by apply (Hkeep _ _ Hc). }
  log_step Hc. apply (Hkeep _ _ Hc) in Hold2 as Hold3.
  specialize (Hmount w3).
  destruct (mount_if_missing env w3) as [[e|] w4|w4]; cbn [world_of] in Hmount;
    [|  |congruence].
  { log_step Hd. cbn [mret M_ret]. apply (Hkeep _ _ Hd). congruence. }
  log_step Hd.
  assert (Hold5 : files w5 !! PerfLogPath cfg = old).
  { apply (Hkeep _ _ Hd). congruence. }
  specialize (Hcopy w5).
  destruct (tryCopy env w5) as [[e|] w6|w6]; cbn [world_of] in Hcopy;
    [|  |congruence].
  { log_step He. cbn [mret M_ret]. apply (Hkeep _ _ He). congruence. }
  log_step He.
  assert (Hold7 : files w7 !! PerfLogPath cfg = old).
  { apply (Hkeep _ _ He). congruence. }
  pose proof (runBackup_rotation_same_files cfg w7) as Hrot.
  destruct (runBackup_rotation cfg w7) as [[] w8|w8]; cbn [world_of] in Hrot;
    unfold same_files in Hrot; [|congruence].
  log_step Hf.
  assert (Hold9 : files w9 !! PerfLogPath cfg = old).
  { apply (Hkeep _ _ Hf). congruence. }
  pose proof (saveBackup_same_files (dir_of cfg "30m")
                (backup_filename id (timeStamp env)) (SourceVHDX cfg) false w9)
    as Hsave.
  destruct (saveBackup _ _ _ _ w9) as [[e|] w10|w10]; cbn [world_of] in Hsave;
    cbn [mret M_ret]; [congruence| |congruence].
  assert (Hold10 : files w10 !! PerfLogPath cfg = old) by congruence.
  destruct (logPerformance_returns env (LogFile cfg) (PerfLogPath cfg) false w10)
    as (w11 & -> & _ & _ & _ & Hline).
  specialize (Hline eq_refl).
  log_step Hg. cbn [mret M_ret].
  assert (Hsame : OpenFile_error (create_error env) (PerfLogPath cfg) w10
                  = OpenFile_error (create_error env) (PerfLogPath cfg) w).
  { apply OpenFile_error_same. congruence. }
  rewrite Hsame in Hline.
  destruct (OpenFile_error (create_error env) (PerfLogPath cfg) w) as [e|].
  - apply (Hkeep _ _ Hg), (Hkeep _ _ Hline), Hold10.
  - destruct Hg as [_ Hg]. rewrite Hg by done. rewrite Hline.
    do 2 f_equal. congruence.
Qed.

Lemma perf_log_line_only_on_success_witness :
  exists w',
    runBackup_steps
      (RunExamples.env_of "20250701_1030" "line 1" (mret None)
         RunExamples.copy_image)
      RunExamples.cfg_run Examples.w_over_keep
    = Returned None w'
    /\ files w' !! "perf.log" = Some "line 1".
Proof.
  pose proof (perf_log_line_only_on_success
                (RunExamples.env_of "20250701_1030" "line 1" (mret None)
                   RunExamples.copy_image)
                RunExamples.cfg_run Examples.w_over_keep)
    as Hrun.
  destruct (runBackup_steps
              (RunExamples.env_of "20250701_1030" "line 1" (mret None)
                 RunExamples.copy_image)
              RunExamples.cfg_run Examples.w_over_keep)
    as [[e|] w'|w'] eqn:Heq; [by vm_compute in Heq| |by vm_compute in Heq].
  exists w'. split; [reflexivity|]. apply Hrun.
  - reflexivity.
  - vm_compute. discriminate.
  - right. vm_compute. discriminate.
  - intros w0. reflexivity.
  - intros w0. cbn [world_of RunExamples.copy_image files set_files].
    apply lookup_insert_ne. discriminate.
Defined.

(** ** The ledger seen from the modes *)

Lemma MkdirAll_returns dir w :
  exists err w1,
    MkdirAll dir w = Returned err w1 /\ same_tiers w w1 /\ files w1 = files w.
Proof.
  pose proof (MkdirAll_same_tiers dir w) as Hs.
  unfold MkdirAll in *. case_decide; [by eexists _, _|].
  cbn [log dirs] in *. destruct (dirs w !! dir); by eexists _, _.
Qed.

Global Instance only_file_preorder path : PreOrder (only_file path).
Proof.
  split.
  - intros w. split; [reflexivity | done].
  - intros w1 w2 w3 [Hs12 Hf12] [Hs23 Hf23]. split; [by etrans|].
    intros other Hne. by rewrite Hf23, Hf12.
Qed.

Lemma log_only_file path op w : only_file path w (log op w).
Proof. split; [by intros dir | done]. Qed.

Section ModeFacts.
Context `{GoLib}.

(** Saving either fails before it writes, or writes the encoding of the
    record at the path; it changes nothing else. *)
Lemma saveLastExecutionRecord_cases path record w :
  (exists e w',
     saveLastExecutionRecord path record w = Returned (Some e) w'
     /\ same_tiers w w' /\ files w' = files w)
  \/ (exists data w',
        json_MarshalIndent record = inl data
        /\ saveLastExecutionRecord path record w = Returned None w'
        /\ same_tiers w w' /\ files w' = <[path := data]> (files w)).
Proof.
  unfold saveLastExecutionRecord, mbind, M_bind.
  destruct (MkdirAll_returns (filepath_Dir path) w) as (err & w1 & -> & Hs & Hf).
  destruct err as [e|]; [left; by exists e, w1|].
  destruct (json_MarshalIndent record) as [data|e]; [|left; by exists e, w1].
  right. exists data. eexists. split; [done|]. split; [reflexivity|].
  split; [by intros dir; rewrite <- Hs | by cbn; rewrite Hf].
Qed.

Lemma load_result_cases path w :
  (exists e, load_result path w = (None, Some e))
  \/ (exists m, load_result path w = (Some (mkRecord (Some m)), None)
                /\ ledger_map path w = m).
Proof.
  unfold ledger_map, load_result. destruct (files w !! path) as [data|];
    [|left; by eexists].
  destruct (json_Unmarshal data) as [[[m|]]|e]; [right..|left]; by eexists.
Qed.

(** Recording either fails before it writes, or writes at the ledger path
    the encoding of the mapping it has read with the level set to the
    time of the execution; it changes nothing else, and it returns: the
    mapping it writes into is never nil. *)
Lemma recordLastExecution_cases cfg level t w :
  LastExecutionFile cfg <> "" ->
  (exists e w',
     recordLastExecution cfg level t w = Returned (Some e) w'
     /\ same_tiers w w' /\ files w' = files w)
  \/ (exists data w',
        json_MarshalIndent
          (mkRecord (Some (<[level := t]> (ledger_map (LastExecutionFile cfg) w))))
        = inl data
        /\ recordLastExecution cfg level t w = Returned None w'
        /\ same_tiers w w'
        /\ files w' = <[LastExecutionFile cfg := data]> (files w)).
Proof.
  intros Hpath. unfold recordLastExecution. rewrite (eqb_empty_false _ Hpath).
  unfold mbind, M_bind. rewrite loadLastExecutionRecord_eq.
  set (w0 := log _ w).
  assert (Hsave : forall m, ledger_map (LastExecutionFile cfg) w = m ->
    (exists e w',
       saveLastExecutionRecord (LastExecutionFile cfg)
         (mkRecord (Some (<[level := t]> m))) w0 = Returned (Some e) w'
       /\ same_tiers w w' /\ files w' = files w)
    \/ (exists data w',
          json_MarshalIndent
            (mkRecord (Some (<[level := t]> (ledger_map (LastExecutionFile cfg) w))))
          = inl data
          /\ saveLastExecutionRecord (LastExecutionFile cfg)
               (mkRecord (Some (<[level := t]> m))) w0 = Returned None w'
          /\ same_tiers w w'
          /\ files w' = <[LastExecutionFile cfg := data]> (files w))).
  { intros m <-.
    destruct (saveLastExecutionRecord_cases (LastExecutionFile cfg)
                (mkRecord (Some (<[level := t]>
                   (ledger_map (LastExecutionFile cfg) w)))) w0)
      as [(e & w' & Hrun & Hs & Hf)|(data & w' & Henc & Hrun & Hs & Hf)].
    - left. exists e, w'. split; [done|]. split; [exact Hs | exact Hf].
    - right. exists data, w'. split; [done|]. split; [done|].
      split; [exact Hs | exact Hf]. }
  destruct (load_result_cases (LastExecutionFile cfg) w)
    as [[e He]|(m & Hm & Hmap)].
  - rewrite He. destruct e; cbn [IsNotExist negb default LastExecutions];
      try (left; eexists _, w0; split; [reflexivity|]; by split).
    apply Hsave. unfold ledger_map. by rewrite He.
  - rewrite Hm. cbn [default LastExecutions]. by apply Hsave.
Qed.

End ModeFacts.

Section ModeTheorems.
Context `{GoLib}.

Lemma shouldExecuteBackup_returns cfg now w :
  exists res w',
    shouldExecuteBackup cfg now w = Returned res w'
    /\ dirs w' = dirs w /\ files w' = files w.
Proof.
  unfold shouldExecuteBackup.
  destruct (determineBestBackupLevel now) as [[] level]; cbn [negb];
    [|by eexists _, _].
  destruct (negb (String.eqb (LastExecutionFile cfg) "")); [|by eexists _, _].
  unfold mbind, M_bind. rewrite loadLastExecutionRecord_eq.
  destruct (load_result _ w) as [lastRecord [e|]].
  - destruct (negb (IsNotExist (Some e))); by eexists _, _.
  - destruct lastRecord as [record|]; [|by eexists _, _].
    destruct (last_execution record level) as [last|]; [|by eexists _, _].
    destruct (IsZero last); [by eexists _, _|].
    destruct (Equal _ _); by eexists _, _.
Qed.

Lemma recordLastExecution_only_file cfg level t w :
  exists r w',
    recordLastExecution cfg level t w = Returned r w'
    /\ only_file (LastExecutionFile cfg) w w'
    /\ (LastExecutionFile cfg = "" -> files w' = files w).
Proof.
  destruct (decide (LastExecutionFile cfg = "")) as [Hoff|Hon].
  - exists None, w. unfold recordLastExecution. rewrite Hoff.
    split; [done|]. split; [reflexivity | done].
  - destruct (recordLastExecution_cases cfg level t w Hon)
      as [(e & w' & Hrun & Hs & Hf)|(data & w' & _ & Hrun & Hs & Hf)].
    + exists (Some e), w'. split; [done|]. split; [|done].
      split; [done|]. intros other _. by rewrite Hf.
    + exists None, w'. split; [done|]. split; [|done].
      split; [done|]. intros other Hne. rewrite Hf.
      by rewrite lookup_insert_ne by (by apply not_eq_sym).
Qed.

Global Instance only_ledger_and_log_preorder cfg :
  PreOrder (only_ledger_and_log cfg).
Proof.
  split.
  - intros w. split; [reflexivity|]. by split.
  - intros w1 w2 w3 (Hs12 & Hf12 & Hn12) (Hs23 & Hf23 & Hn23).
    split; [by etrans|]. split.
    + intros other Hledger Hlog. by rewrite Hf23, Hf12.
    + intros Hledger Hlog. by rewrite Hn23, Hn12.
Qed.

Lemma only_log_quiet (cfg : RunConfig) w w' :
  only_log (LogFile cfg) w w' -> only_ledger_and_log cfg w w'.
Proof.
  intros [Hd Hf]. split; [|split].
  - intros dir. unfold tier_dir. by rewrite Hd.
  - intros other _ Hlog. by apply Hf.
  - intros _ Hlog. rewrite Hlog in Hf. apply map_eq. intros path.
    apply Hf. by left.
Qed.

Lemma only_file_quiet (cfg : RunConfig) w w' :
  only_file (LastExecutionFile cfg) w w' ->
  (LastExecutionFile cfg = "" -> files w' = files w) ->
  only_ledger_and_log cfg w w'.
Proof.
  intros [Hs Hf] Hoff. split; [done|]. split.
  - intros other Hledger _. by apply Hf.
  - intros Hledger _. by apply Hoff.
Qed.

(** The line that follows in the goal, and what it leaves alone, in terms
    of the ledger and the log file. *)
Ltac quiet_step Hq :=
  log_step Hq; apply only_log_quiet in Hq.

Ltac quiet_chain := repeat (etrans; [eassumption|]); reflexivity.

Lemma runOneShotMode_quiet env (cfg : RunConfig) now w :
  exists r w',
    runOneShotMode env cfg now w = Returned r w' /\ only_ledger_and_log cfg w w'.
Proof.
  unfold runOneShotMode, mbind, M_bind. cbv zeta.
  destruct (setupLogOutput_cases env cfg w)
    as [(e & Hlog & Hopen & ->)|(w0 & _ & -> & Hsetup)].
  { eexists _, _. split; [reflexivity | reflexivity]. }
  apply only_log_quiet in Hsetup.
  destruct (shouldExecuteBackup_returns cfg now w0)
    as ([[shouldExecute level] err] & w1 & -> & Hd1 & Hf1).
  assert (Hq1 : only_ledger_and_log cfg w0 w1).
  { apply only_log_quiet. split; [done|]. intros path _. by rewrite Hf1. }
  quiet_step Hq2.
  destruct err as [e|].
  { eexists _, _. split; [reflexivity | quiet_chain]. }
  destruct shouldExecute; cbn [negb]; cycle 1.
  { quiet_step Hq3. eexists _, _. split; [reflexivity | quiet_chain]. }
  quiet_step Hq3.
  destruct (DryRun cfg).
  - destruct (recordLastExecution_only_file cfg level now w3)
      as (r & w4 & -> & Hfile & Hoff).
    pose proof (only_file_quiet cfg _ _ Hfile Hoff) as Hq4.
    destruct r as [e|].
    + quiet_step Hq5. eexists _, _. split; [reflexivity | quiet_chain].
    + eexists _, _. split; [reflexivity | quiet_chain].
  - quiet_step Hq4. unfold runBackupWithLevel. cbn [mret M_ret].
    destruct (recordLastExecution_only_file cfg level now w4)
      as (r & w5 & -> & Hfile & Hoff).
    pose proof (only_file_quiet cfg _ _ Hfile Hoff) as Hq5.
    eexists _, _. split; [reflexivity | quiet_chain].
Qed.

(** X19: one-shot mode never stores, promotes or deletes a backup.
    Whatever the configuration, the time and the state of the machine,
    [runOneShotMode] returns, every directory has the content it had, and
    no file has changed except, possibly, the ledger and the log file;
    with the ledger disabled and no log file nothing changes at all.  The
    backup itself is [runBackupWithLevel], which only logs. *)
Theorem runOneShotMode_touches_only_ledger (env : Env) (cfg : RunConfig)
    (now : Time) (w : World) :
  exists r w',
    runOneShotMode env cfg now w = Returned r w'
    /\ (forall dir, tier_dir w' dir = tier_dir w dir)
    /\ (forall other,
          other <> LastExecutionFile cfg ->
          LogFile cfg = "" \/ other <> LogFile cfg ->
          files w' !! other = files w !! other)
    /\ (LastExecutionFile cfg = "" -> LogFile cfg = "" -> files w' = files w).
Proof.
  destruct (runOneShotMode_quiet env cfg now w) as (r & w' & Hrun & Hquiet).
  by exists r, w'.
Qed.

(** X20: a ledger that does not parse blocks the backups and is kept as
    it is.  At a time for which a level is due the decision is an error,
    and [recordLastExecution] returns the error of the decoder without
    writing; the only call that either makes is the read of the ledger.
    [runOneShotMode] fails, with the error of the decoder wrapped twice
    when it has opened its log; no directory has changed, no file but the
    log file, and the ledger holds what it held. *)
Theorem corrupt_ledger_blocks_and_is_kept (env : Env) (cfg : RunConfig)
    (now : Time) (level data : string) (e : error) (w : World) :
  LastExecutionFile cfg <> "" ->
  LastExecutionFile cfg <> LogFile cfg ->
  files w !! LastExecutionFile cfg = Some data ->
  json_Unmarshal data = inr e -> e <> ErrNotExist ->
  determineBestBackupLevel now = (true, level) ->
  let w' := log (OpReadFile (LastExecutionFile cfg)) w in
  shouldExecuteBackup cfg now w = Returned (false, "", Some (Errorf e)) w'
  /\ recordLastExecution cfg level now w = Returned (Some e) w'
  /\ files w' !! LastExecutionFile cfg = Some data
  /\ (exists e' w'',
        runOneShotMode env cfg now w
        = Returned (Some (Errorf (Errorf e'))) w''
        /\ only_log (LogFile cfg) w w''
        /\ files w'' !! LastExecutionFile cfg = Some data
        /\ (LogFile cfg = ""
            \/ OpenFile_error (create_error env) (LogFile cfg) w = None ->
            e' = e)).
Proof.
  intros Hpath Hne Hfile Hdec Hnot Hdue w'.
  assert (Hnot' : IsNotExist (Some e) = false) by by destruct e.
  assert (Hshould : forall w0,
            files w0 !! LastExecutionFile cfg = Some data ->
            shouldExecuteBackup cfg now w0
            = Returned (false, "", Some (Errorf e))
                (log (OpReadFile (LastExecutionFile cfg)) w0)).
  { intros w0 Hfile0.
    rewrite (shouldExecuteBackup_enabled _ _ _ level) by done.
    unfold load_result. by rewrite Hfile0, Hdec, Hnot'. }
  split; [by apply Hshould|]. split; [|split; [done|]].
  - unfold recordLastExecution. rewrite (eqb_empty_false _ Hpath).
    unfold mbind, M_bind. rewrite loadLastExecutionRecord_eq.
    unfold load_result. by rewrite Hfile, Hdec, Hnot'.
  - unfold runOneShotMode, mbind, M_bind. cbv zeta.
    destruct (setupLogOutput_cases env cfg w)
      as [(e0 & Hlog & Hopen & ->)|(w0 & _ & -> & Hsetup)].
    { exists e0, w. split; [done|]. split; [reflexivity|]. split; [done|].
      intros [?|?]; congruence. }
    assert (Hfile0 : files w0 !! LastExecutionFile cfg = Some data).
    { destruct Hsetup as [_ Hsetup]. by rewrite Hsetup by (by right). }
    rewrite Hshould by done. log_step Ha. cbn [mret M_ret].
    assert (Hlog : only_log (LogFile cfg) w w1).
    { etrans; [exact Hsetup|]. etrans; [|exact Ha]. by split. }
    exists e, w1. split; [done|]. split; [done|]. split; [|done].
    destruct Hlog as [_ Hlog]. by rewrite Hlog by (by right).
Qed.

Section WithLaws.
Context `{!GoLibLaws}.

Lemma saveLastExecutionRecord_ok path record data w :
  json_MarshalIndent record = inl data ->
  saveLastExecutionRecord path record w
  = Returned None
      (mkWorld (<[filepath_Dir path := tier_dir w (filepath_Dir path)]> (dirs w))
         (<[path := data]> (files w))
         (OpWriteFile path :: OpMkdirAll (filepath_Dir path) :: trace w)).
Proof.
  intros Henc. unfold saveLastExecutionRecord, mbind, M_bind.
  rewrite MkdirAll_eq by apply filepath_Dir_nonempty. by rewrite Henc.
Qed.

(** A time that the ledger holds has been decoded: its zone offset is one
    of whole minutes. *)
Lemma ledger_map_zone path w level t :
  ledger_map path w !! level = Some t -> zone t mod 60 = 0.
Proof.
  unfold ledger_map, load_result.
  destruct (files w !! path) as [data|]; [|by rewrite lookup_empty].
  destruct (json_Unmarshal data) as [record|e] eqn:Hdec;
    [|by rewrite lookup_empty].
  intros Ht. apply (json_Unmarshal_zone data record level t Hdec).
  unfold last_execution. destruct record as [[m|]]; [done|].
  cbn in Ht. by rewrite lookup_empty in Ht.
Qed.

Lemma ledger_map_same path w w' :
  files w' !! path = files w !! path -> ledger_map path w' = ledger_map path w.
Proof. intros Hf. unfold ledger_map, load_result. by rewrite Hf. Qed.

(** What is read back after a successful recording. *)
Lemma ledger_after_record cfg level t data w w' :
  LastExecutionFile cfg <> "" ->
  plain level = true ->
  map_Forall (fun l _ => plain l = true)
    (ledger_map (LastExecutionFile cfg) w) ->
  json_MarshalIndent
    (mkRecord (Some (<[level := t]> (ledger_map (LastExecutionFile cfg) w))))
  = inl data ->
  files w' !! LastExecutionFile cfg = Some data ->
  exists r',
    load_result (LastExecutionFile cfg) w' = (Some r', None)
    /\ (exists t', last_execution r' level = Some t'
                   /\ Equal (RFC3339 t) t' = true)
    /\ (forall other, other <> level ->
          match ledger_map (LastExecutionFile cfg) w !! other,
                last_execution r' other with
          | Some a, Some b => Equal a b = true
          | None, None => True
          | _, _ => False
          end).
Proof.
  intros Hpath Hlevel Hplain Henc Hfile.
  assert (Hnames : plain_levels
            (mkRecord (Some (<[level := t]>
               (ledger_map (LastExecutionFile cfg) w))))).
  { intros l u. unfold last_execution. cbn [LastExecutions mbind option_bind].
    destruct (decide (l = level)) as [->|Hl]; [done|].
    rewrite lookup_insert_ne by (by apply not_eq_sym).
    intros Hu. by apply (Hplain l u). }
  destruct (json_roundtrip _ _ Hnames Henc) as (r' & Hdec & Hsame).
  assert (Hload : load_result (LastExecutionFile cfg) w'
                  = (Some match LastExecutions r' with
                          | None => mkRecord (Some ∅)
                          | Some _ => r'
                          end, None)).
  { unfold load_result. by rewrite Hfile, Hdec. }
  eexists. split; [exact Hload|].
  assert (Hsame' : forall l,
            match RFC3339 <$> (<[level := t]>
                     (ledger_map (LastExecutionFile cfg) w) !! l),
                  last_execution
                    match LastExecutions r' with
                    | None => mkRecord (Some ∅)
                    | Some _ => r'
                    end l with
            | Some a, Some b => Equal a b = true
            | None, None => True
            | _, _ => False
            end).
  { intros l. specialize (Hsame l). rewrite last_execution_written in Hsame.
    unfold last_execution in Hsame at 1. cbn [LastExecutions mbind option_bind] in Hsame.
    by destruct r' as [[m|]]. }
  split.
  - specialize (Hsame' level). rewrite lookup_insert_eq in Hsame'.
    cbn [fmap option_fmap option_map] in Hsame'.
    destruct (last_execution _ level) as [t'|]; [by exists t' | done].
  - intros other Hother. specialize (Hsame' other).
    rewrite lookup_insert_ne in Hsame' by (by apply not_eq_sym).
    destruct (ledger_map (LastExecutionFile cfg) w !! other) as [a|] eqn:Ha;
      cbn [fmap option_fmap option_map] in Hsame'; [|done].
    destruct (last_execution _ other) as [b|]; [|done].
    apply ledger_map_zone in Ha. apply RFC3339_Equal in Ha.
    unfold Equal in *. apply Z.eqb_eq in Ha, Hsame'. apply Z.eqb_eq. congruence.
Qed.

Lemma load_result_same path w w' :
  files w' !! path = files w !! path -> load_result path w' = load_result path w.
Proof. intros Hf. unfold load_result. by rewrite Hf. Qed.

Lemma determineBestBackupLevel_plain t level :
  determineBestBackupLevel t = (true, level) -> plain level = true.
Proof.
  unfold determineBestBackupLevel. cbv zeta.
  repeat match goal with
         | |- context [if ?b then _ else _] => destruct b
         end; by intros [= <-].
Qed.

(** X21: recording an execution sets the time of its level and keeps the
    times of the other levels.  When the ledger parses (or is missing),
    its level names and the level are plain, and the encoder accepts the
    updated record, [recordLastExecution] returns no error, the ledger
    file holds the encoding, and the record read back has, at every other
    level, the time the ledger had before, or none if it had none, and at
    the level the time of the execution as RFC 3339 writes it: the same
    instant when the zone offset of the time is one of whole minutes, and
    otherwise an instant that differs by the seconds of the offset. *)
Theorem recordLastExecution_updates_one_level (cfg : BackupConfig)
    (level data : string) (t : Time) (w : World) :
  LastExecutionFile cfg <> "" ->
  plain level = true ->
  map_Forall (fun l _ => plain l = true)
    (ledger_map (LastExecutionFile cfg) w) ->
  json_MarshalIndent
    (mkRecord (Some (<[level := t]> (ledger_map (LastExecutionFile cfg) w))))
  = inl data ->
  (forall e, load_result (LastExecutionFile cfg) w = (None, Some e) ->
     e = ErrNotExist) ->
  exists w' r',
    recordLastExecution cfg level t w = Returned None w'
    /\ files w' = <[LastExecutionFile cfg := data]> (files w)
    /\ load_result (LastExecutionFile cfg) w' = (Some r', None)
    /\ (exists t',
          last_execution r' level = Some t'
          /\ abs_ns t' = abs_ns t + Z.rem (zone t) 60 * Second
          /\ (Equal t t' = true <-> zone t mod 60 = 0))
    /\ (forall other, other <> level ->
          match ledger_map (LastExecutionFile cfg) w !! other,
                last_execution r' other with
          | Some a, Some b => Equal a b = true
          | None, None => True
          | _, _ => False
          end).
Proof.
  intros Hpath Hlevel Hplain Henc Hparses.
  destruct (recordLastExecution_cases cfg level t w Hpath)
    as [(e & w' & Hrun & Hs & Hf)|(data' & w' & Henc' & Hrun & Hs & Hf)].
  { exfalso. revert Hrun. unfold recordLastExecution.
    rewrite (eqb_empty_false _ Hpath). unfold mbind, M_bind.
    rewrite loadLastExecutionRecord_eq.
    destruct (load_result_cases (LastExecutionFile cfg) w)
      as [[e' He']|(m & Hm & Hmap)].
    - rewrite He'. rewrite (Hparses e' He'). cbn [IsNotExist negb default
        LastExecutions].
      assert (ledger_map (LastExecutionFile cfg) w = ∅) as Hempty.
      { unfold ledger_map. by rewrite He'. }
      rewrite Hempty in Henc.
      by rewrite (saveLastExecutionRecord_ok _ _ _ _ Henc).
    - rewrite Hm. cbn [default LastExecutions]. unfold id.
      cbn [LastExecutions]. rewrite Hmap in Henc.
      by rewrite (saveLastExecutionRecord_ok _ _ _ _ Henc). }
  rewrite Henc in Henc'. injection Henc' as <-.
  assert (Hfile : files w' !! LastExecutionFile cfg = Some data).
  { by rewrite Hf, lookup_insert_eq. }
  destruct (ledger_after_record cfg level t data w w' Hpath Hlevel Hplain Henc
              Hfile)
    as (r' & Hload & (t' & Ht' & Heq) & Hothers).
  exists w', r'. split; [done|]. split; [done|]. split; [done|].
  split; [|done]. exists t'. split; [done|].
  unfold Equal in Heq. apply Z.eqb_eq in Heq. rewrite RFC3339_abs_ns in Heq.
  split; [done|]. unfold Equal. rewrite Z.eqb_eq, <- rem_mod_60.
  unfold Second, Nanosecond in *. lia.
Qed.

Lemma Printf_attached env logFile l w w' :
  logFile <> "" -> Printf env logFile l w = Returned tt w' ->
  is_Some (files w' !! logFile).
Proof.
  intros Hlog. unfold Printf. rewrite decide_False by done.
  intros [= <-]. unfold append_file. cbn [files set_files].
  rewrite lookup_insert_eq. by eexists.
Qed.

(** X22: one-shot mode runs a level at most once in a minute, as long as
    the zone offset of its clock is one of whole minutes.  In live mode
    with the ledger enabled, when a run that was due at [now] has opened
    its log, decided for the backup and returned no error, a second run at
    an instant of the same minute for which the same level is due decides
    against the backup: it returns no error and changes nothing but the
    log file. *)
Theorem runOneShotMode_once_per_minute (env env' : Env) (cfg : RunConfig)
    (now now' : Time) (level : string) (w ws w0 w1 : World) :
  LastExecutionFile cfg <> "" ->
  LastExecutionFile cfg <> LogFile cfg ->
  DryRun cfg = false ->
  IsZero now = false -> zone now mod 60 = 0 ->
  map_Forall (fun l _ => plain l = true)
    (ledger_map (LastExecutionFile cfg) w) ->
  setupLogOutput env cfg w = Returned None ws ->
  shouldExecuteBackup cfg now ws = Returned (true, level, None) w0 ->
  runOneShotMode env cfg now w = Returned None w1 ->
  determineBestBackupLevel now' = (true, level) ->
  Equal (Truncate now' Minute_d) (Truncate now Minute_d) = true ->
  shouldExecuteBackup cfg now' w1
  = Returned (false, "", None) (log (OpReadFile (LastExecutionFile cfg)) w1)
  /\ exists w2,
       runOneShotMode env' cfg now' w1 = Returned None w2
       /\ only_log (LogFile cfg) w1 w2.
Proof.
  intros Hpath Hne Hlive Hnonzero Hzone Hplain Hsetup Hshould Hrun Hdue Hminute.
  pose proof (determineBestBackupLevel_plain _ _ Hdue) as Hlevel.
  (* the first run *)
  assert (Hfirst : exists wc,
            recordLastExecution cfg level now wc = Returned None w1
            /\ files wc !! LastExecutionFile cfg = files w !! LastExecutionFile cfg
            /\ (LogFile cfg <> "" -> is_Some (files wc !! LogFile cfg))).
  { revert Hrun. unfold runOneShotMode, mbind, M_bind. cbv zeta.
    rewrite Hsetup, Hshould, Hlive. cbn [negb].
    destruct (setupLogOutput_cases env cfg w)
      as [(e & _ & _ & Hfail)|(ws' & _ & Hok & Hlog0)]; [congruence|].
    assert (ws' = ws) as -> by congruence.
    destruct (shouldExecuteBackup_returns cfg now ws)
      as (res & w0' & Hret & _ & Hf0).
    assert (w0' = w0) as -> by congruence.
    log_step Ha. log_step Hb.
    destruct (Printf_only_log env (LogFile cfg) (LineRunLevel level) w3)
      as (wc & Hlast & Hc).
    rewrite Hlast. unfold runBackupWithLevel. cbn [mret M_ret].
    intros Hrec. exists wc. split; [done|]. split.
    - destruct Hlog0 as [_ Hlog0], Ha as [_ Ha], Hb as [_ Hb], Hc as [_ Hc].
      by rewrite Hc, Hb, Ha, Hf0, Hlog0 by (by right).
    - intros Hlog. by apply (Printf_attached _ _ _ _ _ Hlog Hlast). }
  destruct Hfirst as (wc & Hrec & Hledger & Hattached).
  destruct (recordLastExecution_cases cfg level now wc Hpath)
    as [(e & w' & Hrun' & _)|(data & w' & Henc & Hrun' & Hs & Hf)];
    [congruence|].
  assert (w' = w1) as -> by congruence.
  assert (Hfile : files w1 !! LastExecutionFile cfg = Some data).
  { by rewrite Hf, lookup_insert_eq. }
  rewrite <- (ledger_map_same _ w wc Hledger) in Hplain.
  destruct (ledger_after_record cfg level now data wc w1 Hpath Hlevel Hplain
              Henc Hfile)
    as (r' & Hload & (last & Hlast & Heq) & _).
  assert (Habs : abs_ns last = abs_ns now).
  { unfold Equal in Heq. apply Z.eqb_eq in Heq. rewrite RFC3339_abs_ns in Heq.
    apply rem_mod_60 in Hzone. rewrite Hzone in Heq. lia. }
  assert (Hdecide : forall w2,
            files w2 !! LastExecutionFile cfg = files w1 !! LastExecutionFile cfg ->
            shouldExecuteBackup cfg now' w2
            = Returned (false, "", None)
                (log (OpReadFile (LastExecutionFile cfg)) w2)).
  { intros w2 Hsame.
    rewrite (shouldExecuteBackup_enabled _ _ _ level) by done.
    rewrite (load_result_same _ w1 w2 Hsame), Hload, Hlast.
    unfold IsZero in *. rewrite Habs, Hnonzero.
    replace (Equal (Truncate now' Minute_d) (Truncate last Minute_d)) with true;
      [done|].
    symmetry. apply Truncate_Equal_iff. rewrite Habs.
    by apply Truncate_Equal_iff. }
  split; [by apply Hdecide|].
  (* the second run *)
  unfold runOneShotMode, mbind, M_bind. cbv zeta.
  destruct (setupLogOutput_cases env' cfg w1)
    as [(e & Hlog & Hopen & _)|(w2 & _ & -> & Hsetup')].
  { exfalso. rewrite OpenFile_error_exists in Hopen; [done..|].
    rewrite Hf, lookup_insert_ne by done. by apply Hattached. }
  rewrite Hdecide by (destruct Hsetup' as [_ Hsetup']; by rewrite Hsetup' by (by right)).
  log_step Ha. cbn [negb]. log_step Hb. cbn [mret M_ret].
  exists w4. split; [done|].
  etrans; [exact Hsetup'|]. etrans; [|exact Hb]. etrans; [|exact Ha].
  by split.
Qed.

End WithLaws.
End ModeTheorems.

Lemma corrupt_ledger_blocks_and_is_kept_witness :
  exists w'',
    @runOneShotMode DemoLib.lib RunExamples.env_oneshot
      RunExamples.cfg_oneshot_dry Examples.t_09_30_00 RunExamples.w_corrupt
    = Returned (Some (Errorf (Errorf ErrSyntax))) w''
    /\ files w'' !! Examples.ledger_path = Some "not a record".
Proof.
  destruct (@corrupt_ledger_blocks_and_is_kept DemoLib.lib
              RunExamples.env_oneshot RunExamples.cfg_oneshot_dry
              Examples.t_09_30_00 "30m" "not a record" ErrSyntax
              RunExamples.w_corrupt)
    as (_ & _ & _ & e' & w'' & Hrun & _ & Hfile & He);
    [discriminate | discriminate | reflexivity | vm_compute; reflexivity
    | discriminate | vm_compute; reflexivity |].
  exists w''. rewrite <- He by (right; reflexivity).
  split; [exact Hrun | exact Hfile].
Defined.

Lemma recordLastExecution_updates_one_level_witness :
  exists w' r',
    @recordLastExecution DemoLib.lib Examples.cfg_ledger "3h" Examples.t_10_00_00
      Examples.w_recorded = Returned None w'
    /\ @load_result DemoLib.lib Examples.ledger_path w' = (Some r', None)
    /\ (exists t', last_execution r' "3h" = Some t'
                   /\ Equal Examples.t_10_00_00 t' = true)
    /\ (exists t', last_execution r' "30m" = Some t'
                   /\ Equal Examples.t_09_30_00 t' = true).
Proof.
  destruct (@recordLastExecution_updates_one_level DemoLib.lib DemoLib_laws
              Examples.cfg_ledger "3h"
              (DemoLib.numeral (encode (written (mkRecord (Some
                 (<["3h" := Examples.t_10_00_00]>
                    (@ledger_map DemoLib.lib Examples.ledger_path
                       Examples.w_recorded)))))))
              Examples.t_10_00_00 Examples.w_recorded)
    as (w' & r' & Hrun & _ & Hload & (t' & Hnew & _ & Hsame) & Hkeep).
  - discriminate.
  - reflexivity.
  - apply (bool_decide_unpack _). vm_compute. exact I.
  - reflexivity.
  - intros e He. vm_compute in He. discriminate.
  - exists w', r'. split; [exact Hrun|]. split; [exact Hload|].
    split; [exists t'; split; [exact Hnew | apply Hsame; reflexivity]|].
    specialize (Hkeep "30m" ltac:(discriminate)).
    assert (@ledger_map DemoLib.lib (LastExecutionFile Examples.cfg_ledger)
              Examples.w_recorded !! "30m" = Some Examples.t_09_30_00) as Hold
      by (vm_compute; reflexivity).
    rewrite Hold in Hkeep.
    destruct (last_execution r' "30m") as [u|]; [|contradiction].
    exists u. split; [reflexivity | exact Hkeep].
Defined.

Lemma runOneShotMode_once_per_minute_witness :
  exists w2,
    @runOneShotMode DemoLib.lib RunExamples.env_oneshot
      RunExamples.cfg_oneshot_live Examples.t_09_30_45
      (world_of (@runOneShotMode DemoLib.lib RunExamples.env_oneshot
                   RunExamples.cfg_oneshot_live Examples.t_09_30_00
                   Examples.w_empty))
    = Returned None w2.
Proof.
  destruct (@runOneShotMode_once_per_minute DemoLib.lib DemoLib_laws
              RunExamples.env_oneshot RunExamples.env_oneshot
              RunExamples.cfg_oneshot_live
              Examples.t_09_30_00 Examples.t_09_30_45 "30m" Examples.w_empty
              (world_of (setupLogOutput RunExamples.env_oneshot
                           RunExamples.cfg_oneshot_live Examples.w_empty))
              (world_of (@shouldExecuteBackup DemoLib.lib
                           RunExamples.cfg_oneshot_live Examples.t_09_30_00
                           (world_of (setupLogOutput RunExamples.env_oneshot
                              RunExamples.cfg_oneshot_live Examples.w_empty))))
              (world_of (@runOneShotMode DemoLib.lib RunExamples.env_oneshot
                           RunExamples.cfg_oneshot_live Examples.t_09_30_00
                           Examples.w_empty)))
    as (_ & w2 & Hrun & _).
  - discriminate.
  - discriminate.
  - reflexivity.
  - vm_compute. reflexivity.
  - reflexivity.
  - apply (bool_decide_unpack _). vm_compute. exact I.
  - vm_compute. reflexivity.
  - vm_compute. reflexivity.
  - vm_compute. reflexivity.
  - vm_compute. reflexivity.
  - vm_compute. reflexivity.
  - by exists w2.
Defined.

(** The zone offset of whole minutes is needed.  At 09:30:05 on a clock
    9 hours, 18 minutes and 59 seconds east of UTC a live run records its
    execution; the time is read back 59 seconds later, in the next minute,
    and the run at 09:30:20 on the same clock, in the same minute as the
    first, is allowed again. *)
Example runOneShotMode_twice_with_offset_seconds :
  let now := date_2025_07_01 9 30 5 33539 in
  let now' := date_2025_07_01 9 30 20 33539 in
  let first :=
    @runOneShotMode DemoLib.lib RunExamples.env_oneshot
      RunExamples.cfg_oneshot_live now Examples.w_empty in
  Equal (Truncate now' Minute_d) (Truncate now Minute_d) = true
  /\ (exists w1, first = Returned None w1)
  /\ exists w2,
       @shouldExecuteBackup DemoLib.lib RunExamples.cfg_oneshot_live now'
         (world_of first)
       = Returned (true, "30m", None) w2.
Proof.
  split; [vm_compute; reflexivity|].
  split; eexists; vm_compute; reflexivity.
Qed.

(** ** Daemon mode and the schedule of a day *)

Lemma wall_seconds_Add t d :
  wall_seconds (Add t (d * Second)) = wall_seconds t + d.
Proof.
  unfold wall_seconds, Add. cbn [abs_ns zone].
  rewrite Z.div_add by done. lia.
Qed.

(** Hour and minute as functions of the minute count of the wall clock. *)
Lemma Hour_Minute_of_minutes t :
  Hour t = (wall_seconds t / 60 / 60) mod 24
  /\ Minute t = (wall_seconds t / 60) mod 60.
Proof.
  unfold Hour, Minute. set (ws := wall_seconds t). split.
  - rewrite Z.div_div by lia. change (60 * 60) with 3600.
    change 86400 with (3600 * 24). rewrite Z.rem_mul_r by lia.
    rewrite Z.mul_comm, Z.div_add by lia.
    rewrite (Z.div_small (ws mod 3600)) by (apply Z.mod_pos_bound; lia). lia.
  - change 3600 with (60 * 60). rewrite Z.rem_mul_r by lia.
    rewrite Z.mul_comm, Z.div_add by lia.
    rewrite (Z.div_small (ws mod 60)) by (apply Z.mod_pos_bound; lia). lia.
Qed.

(** The classifier looks at the minute of the wall clock only. *)
Lemma determineBestBackupLevel_minute t u :
  wall_seconds t / 60 = wall_seconds u / 60 ->
  determineBestBackupLevel t = determineBestBackupLevel u.
Proof.
  intros Heq. unfold determineBestBackupLevel.
  destruct (Hour_Minute_of_minutes t) as [-> ->].
  destruct (Hour_Minute_of_minutes u) as [-> ->]. by rewrite Heq.
Qed.

Lemma due_levels_cons now polls :
  due_levels (now :: polls)
  = match determineBestBackupLevel now with
    | (true, level) => level :: due_levels polls
    | (false, _) => due_levels polls
    end.
Proof.
  unfold due_levels. simpl.
  by destruct (determineBestBackupLevel now) as [[] level].
Qed.

Lemma runDaemonMode_loop_eq cfg polls : forall ran w,
  runDaemonMode_loop cfg polls ran w
  = Returned (if DryRun cfg then ran else reverse (due_levels polls) ++ ran) w.
Proof.
  destruct (DryRun cfg) eqn:Hdry.
  - induction polls as [|now polls IH]; intros ran w; [done|].
    cbn [runDaemonMode_loop]. rewrite Hdry.
    destruct (determineBestBackupLevel now) as [[] level]; apply IH.
  - induction polls as [|now polls IH]; intros ran w; [done|].
    cbn [runDaemonMode_loop]. rewrite due_levels_cons, Hdry.
    destruct (determineBestBackupLevel now) as [[] level].
    + unfold runBackupWithLevel, mbind, M_bind. cbn [mret M_ret].
      rewrite IH. by rewrite reverse_cons, <- app_assoc.
    + apply IH.
Qed.

(** X23: daemon mode has no guard against running a level twice.  The
    loop runs the backup at every poll at which a level is due, without
    reading or writing the ledger, and leaves the machine as it is; with
    its polls 30 seconds apart, a poll in the first half of a due minute
    is followed by a second poll in the same minute, and the level of that
    minute is run twice. *)
Theorem runDaemonMode_runs_a_due_minute_twice (cfg : BackupConfig) (t : Time)
    (level : string) (w : World) :
  DryRun cfg = false ->
  determineBestBackupLevel t = (true, level) ->
  wall_seconds t mod 60 < 30 ->
  runDaemonMode_loop cfg [t; Add t (30 * Second)] [] w
  = Returned [level; level] w
  /\ (forall polls ran w0,
        runDaemonMode_loop cfg polls ran w0
        = Returned (reverse (due_levels polls) ++ ran) w0).
Proof.
  intros Hlive Hdue Hhalf. split.
  - rewrite runDaemonMode_loop_eq, Hlive, !due_levels_cons.
    assert (determineBestBackupLevel (Add t (30 * Second))
            = determineBestBackupLevel t) as ->.
    { apply determineBestBackupLevel_minute. rewrite wall_seconds_Add.
      pose proof (Z.div_mod (wall_seconds t) 60 ltac:(lia)) as Hdm.
      symmetry. apply Z.div_unique with (wall_seconds t mod 60 + 30).
      - pose proof (Z.mod_pos_bound (wall_seconds t) 60 ltac:(lia)). lia.
      - lia. }
    by rewrite Hdue.
  - intros polls ran w0. by rewrite runDaemonMode_loop_eq, Hlive.
Qed.

Lemma runDaemonMode_runs_a_due_minute_twice_witness :
  runDaemonMode_loop RunExamples.cfg_live_ledger
    [Examples.t_09_30_00; Add Examples.t_09_30_00 (30 * Second)] []
    Examples.w_empty
  = Returned ["30m"; "30m"] Examples.w_empty.
Proof.
  apply (runDaemonMode_runs_a_due_minute_twice RunExamples.cfg_live_ledger
           Examples.t_09_30_00 "30m" Examples.w_empty);
    [reflexivity | vm_compute; reflexivity | vm_compute; reflexivity].
Defined.

Lemma determineBestBackupLevel_of_day midnight k :
  wall_seconds midnight mod 86400 = 0 ->
  determineBestBackupLevel (Add midnight (Z.of_nat k * Minute_d))
  = determineBestBackupLevel (Add (mkTime 0 0) (Z.of_nat k * Minute_d)).
Proof.
  intros Hmid. apply Z.mod_divide in Hmid as [days Hdays]; [|done].
  assert (Hws : forall t0, wall_seconds (Add t0 (Z.of_nat k * Minute_d))
                           = wall_seconds t0 + Z.of_nat k * 60).
  { intros t0. change Minute_d with (60 * Second).
    rewrite Z.mul_assoc. apply wall_seconds_Add. }
  unfold determineBestBackupLevel, Hour, Minute. rewrite !Hws, Hdays.
  change (wall_seconds (mkTime 0 0)) with 0.
  replace (days * 86400 + Z.of_nat k * 60)
    with (0 + Z.of_nat k * 60 + days * 86400) by lia.
  rewrite Z_mod_plus_full.
  replace (0 + Z.of_nat k * 60 + days * 86400)
    with (0 + Z.of_nat k * 60 + (days * 24) * 3600) by lia.
  by rewrite Z_mod_plus_full.
Qed.

Lemma minutes_of_day_levels midnight :
  wall_seconds midnight mod 86400 = 0 ->
  due_levels (minutes_of_day midnight)
  = due_levels (minutes_of_day (mkTime 0 0)).
Proof.
  intros Hmid. unfold minutes_of_day.
  induction (seq 0 1440) as [|k ks IH]; [done|].
  cbn [map]. rewrite !due_levels_cons, IH.
  by rewrite (determineBestBackupLevel_of_day midnight k Hmid).
Qed.

(** X24: the schedule of a day.  Polled once in every minute of a day
    that begins at midnight on the wall clock, whatever the day and the
    zone, the classifier is due 48 times, at the full and the half hours;
    each time it names one level, the coarsest that matches: the daily
    level once, at 00:00, the 12h level once, at 12:00, the 6h level
    twice, the 3h level four times and the 30m level forty times. *)
Theorem schedule_of_a_day (midnight : Time) :
  wall_seconds midnight mod 86400 = 0 ->
  let due := due_levels (minutes_of_day midnight) in
  length due = 48%nat
  /\ length (filter (fun level => level = "1d") due) = 1%nat
  /\ length (filter (fun level => level = "12h") due) = 1%nat
  /\ length (filter (fun level => level = "6h") due) = 2%nat
  /\ length (filter (fun level => level = "3h") due) = 4%nat
  /\ length (filter (fun level => level = "30m") due) = 40%nat
  /\ take 7 due = ["1d"; "30m"; "30m"; "30m"; "30m"; "30m"; "3h"].
Proof.
  intros Hmid due. unfold due. rewrite (minutes_of_day_levels midnight Hmid).
  set (due0 := due_levels (minutes_of_day (mkTime 0 0))).
  vm_compute in due0. subst due0.
  repeat split; vm_compute; reflexivity.
Qed.

Lemma schedule_of_a_day_witness :
  length (due_levels (minutes_of_day (date_2025_07_01 0 0 0 32400))) = 48%nat.
Proof.
  apply (schedule_of_a_day (date_2025_07_01 0 0 0 32400)).
  vm_compute. reflexivity.
Defined.

(** ** Promotion loses nothing *)

(** A live step of the promoter of [src/main.go] between two tiers of a
    chain whose directories share no name: the entries held by the chain
    are the same before and after, and the directories still share no
    name. *)
Lemma promote_pair_conserves cfg lvls cur next w :
  cur ∈ lvls -> next ∈ lvls ->
  dir_of cfg next <> "" -> dir_of cfg cur <> dir_of cfg next ->
  0 <= keep_of cfg cur ->
  names_apart cfg lvls w ->
  exists w',
    promote_pair Z.gtb cfg false cur next w = Returned tt w'
    /\ (forall name c, held cfg lvls w name c <-> held cfg lvls w' name c)
    /\ names_apart cfg lvls w'.
Proof.
  intros Hcur Hnext Hdir Hne Hkeep Hapart.
  set (curDir := dir_of cfg cur) in *. set (nextDir := dir_of cfg next) in *.
  destruct (Z.gtb_spec (Z.of_nat (length (artifacts (tier_dir w curDir))))
              (keep_of cfg cur)) as [Hgt|Hle]; cycle 1.
  { exists (examined cfg cur next w). split.
    - apply promote_pair_stay; [done..|]. right. fold curDir.
      destruct (Z.gtb_spec (Z.of_nat (length (artifacts (tier_dir w curDir))))
                  (keep_of cfg cur)); [lia | done].
    - split.
      + intros name c. unfold held.
        by setoid_rewrite tier_dir_examined.
      + intros l1 l2 name. rewrite !tier_dir_examined. apply Hapart. }
  destruct (artifacts (tier_dir w curDir)) as [|old rest] eqn:Hart;
    [cbn in Hgt; lia|].
  pose proof (artifacts_cons_dir _ _ _ _ Hart) as Hd.
  destruct (promote_pair_promotes Z.gtb cfg cur next w _ Hdir Hne Hd)
    as (old' & rest' & c0 & w' & Hart' & Hc0 & _ & Hrun & Hcur' & _ & Hother
        & _ & Hnext').
  { fold curDir. by rewrite Hart. }
  { fold curDir. rewrite Hart. by apply Z.gtb_lt. }
  fold curDir nextDir in Hart', Hcur', Hother, Hnext', Hrun.
  rewrite Hart in Hart'. injection Hart' as <- <-.
  assert (Hfree : tier_dir w nextDir !! old = None).
  { destruct (tier_dir w nextDir !! old) as [c1|] eqn:Hc1; [|done].
    exfalso. apply Hne.
    apply (Hapart cur next old); [done | done | by eexists | by eexists]. }
  rewrite Hfree in Hnext'. destruct Hnext' as [Hnext' _].
  assert (Htier : forall D,
    tier_dir w' D
    = if decide (D = curDir) then delete old (tier_dir w curDir)
      else if decide (D = nextDir) then <[old := c0]> (tier_dir w nextDir)
      else tier_dir w D).
  { intros D. repeat case_decide; subst; [done..|].
    unfold tier_dir. by rewrite Hother. }
  assert (Hlookup : forall D name, name <> old ->
    tier_dir w' D !! name = tier_dir w D !! name).
  { intros D name Hname. rewrite Htier. repeat case_decide; subst.
    - by rewrite lookup_delete_ne by (by apply not_eq_sym).
    - by rewrite lookup_insert_ne by (by apply not_eq_sym).
    - done. }
  assert (Holdw : forall lvl, lvl ∈ lvls ->
    is_Some (tier_dir w (dir_of cfg lvl) !! old) -> dir_of cfg lvl = curDir).
  { intros lvl Hlvl Hsome.
    apply (Hapart lvl cur old); [done | done | done | by eexists]. }
  assert (Hold : forall lvl c, lvl ∈ lvls ->
    tier_dir w' (dir_of cfg lvl) !! old = Some c ->
    dir_of cfg lvl = nextDir /\ c = c0).
  { intros lvl c Hlvl. rewrite Htier. repeat case_decide.
    - by rewrite lookup_delete_eq.
    - rewrite lookup_insert_eq. by intros [= <-].
    - intros Hc. exfalso. match goal with Hn : _ <> curDir |- _ => apply Hn end.
      apply (Holdw lvl Hlvl). by eexists. }
  exists w'. split; [done|]. split.
  - intros name c. unfold held. destruct (decide (name = old)) as [->|Hname].
    + split.
      * intros (lvl & Hlvl & Hc). exists next. split; [done|].
        fold nextDir. rewrite Hnext', lookup_insert_eq.
        rewrite (Holdw lvl Hlvl) in Hc by (by eexists). congruence.
      * intros (lvl & Hlvl & Hc). apply Hold in Hc as [_ ->]; [|done].
        by exists cur.
    + by setoid_rewrite Hlookup.
  - intros l1 l2 name Hl1 Hl2 [c1 H1] [c2 H2].
    destruct (decide (name = old)) as [->|Hname].
    + apply Hold in H1 as [-> _]; [|done]. by apply Hold in H2 as [-> _].
    + rewrite Hlookup in H1, H2 by done.
      apply (Hapart l1 l2 name); [done | done | by eexists | by eexists].
Qed.

Lemma promote_loop_conserves cfg all lvls : forall w,
  (forall lvl, lvl ∈ lvls -> lvl ∈ all) ->
  well_formed cfg lvls -> names_apart cfg all w ->
  exists w',
    promote_loop Z.gtb cfg false lvls w = Returned tt w'
    /\ (forall name c, held cfg all w name c <-> held cfg all w' name c)
    /\ names_apart cfg all w'.
Proof.
  induction lvls as [|cur [|next rest] IH]; intros w Hin [Hok Hnd] Hapart;
    [by exists w..|].
  rewrite promote_loop_cons.
  pose proof Hok as [[_ Hkeep] [[Hdir _] _]%Forall_cons_1]%Forall_cons_1.
  cbn [map] in Hnd. pose proof Hnd as [Hnotin Hnd']%NoDup_cons.
  destruct (promote_pair_conserves cfg all cur next w) as (w1 & -> & Hheld & Hap1).
  - apply Hin. left.
  - apply Hin. right. left.
  - done.
  - intros Heq. apply Hnotin. rewrite Heq. left.
  - done.
  - done.
  - destruct (IH w1) as (w' & Hrun & Hheld' & Hap').
    + intros lvl Hlvl. apply Hin. by right.
    + split; [by apply Forall_cons_1 in Hok as [_ ?] | done].
    + done.
    + exists w'. split; [done|]. split; [|done].
      intros name c. by rewrite Hheld.
Qed.

(** X25: promotion loses no backup.  In live mode, over tiers with
    distinct directories and keep counts that are not negative, and as
    long as no name is in two tiers (serial numbers make the names
    unique), the promoter of [src/main.go] returns and the tiers together
    hold exactly the entries they held before, name for name and content
    for content; what it does is move entries to the next tier.  The
    names are still in one tier each afterwards. *)
Theorem promoteBackup_loses_nothing (cfg : BackupConfig) (lvls : list string)
    (w : World) :
  well_formed cfg lvls -> names_apart cfg lvls w ->
  exists w',
    promoteBackup cfg false lvls w = Returned tt w'
    /\ (forall name c,
          (exists lvl, lvl ∈ lvls /\ tier_dir w (dir_of cfg lvl) !! name = Some c)
          <-> (exists lvl, lvl ∈ lvls
                           /\ tier_dir w' (dir_of cfg lvl) !! name = Some c))
    /\ names_apart cfg lvls w'.
Proof.
  intros Hwf Hapart.
  by apply (promote_loop_conserves cfg lvls lvls w).
Qed.

Lemma promoteBackup_loses_nothing_witness :
  exists w',
    promoteBackup Examples.cfg_tiers false levels Examples.w_over_keep
    = Returned tt w'
    /\ exists lvl, lvl ∈ levels
         /\ tier_dir w' (dir_of Examples.cfg_tiers lvl)
              !! "000001_20250701_0900.vhdx" = Some "image 1".
Proof.
  destruct (promoteBackup_loses_nothing Examples.cfg_tiers levels
              Examples.w_over_keep) as (w' & Hrun & Hheld & _).
  - split.
    + repeat constructor; vm_compute; discriminate.
    + apply (bool_decide_unpack _). vm_compute. exact I.
  - intros l1 l2 name Hl1 Hl2 [c1 H1] [c2 H2].
    assert (Honly : forall l c, l ∈ levels ->
      tier_dir Examples.w_over_keep (dir_of Examples.cfg_tiers l) !! name = Some c ->
      dir_of Examples.cfg_tiers l = "backup/30m").
    { intros l c Hl. unfold levels in Hl. rewrite !elem_of_cons in Hl.
      destruct Hl as [->|[->|[->|[->|[->|Hl]]]]];
        [done | | | | | by apply elem_of_nil in Hl];
        intros Hc; vm_compute in Hc; discriminate. }
    by rewrite (Honly l1 c1 Hl1 H1), (Honly l2 c2 Hl2 H2).
  - exists w'. split; [exact Hrun|]. apply Hheld.
    exists "30m". split; [left | vm_compute; reflexivity].
Defined.

(** ** Log output *)

Section LoggingFacts.
Import Logging.
Context (line : Message -> string) (open_error : string -> option error).

Lemma str_app_nil_r s : (s ++ "")%string = s.
Proof. induction s as [|c s IH]; [done|]. by rewrite str_app_cons, IH. Qed.

Lemma str_app_nil_l s : ("" ++ s)%string = s.
Proof. reflexivity. Qed.

Lemma lines_app msgs msg :
  lines line (msgs ++ [msg]) = (lines line msgs ++ line msg)%string.
Proof.
  induction msgs as [|m msgs IH]; cbn [app lines foldr].
  - change ((line msg ++ "")%string = ("" ++ line msg)%string).
    by rewrite str_app_nil_r.
  - fold (lines line (msgs ++ [msg])). fold (lines line msgs).
    by rewrite IH, str_app_assoc.
Qed.

Lemma logged_snoc msgs msg lg :
  logged line (msgs ++ [msg]) lg = Printf line msg (logged line msgs lg).
Proof. unfold logged. by rewrite foldl_app. Qed.

(** While standard error and the buffer are the writers, a message goes
    to both. *)
Lemma logged_initial msgs : forall err buf global disk,
  logged line msgs (mkLogger err buf [Stderr; Buffer] global disk)
  = mkLogger (err ++ lines line msgs)%string (buf ++ lines line msgs)%string
      [Stderr; Buffer] global disk.
Proof.
  induction msgs as [|msg msgs IH] using rev_ind; intros err buf global disk.
  - cbn. by rewrite !str_app_nil_r.
  - rewrite logged_snoc, IH. unfold Printf, MultiWriter_Write.
    cbn [writers foldl Writer_Write stderr buffer logfile logs].
    unfold LogBuffer_Write. cbn [writers stderr buffer logfile logs].
    by rewrite lines_app, !str_app_assoc.
Qed.

Lemma Printf_two msg err buf global disk :
  Printf line msg (mkLogger err buf [Stderr; Buffer] global disk)
  = mkLogger (err ++ line msg)%string (buf ++ line msg)%string
      [Stderr; Buffer] global disk.
Proof. reflexivity. Qed.

Lemma Printf_file msg err buf path global disk :
  Printf line msg (mkLogger err buf [Stderr; LogFile path] global disk)
  = mkLogger (err ++ line msg)%string buf [Stderr; LogFile path] global
      (<[path := (default "" (disk !! path) ++ line msg)%string]> disk).
Proof. reflexivity. Qed.

Lemma Writer_Write_logfile p lg writer :
  logfile (Writer_Write p lg writer) = logfile lg
  /\ writers (Writer_Write p lg writer) = writers lg.
Proof. by destruct writer. Qed.

Lemma Printf_logfile msg lg :
  logfile (Printf line msg lg) = logfile lg
  /\ writers (Printf line msg lg) = writers lg.
Proof.
  assert (Hall : forall ws lg0,
    logfile (foldl (Writer_Write (line msg)) lg0 ws) = logfile lg0
    /\ writers (foldl (Writer_Write (line msg)) lg0 ws) = writers lg0).
  { induction ws as [|w ws IH]; intros lg0; [done|].
    cbn [foldl]. destruct (IH (Writer_Write (line msg) lg0 w)) as [-> ->].
    apply Writer_Write_logfile. }
  apply Hall.
Qed.

(** X26: the switch of the log output.  When [setupLogOutput] is given a
    path it can open, after [init] and any messages logged since, it
    returns no error; the log file then holds what it held, followed by
    every line logged since [init] and the line of the switch; but the
    line that confirms the flush of the buffer is not in the file: it is
    written while the buffer is still a writer and the file is not yet,
    and the buffer is detached with it.  From then on every line goes to
    standard error and the file.  Standard error has every line. *)
Theorem setupLogOutput_switches_to_file (disk : gmap string string)
    (path : string) (msgs : list Message) :
  path <> "" -> open_error path = None -> (forall msg, line msg <> "") ->
  let before := (line MsgInit ++ lines line msgs ++ line (MsgSetup path))%string in
  let flushed := line (MsgFlushed (String.length before)) in
  let old := default "" (disk !! path) in
  exists lg,
    setupLogOutput line open_error path (logged line msgs (init line disk))
    = (lg, None)
    /\ writers lg = [Stderr; LogFile path]
    /\ logs lg !! path = Some (old ++ before ++ line (MsgSwitched path))%string
    /\ stderr lg = (before ++ flushed ++ line (MsgSwitched path))%string
    /\ buffer lg = flushed
    /\ (forall other, other <> path -> logs lg !! other = disk !! other)
    /\ (forall msg,
          logs (Printf line msg lg) !! path
          = Some (old ++ before ++ line (MsgSwitched path) ++ line msg)%string
          /\ stderr (Printf line msg lg)
             = (before ++ flushed ++ line (MsgSwitched path) ++ line msg)%string).
Proof.
  intros Hpath Hopen Hline before flushed old.
  assert (Hnonempty : (0 <? Z.of_nat (String.length before)) = true).
  { apply Z.ltb_lt. unfold before.
    destruct (line MsgInit) as [|c s] eqn:Hinit; [by apply Hline in Hinit|].
    rewrite str_app_cons. cbn [String.length]. lia. }
  unfold init. rewrite Printf_two, logged_initial. unfold setupLogOutput.
  rewrite (eqb_empty_false _ Hpath), Hopen, Printf_two.
  change ("" ++ line MsgInit)%string with (line MsgInit).
  rewrite !str_app_assoc. fold before.
  unfold OpenFile_append, GetAndClear. cbn [writers stderr buffer logfile logs].
  rewrite Hnonempty. fold flushed.
  cbn [Writer_Write writers stderr buffer logfile logs].
  rewrite Printf_two. unfold RemoveWriter, AddWriter.
  cbn [writers stderr buffer logfile logs].
  change (remove_first Buffer [Stderr; Buffer]) with [Stderr].
  cbn [app]. rewrite Printf_file.
  rewrite !lookup_insert_eq, !insert_insert_eq. cbn [default]. unfold id.
  rewrite str_app_nil_l, !str_app_assoc.
  eexists. split; [reflexivity|]. cbn [writers stderr buffer logfile logs].
  rewrite !lookup_insert_eq.
  split; [done|]. split; [done|]. split; [done|]. split; [done|].
  split; [by intros other Hne; rewrite lookup_insert_ne by (by apply not_eq_sym)|].
  intros msg. rewrite Printf_file. cbn [stderr logs].
  rewrite !lookup_insert_eq. cbn [default]. unfold id.
  by rewrite !str_app_assoc.
Qed.

(** X27: the log file is never closed.  [setupLogOutput] opens the file
    into a local variable that hides the global [logfile], so the global
    is what it was, nil since [init], and [closeLogFile], which tests the
    global, does nothing: it closes no file and logs no line. *)
Theorem closeLogFile_never_closes (disk : gmap string string) (path : string)
    (msgs msgs' : list Message) :
  let lg := logged line msgs'
              (setupLogOutput line open_error path
                 (logged line msgs (init line disk))).1 in
  logfile lg = None /\ closeLogFile line lg = lg.
Proof.
  assert (Hlogged : forall ms lg0, logfile (logged line ms lg0) = logfile lg0).
  { intros ms. induction ms as [|m ms IH] using rev_ind; intros lg0; [done|].
    rewrite logged_snoc.
    destruct (Printf_logfile m (logged line ms lg0)) as [-> _]. apply IH. }
  assert (Hsetup : forall lg0,
    logfile (setupLogOutput line open_error path lg0).1 = logfile lg0).
  { intros lg0. unfold setupLogOutput.
    destruct (String.eqb path ""); cbn [fst].
    { by destruct (Printf_logfile MsgNoLogFile lg0) as [-> _]. }
    destruct (open_error path) as [e|]; cbn [fst].
    { destruct (Printf_logfile (MsgOpenError e)
                  (Printf line (MsgSetup path) lg0)) as [-> _].
      by destruct (Printf_logfile (MsgSetup path) lg0) as [-> _]. }
    unfold GetAndClear, OpenFile_append.
    cbn [stderr buffer writers logfile logs fst].
    match goal with
    | |- logfile (Printf line _ ?lg) = _ =>
        destruct (Printf_logfile (MsgSwitched path) lg) as [-> _]
    end.
    cbn [AddWriter RemoveWriter logfile].
    destruct (0 <? _).
    - match goal with
      | |- logfile (Printf line ?m ?lg) = _ =>
          destruct (Printf_logfile m lg) as [-> _]
      end.
      cbn [Writer_Write logfile].
      by destruct (Printf_logfile (MsgSetup path) lg0) as [-> _].
    - cbn [logfile]. by destruct (Printf_logfile (MsgSetup path) lg0) as [-> _]. }
  intros lg.
  assert (Hnil : logfile lg = None).
  { unfold lg. rewrite Hlogged, Hsetup, Hlogged. unfold init.
    by destruct (Printf_logfile MsgInit (mkLogger "" "" [Stderr; Buffer] None disk))
      as [-> _]. }
  split; [done|]. unfold closeLogFile. by rewrite Hnil.
Qed.

End LoggingFacts.

Lemma setupLogOutput_switches_to_file_witness :
  exists lg,
    Logging.setupLogOutput (fun _ => "line;") (fun _ => None) "backup.log"
      (Logging.logged (fun _ => "line;") [Logging.MsgOther "loading"]
         (Logging.init (fun _ => "line;") ∅))
    = (lg, None)
    /\ Logging.logs lg !! "backup.log" = Some "line;line;line;line;"
    /\ Logging.stderr lg = "line;line;line;line;line;".
Proof.
  destruct (setupLogOutput_switches_to_file (fun _ => "line;") (fun _ => None)
              ∅ "backup.log" [Logging.MsgOther "loading"])
    as (lg & Hrun & _ & Hfile & Herr & _);
    [discriminate | reflexivity | discriminate |].
  exists lg. split; [exact Hrun|]. split; [exact Hfile | exact Herr].
Defined.

(** ** The log file on the machine *)

(** The two views of [setupLogOutput] agree.  Take the files of the
    machine for the log files of a logger whose writers are standard error
    and the buffer, as they are since [init], and let the open fail as it
    does on the machine: when [buffered] is what the buffer holds once the
    line of the set-up is in it, and the lines of the switch are the same,
    the result is the same, and the files of the machine afterwards are
    the log files of the logger. *)
Lemma setupLogOutput_on_machine (line' : Logging.Message -> string) (env : Env)
    (cfg : RunConfig) (w : World) (err buf : string) (global : option string) :
  buffered env = (buf ++ line' (Logging.MsgSetup (LogFile cfg)))%string ->
  line env LineSwitched = line' (Logging.MsgSwitched (LogFile cfg)) ->
  let after :=
    Logging.setupLogOutput line'
      (fun path => OpenFile_error (create_error env) path w) (LogFile cfg)
      (Logging.mkLogger err buf [Logging.Stderr; Logging.Buffer] global (files w)) in
  setupLogOutput env cfg w
  = Returned after.2 (set_files (Logging.logs after.1) w).
Proof.
  intros Hbuffered Hswitched after. unfold after, setupLogOutput, Logging.setupLogOutput.
  assert (Hsame : set_files (files w) w = w) by by destruct w.
  case_decide as Hlog.
  { rewrite Hlog. cbn [String.eqb fst snd]. rewrite Printf_two.
    cbn [Logging.logs]. by rewrite Hsame. }
  rewrite (eqb_empty_false _ Hlog), Printf_two.
  destruct (OpenFile_error (create_error env) (LogFile cfg) w) as [e|].
  { cbn [fst snd]. rewrite Printf_two. cbn [Logging.logs]. by rewrite Hsame. }
  unfold Logging.OpenFile_append, Logging.GetAndClear.
  cbn [Logging.writers Logging.stderr Logging.buffer Logging.logfile Logging.logs].
  rewrite <- Hbuffered.
  assert (Hfile : forall lg,
            Logging.writers lg = [Logging.Stderr; Logging.Buffer] ->
            Logging.logs
              (Logging.Printf line' (Logging.MsgSwitched (LogFile cfg))
                 (Logging.AddWriter (Logging.LogFile (LogFile cfg))
                    (Logging.RemoveWriter Logging.Buffer lg)))
            = <[LogFile cfg :=
                  (default "" (Logging.logs lg !! LogFile cfg)
                   ++ line' (Logging.MsgSwitched (LogFile cfg)))%string]>
                (Logging.logs lg)).
  { intros [e b ws g d] Hws. cbn in Hws. subst ws. reflexivity. }
  destruct (0 <? Z.of_nat (String.length (buffered env))) eqn:Hlen.
  - cbn [Logging.Writer_Write Logging.writers Logging.stderr Logging.buffer
         Logging.logfile Logging.logs].
    rewrite Printf_two. cbn [fst snd]. rewrite Hfile by done.
    cbn [Logging.logs]. unfold append_file, set_files. cbn [files].
    rewrite !lookup_insert_eq, !insert_insert_eq. cbn [default].
    unfold id. by rewrite Hswitched, str_app_assoc.
  - cbn [fst snd]. rewrite Hfile by done.
    cbn [Logging.logs]. unfold append_file, set_files. cbn [files].
    rewrite !lookup_insert_eq, !insert_insert_eq. cbn [default].
    assert (buffered env = "") as ->.
    { destruct (buffered env); [done|]. cbn [String.length] in Hlen.
      apply Z.ltb_ge in Hlen. lia. }
    unfold id. by rewrite Hswitched.
Qed.
